(** * BetSwirl action provider: a shallow embedding and its checked properties

    The development follows the TypeScript sources
    [action-providers/betSwirl/schemas.ts] (the zod input schemas),
    [action-providers/betSwirl/utils/betswirl.ts] (chain, token, amount,
    requirement, fee, submission and indexer helpers) and
    [action-providers/betSwirl/betSwirlActionProvider.ts] (the five actions).

    Layout: definitions first (JavaScript values and errors, a regular
    expression matcher for the fragment the schemas use, the zod combinators,
    the schemas, the collaborators the code calls, the effect monad over an
    explicit trace and clock, the helpers, the actions, the vocabulary of
    the statements, and one concrete scenario), then the theorems: the
    validators, the footprint of a computation, the requirement gate and
    the fee margin, token resolution, the polling loop, the actions, the
    failures on the way to a bet, whole runs, what a game action places,
    the remaining schemas and network support, and the statements run on
    the scenario. *)

From Stdlib Require Import ZArith NArith QArith Bool List String Ascii Lia.
From Stdlib Require Import DecimalString.
Import ListNotations.

Set Warnings "-register-all".

Local Open Scope string_scope.
Local Open Scope list_scope.
Local Open Scope Z_scope.

(* ================================================================== *)
(** * JavaScript values, numbers and errors *)
(* ================================================================== *)

Module Js.

(** A JavaScript [number]: every finite double is a rational; the three
    non-finite values are kept apart because zod treats them apart. *)
Inductive JsNumber :=
| Finite (q : Q)
| PosInfinity
| NegInfinity
| NaN.

(** The loosely-typed values an action can be called with. *)
Inductive JsValue :=
| JUndefined
| JNull
| JBool (b : bool)
| JNumber (n : JsNumber)
| JString (s : string)
| JArray (items : list JsValue)
| JObject (fields : list (string * JsValue)).

(** An object literal; property names are unique in a JavaScript object,
    [js_get] reads the first binding and yields [undefined] when the
    property is missing. *)
Definition JsObject := list (string * JsValue).

Fixpoint js_get (o : JsObject) (key : string) : JsValue :=
  match o with
  | [] => JUndefined
  | (k, v) :: rest => if String.eqb k key then v else js_get rest key
  end.

(** [bound <= x] and [x <= bound] for a number against an integer bound,
    with the IEEE reading of the non-finite values. *)
Definition num_gte (x : JsNumber) (bound : Z) : bool :=
  match x with
  | Finite q => Qle_bool (inject_Z bound) q
  | PosInfinity => true
  | NegInfinity => false
  | NaN => false
  end.

Definition num_lte (x : JsNumber) (bound : Z) : bool :=
  match x with
  | Finite q => Qle_bool q (inject_Z bound)
  | PosInfinity => false
  | NegInfinity => true
  | NaN => false
  end.

Definition num_gt (x : JsNumber) (bound : Z) : bool :=
  match x with
  | Finite q => negb (Qle_bool q (inject_Z bound))
  | PosInfinity => true
  | NegInfinity => false
  | NaN => false
  end.

(** A thrown [Error] object: its [name] and its [message]. *)
Record JsError := { err_name : string; err_message : string }.

(** [new Error(message)] *)
Definition Error (message : string) : JsError :=
  {| err_name := "Error"; err_message := message |}.

Definition TypeError (message : string) : JsError :=
  {| err_name := "TypeError"; err_message := message |}.

(** [`${error}`], that is [Error.prototype.toString]. *)
Definition error_toString (e : JsError) : string :=
  if String.eqb (err_name e) "" then err_message e
  else if String.eqb (err_message e) "" then err_name e
  else (err_name e ++ ": " ++ err_message e)%string.

(** [String(n)] and [`${n}`] for a [bigint] or an integral [number]. *)
Definition bigint_toString (z : Z) : string :=
  NilZero.string_of_int (Z.to_int z).

(** [a / b] on [bigint]: the quotient truncated toward zero. *)
Definition bigint_div (a b : Z) : Z := Z.quot a b.

(** Truthiness of an optional string: [undefined] and [""] are falsy. *)
Definition truthy (s : option string) : bool :=
  match s with
  | None => false
  | Some v => negb (String.eqb v "")
  end.

(** The result of a call that may throw. *)
Definition Result (A : Type) : Type := (JsError + A)%type.

End Js.
Export Js.

(* ================================================================== *)
(** * Regular expressions: the fragment used by the schemas *)
(* ================================================================== *)

Module Regex.

(** A character class as the ranges written between brackets. *)
Definition CharClass := list (ascii * ascii).

Inductive Item :=
| Bol                                   (* ^ *)
| Eol                                   (* $ *)
| Lit (c : ascii)                       (* a literal character *)
| Repeat (cls : CharClass) (n : nat).   (* [...]{n} *)

Definition Pattern := list Item.

Definition in_range (c : ascii) (r : ascii * ascii) : bool :=
  (nat_of_ascii (fst r) <=? nat_of_ascii c)%nat
  && (nat_of_ascii c <=? nat_of_ascii (snd r))%nat.

Definition in_class (cls : CharClass) (c : ascii) : bool :=
  existsb (in_range c) cls.

(** Consume exactly [n] characters of the class. *)
Fixpoint take_class (cls : CharClass) (n : nat) (s : string) : option string :=
  match n with
  | O => Some s
  | S n' =>
      match s with
      | EmptyString => None
      | String c s' => if in_class cls c then take_class cls n' s' else None
      end
  end.

(** Match the pattern at the current position; [bol] tells whether the
    position is the start of the input.  Without the [m] flag, [^] holds
    only there and [$] only at the end of the input. *)
Fixpoint match_here (p : Pattern) (bol : bool) (s : string) : bool :=
  match p with
  | [] => true
  | Bol :: p' => bol && match_here p' bol s
  | Eol :: p' =>
      match s with
      | EmptyString => match_here p' bol s
      | String _ _ => false
      end
  | Lit c :: p' =>
      match s with
      | EmptyString => false
      | String d s' => Ascii.eqb c d && match_here p' false s'
      end
  | Repeat cls n :: p' =>
      match take_class cls n s with
      | Some s' => match_here p' (bol && Nat.eqb n 0) s'
      | None => false
      end
  end.

(** [RegExp.prototype.test]: the pattern may match at any position. *)
Fixpoint search (p : Pattern) (bol : bool) (s : string) : bool :=
  match_here p bol s
  || match s with
     | EmptyString => false
     | String _ s' => search p false s'
     end.

Definition test (p : Pattern) (s : string) : bool := search p true s.

End Regex.

(* ================================================================== *)
(** * The zod combinators the schemas are built from *)
(* ================================================================== *)

Module Zod.

Inductive IssueCode :=
| invalid_type
| invalid_string
| invalid_enum_value
| too_small
| too_big.

(** An issue: the path of the field, the code, and the custom message
    when the schema gives one. *)
Record Issue := {
  issue_path : list string;
  issue_code : IssueCode;
  issue_message : option string
}.

Definition issue (c : IssueCode) : Issue :=
  {| issue_path := []; issue_code := c; issue_message := None |}.

Definition issue_msg (c : IssueCode) (m : string) : Issue :=
  {| issue_path := []; issue_code := c; issue_message := Some m |}.

(** zod's three parse statuses: [Parsed v []] is valid, [Parsed v iss]
    with issues is dirty, [Aborted iss] has no value. *)
Inductive ParseResult (T : Type) :=
| Parsed (value : T) (issues : list Issue)
| Aborted (issues : list Issue).
Arguments Parsed {T}.
Arguments Aborted {T}.

Definition Schema (T : Type) : Type := JsValue -> ParseResult T.

Definition issues_of {T} (r : ParseResult T) : list Issue :=
  match r with
  | Parsed _ iss => iss
  | Aborted iss => iss
  end.

(** [safeParse(...).success] *)
Definition success {T} (r : ParseResult T) : bool :=
  match r with
  | Parsed _ [] => true
  | _ => false
  end.

(** A refinement added to a schema: it runs on a typed value and adds
    its issue, the value stays. *)
Definition check {T} (ok : T -> bool) (i : Issue) (s : Schema T) : Schema T :=
  fun v =>
    match s v with
    | Parsed x iss => Parsed x (if ok x then iss else iss ++ [i])
    | Aborted iss => Aborted iss
    end.

(** [z.string()] *)
Definition z_string : Schema string :=
  fun v =>
    match v with
    | JString s => Parsed s []
    | _ => Aborted [issue invalid_type]
    end.

(** [.regex(re, message)] *)
Definition regex (re : Regex.Pattern) (message : string)
    (s : Schema string) : Schema string :=
  check (Regex.test re) (issue_msg invalid_string message) s.

(** [z.number()]: [NaN] is not a number for zod. *)
Definition z_number : Schema JsNumber :=
  fun v =>
    match v with
    | JNumber NaN => Aborted [issue invalid_type]
    | JNumber n => Parsed n []
    | _ => Aborted [issue invalid_type]
    end.

(** [.gte(b)], [.lte(b)], [.max(b)] (the same check as [.lte]) and
    [.positive()]. *)
Definition gte (b : Z) : Schema JsNumber -> Schema JsNumber :=
  check (fun x => num_gte x b) (issue too_small).

Definition lte (b : Z) : Schema JsNumber -> Schema JsNumber :=
  check (fun x => num_lte x b) (issue too_big).

Definition max (b : Z) : Schema JsNumber -> Schema JsNumber := lte b.

Definition positive : Schema JsNumber -> Schema JsNumber :=
  check (fun x => num_gt x 0) (issue too_small).

(** [.default(d)]: [undefined] is replaced by [d] before parsing. *)
Definition default {T} (d : JsValue) (s : Schema T) : Schema T :=
  fun v =>
    match v with
    | JUndefined => s d
    | _ => s v
    end.

(** [.optional()]: [undefined] is accepted as it is. *)
Definition optional {T} (s : Schema T) : Schema (option T) :=
  fun v =>
    match v with
    | JUndefined => Parsed None []
    | _ =>
        match s v with
        | Parsed x iss => Parsed (Some x) iss
        | Aborted iss => Aborted iss
        end
    end.

(** [.describe(text)] only attaches documentation. *)
Definition describe {T} (text : string) (s : Schema T) : Schema T := s.

(** [z.nativeEnum(E)] over the values of the enum. *)
Definition nativeEnum (values : list string) : Schema string :=
  fun v =>
    match v with
    | JString s =>
        if existsb (String.eqb s) values then Parsed s []
        else Aborted [issue invalid_enum_value]
    | _ => Aborted [issue invalid_type]
    end.

(** Elements of an array, parsed in order; one aborted element aborts
    the array, all issues are kept. *)
Fixpoint parse_items {T} (s : Schema T) (items : list JsValue)
    : ParseResult (list T) :=
  match items with
  | [] => Parsed [] []
  | v :: rest =>
      match s v, parse_items s rest with
      | Parsed x iss, Parsed xs jss => Parsed (x :: xs) (iss ++ jss)
      | r, rs => Aborted (issues_of r ++ issues_of rs)
      end
  end.

(** [.array()] *)
Definition array {T} (s : Schema T) : Schema (list T) :=
  fun v =>
    match v with
    | JArray items => parse_items s items
    | _ => Aborted [issue invalid_type]
    end.

(** [.min(n)] and [.max(n)] on an array schema: bounds on the length of
    the input array; the elements are parsed all the same. *)
Definition array_check (ok : nat -> bool) (i : Issue) {T}
    (s : Schema (list T)) : Schema (list T) :=
  fun v =>
    match v with
    | JArray items =>
        if ok (List.length items) then s v
        else
          match s v with
          | Parsed xs iss => Parsed xs (i :: iss)
          | Aborted iss => Aborted (i :: iss)
          end
    | _ => s v
    end.

Definition array_min (n : Z) {T} : Schema (list T) -> Schema (list T) :=
  array_check (fun len => n <=? Z.of_nat len) (issue too_small).

Definition array_max (n : Z) {T} : Schema (list T) -> Schema (list T) :=
  array_check (fun len => Z.of_nat len <=? n) (issue too_big).

(** One property of a [z.object]: the schema runs on the property's
    value and its issues get the property name as path. *)
Definition at_path (key : string) (i : Issue) : Issue :=
  {| issue_path := key :: issue_path i;
     issue_code := issue_code i;
     issue_message := issue_message i |}.

Definition field {T} (key : string) (s : Schema T) (o : JsObject)
    : ParseResult T :=
  match s (js_get o key) with
  | Parsed x iss => Parsed x (map (at_path key) iss)
  | Aborted iss => Aborted (map (at_path key) iss)
  end.

(** Properties are parsed one after the other and their issues are
    collected; the object has a value when every property has one. *)
Definition ap {A B} (f : ParseResult (A -> B)) (x : ParseResult A)
    : ParseResult B :=
  match f, x with
  | Parsed g iss, Parsed a jss => Parsed (g a) (iss ++ jss)
  | _, _ => Aborted (issues_of f ++ issues_of x)
  end.

Definition pure {A} (a : A) : ParseResult A := Parsed a [].

End Zod.

Notation "f <*> x" := (Zod.ap f x) (at level 61, left associativity).

(* ================================================================== *)
(** * schemas.ts *)
(* ================================================================== *)

Module Schemas.
Import Zod.

(** [CASINO_GAME_TYPE]: the games this provider places bets on. *)
Inductive CASINO_GAME_TYPE := COINTOSS | DICE | ROULETTE.

(** What schemas.ts imports from the SDK: the enum values and the
    per-game bounds.  The SDK is not part of these sources, so the
    constants are parameters of the schemas. *)
Record SdkConstants := {
  COINTOSS_FACE : list string;
  MIN_SELECTABLE_DICE_NUMBER : Z;
  MAX_SELECTABLE_DICE_NUMBER : Z;
  MIN_SELECTABLE_ROULETTE_NUMBER : Z;
  MAX_SELECTABLE_ROULETTE_NUMBER : Z;
  maxGameBetCountByType : CASINO_GAME_TYPE -> Z
}.

Definition hex_class_address : Regex.CharClass :=
  [("a", "f"); ("A", "F"); ("0", "9")]%char.

Definition hex_class_hash : Regex.CharClass :=
  [("0", "9"); ("a", "f"); ("A", "F")]%char.

(** [/^0x[a-fA-F0-9]{40}$/] *)
Definition hexAddress_regex : Regex.Pattern :=
  [Regex.Bol; Regex.Lit "0"; Regex.Lit "x";
   Regex.Repeat hex_class_address 40; Regex.Eol]%char.

(** [/0x[0-9a-fA-F]{64}/] *)
Definition hash_regex : Regex.Pattern :=
  [Regex.Lit "0"; Regex.Lit "x"; Regex.Repeat hex_class_hash 64]%char.

Definition hexAddress : Schema string :=
  regex hexAddress_regex "The address must be a valid EVM address" z_string.

(** The value a game schema produces: the game's own selection ([face],
    [number] or [numbers]) and the properties of [casinoBetParams] and
    [getMaxBetCountParam]. *)
Record BetArgs (Sel : Type) := {
  selection : Sel;
  betAmount : string;
  token : option string;
  stopGain : option string;
  stopLoss : option string;
  receiver : option string;
  betCount : option JsNumber
}.
Arguments selection {Sel}.
Arguments betAmount {Sel}.
Arguments token {Sel}.
Arguments stopGain {Sel}.
Arguments stopLoss {Sel}.
Arguments receiver {Sel}.
Arguments betCount {Sel}.

Definition mkBetArgs {Sel} (sel : Sel) (amount : string)
    (tok gain loss recv : option string) (count : option JsNumber)
    : BetArgs Sel :=
  {| selection := sel; betAmount := amount; token := tok;
     stopGain := gain; stopLoss := loss; receiver := recv;
     betCount := count |}.

(** The five properties of [casinoBetParams]. *)
Definition betAmount_schema : Schema string :=
  describe "The bet amount" z_string.

Definition token_schema : Schema (option string) :=
  describe "The token to bet with"
    (optional (describe "Token symbol" z_string)).

Definition stopGain_schema : Schema (option string) :=
  describe "The profit amount to stop betting" (optional z_string).

Definition stopLoss_schema : Schema (option string) :=
  describe "The loss amount to stop betting" (optional z_string).

Definition receiver_schema : Schema (option string) :=
  describe "The payout receiver address" (optional hexAddress).

Section WithConstants.
Context (K : SdkConstants).

(** [getMaxBetCountParam(game).betCount] *)
Definition getMaxBetCountParam (game : CASINO_GAME_TYPE)
    : Schema (option JsNumber) :=
  describe "The number of bets to place"
    (optional
       (default (JNumber (Finite 1))
          (max (maxGameBetCountByType K game) (positive z_number)))).

(** A game schema: the selection property first, then the spread
    [casinoBetParams], then the spread bet count. *)
Definition game_object {Sel} (key : string) (sel : Schema Sel)
    (game : CASINO_GAME_TYPE) (o : JsObject) : ParseResult (BetArgs Sel) :=
  pure mkBetArgs
    <*> field key sel o
    <*> field "betAmount" betAmount_schema o
    <*> field "token" token_schema o
    <*> field "stopGain" stopGain_schema o
    <*> field "stopLoss" stopLoss_schema o
    <*> field "receiver" receiver_schema o
    <*> field "betCount" (getMaxBetCountParam game) o.

Definition face_schema : Schema string :=
  describe "The face of the coin" (nativeEnum (COINTOSS_FACE K)).

Definition number_schema : Schema JsNumber :=
  describe "The number to bet on"
    (lte (MAX_SELECTABLE_DICE_NUMBER K)
       (gte (MIN_SELECTABLE_DICE_NUMBER K) z_number)).

Definition numbers_schema : Schema (list JsNumber) :=
  describe "The numbers to bet on"
    (array_max (MAX_SELECTABLE_ROULETTE_NUMBER K)
       (array_min 1
          (array
             (lte (MAX_SELECTABLE_ROULETTE_NUMBER K)
                (gte (MIN_SELECTABLE_ROULETTE_NUMBER K) z_number))))).

Definition CoinTossSchema : JsObject -> ParseResult (BetArgs string) :=
  game_object "face" face_schema COINTOSS.

Definition DiceSchema : JsObject -> ParseResult (BetArgs JsNumber) :=
  game_object "number" number_schema DICE.

Definition RouletteSchema
    : JsObject -> ParseResult (BetArgs (list JsNumber)) :=
  game_object "numbers" numbers_schema ROULETTE.

End WithConstants.

(** [GetBetSchema] *)
Definition hash_schema : Schema string :=
  describe "The bet hash"
    (regex hash_regex "The hash mush be a valid EVM transaction hash"
       z_string).

Definition GetBetSchema (o : JsObject) : ParseResult string :=
  pure (fun h : string => h) <*> field "hash" hash_schema o.

End Schemas.

(* ================================================================== *)
(** * The collaborators: SDK, wallet provider, fee API, indexer, clock *)
(* ================================================================== *)

Module Sdk.
Import Schemas.

Definition Hex := string.

(** [CasinoChainId]: the number [Number(chainId)] yields. *)
Definition ChainId := Z.

Record Token := {
  symbol : string;
  address : Hex;
  decimals : Z
}.

Record NativeCurrency := {
  nc_name : string;
  nc_symbol : string;
  nc_decimals : Z
}.

(** [casinoChain.viemChain.nativeCurrency] is all the code reads. *)
Record CasinoChain := { viemChain_nativeCurrency : NativeCurrency }.

(** [RawCasinoToken]: the record read from the bank contract; the code
    reads [decimals], [token.allowed] and [token.paused]. *)
Record RawCasinoToken := {
  raw_symbol : string;
  raw_tokenAddress : Hex;
  raw_decimals : Z;
  raw_token_allowed : bool;
  raw_token_paused : bool
}.

Definition RawBetRequirements := (bool * Z * Z)%type.

Record BetRequirements := {
  isAllowed : bool;
  maxBetAmount : Z;
  maxBetCount : Z
}.

Definition GameEncodedInput := Z.

(** The first argument of [getPlaceBetFunctionData]. *)
Record PlaceBetParams := {
  pb_betAmount : Z;
  pb_game : CASINO_GAME_TYPE;
  pb_gameEncodedInput : GameEncodedInput;
  pb_receiver : Hex;
  pb_betCount : Z;
  pb_tokenAddress : Hex;
  pb_stopGain : Z;
  pb_stopLoss : Z
}.

Record PlaceBetFunctionData := {
  data_to : Hex;
  encodedData : Hex;
  extraData_getValue : Z -> Z
}.

Inductive FORMAT_TYPE := PRECISE.

Record SubgraphError := { code : string; message : string }.

(** [CasinoBet]: the fields of an indexed bet the code reads. *)
Record CasinoBet := {
  bet_id : Z;
  bet_decodedInput : string;
  bet_betTxnHash : Hex;
  bet_formattedBetAmount : string;
  bet_token_symbol : string;
  bet_isWin : option bool;
  bet_formattedPayoutMultiplier : option JsNumber;
  bet_decodedRolled : option (list string);
  bet_formattedPayout : option string;
  bet_rollTxnHash : option Hex;
  bet_game : string;
  bet_isResolved : bool
}.

(** What [fetchBetByHash] and [fetchBets] resolve to. *)
Record BetData := { bet : option CasinoBet; error : option SubgraphError }.
Record BetsData := { bets : list CasinoBet; bets_error : option SubgraphError }.

(** The pure functions and tables the code takes from the SDK, from viem
    ([parseUnits], which throws on a string that is no decimal number) and
    from the language ([Number] on the chain id; an id that reads as no
    number is one the tables do not know).  None of them is part of these
    sources: each is a parameter. *)
Record Library := {
  Number_of_chainId : string -> ChainId;
  CASINO_GAME_TYPE_toString : CASINO_GAME_TYPE -> string;
  casinoChainById : ChainId -> option CasinoChain;
  slugById : ChainId -> string;
  chainNativeCurrencyToToken : NativeCurrency -> Token;
  rawTokenToToken : RawCasinoToken -> ChainId -> Token;
  parseRawBetRequirements :
    RawBetRequirements -> Token -> Z -> CASINO_GAME_TYPE -> ChainId
    -> BetRequirements;
  getPlaceBetFunctionData : PlaceBetParams -> ChainId -> PlaceBetFunctionData;
  formatTxnUrl : Hex -> ChainId -> string;
  parseUnits : string -> Z -> Result Z;
  CoinToss_encodeInput : string -> GameEncodedInput;
  CoinToss_getMultiplier : string -> Z;
  Dice_encodeInput : JsNumber -> GameEncodedInput;
  Dice_getMultiplier : JsNumber -> Z;
  Roulette_encodeInput : list JsNumber -> GameEncodedInput;
  Roulette_getMultiplier : list JsNumber -> Z
}.

End Sdk.

Module Effects.
Import Schemas Sdk.

(** The contract reads the code performs, named by what they read. *)
Inductive ContractCall :=
| GamePausedCall (game : CASINO_GAME_TYPE) (chainId : ChainId)
| BetRequirementsCall (tokenAddress : Hex) (multiplier : Z) (chainId : ChainId)
| CasinoTokensCall (chainId : ChainId).

(** The query string of the fee request. *)
Record VrfQuery := {
  q_game : string;
  q_tokenAddress : Hex;
  q_betCount : string;
  q_chainId : string
}.

(** The response of the fee API: [ok], [statusText], and what
    [BigInt(await response.json())] evaluates to. *)
Record Response := {
  ok : bool;
  statusText : string;
  json_BigInt : Result Z
}.

Record Transaction := {
  tx_to : Hex;
  tx_data : Hex;
  tx_value : Z
}.

Record SubgraphOptions := {
  o_chainId : ChainId;
  o_theGraphKey : option string;
  o_formatType : option FORMAT_TYPE
}.

(** Everything that leaves the process, and the timer. *)
Inductive Event :=
| EvReadContract (call : ContractCall)
| EvFetchVrfFees (query : VrfQuery)
| EvSendTransaction (tx : Transaction)
| EvFetchBetByHash (txHash : Hex) (options : SubgraphOptions)
| EvFetchBets (options : SubgraphOptions) (bettor : option Hex)
    (game : option CASINO_GAME_TYPE) (itemsPerPage : Z)
| EvSetTimeout (ms : Z).

(** The world an action runs in.  Each contract read is typed by its
    call site (the source casts the result there) and may throw, as the
    fee request and the submission may.  The SDK's two indexer queries
    are awaited too: each resolves to a record with the data and an
    [error] property, or rejects.  The indexer answers the n-th lookup of
    a run with [indexer_fetchBetByHash n]; that lookup lasts
    [fetch_latency n] milliseconds and the n-th timer fires
    [timer_overrun n] milliseconds late.  Only lookups and timers move
    the clock: [getBet] alone reads it, and only for differences. *)
Record World := {
  network_chainId : option string;
  wallet_address : Hex;
  read_gamePaused : CASINO_GAME_TYPE -> ChainId -> Result bool;
  read_betRequirements : Hex -> Z -> ChainId -> Result RawBetRequirements;
  read_casinoTokens : ChainId -> Result (list RawCasinoToken);
  wallet_sendTransaction : Transaction -> Result Hex;
  api_vrfFees : VrfQuery -> Result Response;
  indexer_fetchBetByHash : nat -> Hex -> SubgraphOptions -> Result BetData;
  indexer_fetchBets :
    SubgraphOptions -> option Hex -> option CASINO_GAME_TYPE -> Z
    -> Result BetsData;
  fetch_latency : nat -> N;
  timer_overrun : nat -> N
}.

(** The state of a run: the events so far in order, the clock in
    milliseconds, and how many lookups and timers there have been. *)
Record State := {
  trace : list Event;
  clock : Z;
  lookups : nat;
  timers : nat
}.

Inductive Outcome (A : Type) :=
| Returns (a : A)
| Throws (e : JsError)
| Exhausted.
Arguments Returns {A}.
Arguments Throws {A}.
Arguments Exhausted {A}.

Definition M (A : Type) : Type := State -> Outcome A * State.

Definition ret {A} (a : A) : M A := fun s => (Returns a, s).

Definition throw {A} (e : JsError) : M A := fun s => (Throws e, s).

Definition exhausted {A} : M A := fun s => (Exhausted, s).

Definition bind {A B} (m : M A) (k : A -> M B) : M B :=
  fun s =>
    match m s with
    | (Returns a, s') => k a s'
    | (Throws e, s') => (Throws e, s')
    | (Exhausted, s') => (Exhausted, s')
    end.

(** [try { m } catch (error) { handler(error) }] *)
Definition try_catch {A} (m : M A) (handler : JsError -> M A) : M A :=
  fun s =>
    match m s with
    | (Throws e, s') => handler e s'
    | r => r
    end.

Definition emit (ev : Event) : M unit :=
  fun s =>
    (Returns tt,
     {| trace := trace s ++ [ev]; clock := clock s;
        lookups := lookups s; timers := timers s |}).

Definition lift {A} (r : Result A) : M A :=
  match r with
  | inl e => throw e
  | inr a => ret a
  end.

(** [Date.now()] *)
Definition Date_now : M Z := fun s => (Returns (clock s), s).

End Effects.

Notation "x <- m ;; k" := (Effects.bind m (fun x => k))
  (at level 100, m at next level, right associativity).
Notation "m ;; k" := (Effects.bind m (fun _ => k))
  (at level 100, right associativity).

(* ================================================================== *)
(** * utils/betswirl.ts *)
(* ================================================================== *)

Module Betswirl.
Import Schemas Sdk Effects.

(** The last argument of [placeBet]; the bet count is an integral
    [number]. *)
Record CasinoGameParams := {
  betAmount : Z;
  betToken : Token;
  betCount : Z;
  receiver : Hex;
  stopGain : Z;
  stopLoss : Z
}.

Record BetDetails := {
  id : string;
  input : string;
  betTxnHash : string;
  betTxnLink : string;
  bd_betAmount : string;
  bd_token : string;
  isWin : option bool;
  payoutMultiplier : option JsNumber;
  rolled : option (list string);
  payout : option string;
  rollTxnHash : option string;
  rollTxnLink : option string;
  linkOnBetSwirl : string
}.

(** [const timeout = 60000] *)
Definition timeout : Z := 60000.

(** The longest the polling loop can run: every turn that passes the
    deadline test waits at least one second. *)
Definition poll_budget : nat := S (Z.to_nat (timeout / 1000)).

Section WithWorld.
Context (L : Library) (W : World).

(** [walletProvider.readContract] at its three call sites. *)
Definition readContract_gamePaused (game : CASINO_GAME_TYPE)
    (chainId : ChainId) : M bool :=
  emit (EvReadContract (GamePausedCall game chainId)) ;;
  lift (read_gamePaused W game chainId).

Definition readContract_betRequirements (tokenAddress : Hex)
    (multiplier : Z) (chainId : ChainId) : M RawBetRequirements :=
  emit (EvReadContract (BetRequirementsCall tokenAddress multiplier chainId)) ;;
  lift (read_betRequirements W tokenAddress multiplier chainId).

Definition readContract_casinoTokens (chainId : ChainId)
    : M (list RawCasinoToken) :=
  emit (EvReadContract (CasinoTokensCall chainId)) ;;
  lift (read_casinoTokens W chainId).

(** [walletProvider.sendTransaction] *)
Definition sendTransaction (tx : Transaction) : M Hex :=
  emit (EvSendTransaction tx) ;;
  lift (wallet_sendTransaction W tx).

(** [fetch(`https://api.betswirl.com/api/vrfFees?${params}`, {})] *)
Definition fetch_vrfFees (query : VrfQuery) : M Response :=
  emit (EvFetchVrfFees query) ;;
  lift (api_vrfFees W query).

(** [fetchBetByHash] of the SDK: the lookup is recorded, it takes its
    latency, and the indexer's answer to this lookup comes back: a record,
    or a rejection, which the [await] throws. *)
Definition fetchBetByHash (txHash : Hex) (options : SubgraphOptions)
    : M BetData :=
  fun s =>
    (match indexer_fetchBetByHash W (lookups s) txHash options with
     | inl e => Throws e
     | inr betData => Returns betData
     end,
     {| trace := trace s ++ [EvFetchBetByHash txHash options];
        clock := clock s + Z.of_N (fetch_latency W (lookups s));
        lookups := S (lookups s);
        timers := timers s |}).

(** [fetchBets] of the SDK. *)
Definition fetchBets (options : SubgraphOptions) (bettor : option Hex)
    (game : option CASINO_GAME_TYPE) (itemsPerPage : Z) : M BetsData :=
  emit (EvFetchBets options bettor game itemsPerPage) ;;
  lift (indexer_fetchBets W options bettor game itemsPerPage).

(** [await new Promise(resolve => setTimeout(resolve, ms))] *)
Definition sleep (ms : Z) : M unit :=
  fun s =>
    (Returns tt,
     {| trace := trace s ++ [EvSetTimeout ms];
        clock := clock s + ms + Z.of_N (timer_overrun W (timers s));
        lookups := lookups s;
        timers := S (timers s) |}).

Definition getChainId : M ChainId :=
  match network_chainId W with
  | None => throw (Error "No chain ID")
  | Some chainId =>
      if String.eqb chainId "" then throw (Error "No chain ID")
      else ret (Number_of_chainId L chainId)
  end.

Definition checkLiveGame (game : CASINO_GAME_TYPE) : M bool :=
  chainId <- getChainId ;;
  paused <- readContract_gamePaused game chainId ;;
  ret paused.

Definition getCasinoTokens : M (list Token) :=
  chainId <- getChainId ;;
  rawCasinoTokens <- readContract_casinoTokens chainId ;;
  ret (map
         (fun rawToken =>
            let t := rawTokenToToken L rawToken chainId in
            {| symbol := symbol t; address := address t;
               decimals := raw_decimals rawToken |})
         (filter
            (fun rawToken =>
               raw_token_allowed rawToken && negb (raw_token_paused rawToken))
            rawCasinoTokens)).

Definition getBetToken (tokenSymbolInput : option string) : M Token :=
  chainId <- getChainId ;;
  match casinoChainById L chainId with
  | None =>
      throw (TypeError
               "Cannot read properties of undefined (reading 'viemChain')")
  | Some casinoChain =>
      let native := viemChain_nativeCurrency casinoChain in
      match tokenSymbolInput with
      | Some input =>
          if truthy tokenSymbolInput
             && negb (String.eqb input (nc_symbol native))
          then
            casinoTokens <- getCasinoTokens ;;
            match
              find (fun casinoToken => String.eqb (symbol casinoToken) input)
                casinoTokens
            with
            | Some selectedToken => ret selectedToken
            | None =>
                throw (Error
                         ("The token must be one of "
                          ++ String.concat ", " (map symbol casinoTokens))%string)
            end
          else ret (chainNativeCurrencyToToken L native)
      | None => ret (chainNativeCurrencyToToken L native)
      end
  end.

Definition getBetAmountInWei (betAmount : string) (token : Token) : M Z :=
  betAmountInWei <- lift (parseUnits L betAmount (decimals token)) ;;
  if betAmountInWei <=? 0
  then throw (Error "The bet amount must be greater than 0")
  else ret betAmountInWei.

Definition getBetRequirements (game : CASINO_GAME_TYPE) (betToken : Token)
    (multiplier : Z) : M BetRequirements :=
  chainId <- getChainId ;;
  try_catch
    (rawBetRequirements <-
       readContract_betRequirements (address betToken) multiplier chainId ;;
     ret (parseRawBetRequirements L rawBetRequirements betToken multiplier
            game chainId))
    (fun error =>
       throw (Error
                ("An error occured while getting the bet requirements: "
                 ++ error_toString error)%string)).

Definition getChainlinkVrfCost (game : CASINO_GAME_TYPE) (betToken : Hex)
    (betCount : Z) : M Z :=
  chainId <- getChainId ;;
  try_catch
    (response <-
       fetch_vrfFees
         {| q_game := CASINO_GAME_TYPE_toString L game;
            q_tokenAddress := betToken;
            q_betCount := bigint_toString betCount;
            q_chainId := bigint_toString chainId |} ;;
     if negb (ok response)
     then
       throw (Error
                ("An error occured while fetching the chainlink vrf cost from API: "
                 ++ statusText response)%string)
     else lift (json_BigInt response))
    (fun error =>
       throw (Error
                ("An error occured while getting the chainlink vrf cost: "
                 ++ error_toString error)%string)).

Definition placeBet (game : CASINO_GAME_TYPE)
    (gameEncodedInput : GameEncodedInput) (gameMultiplier : Z)
    (casinoGameParams : CasinoGameParams) : M Hex :=
  chainId <- getChainId ;;
  betRequirements <-
    getBetRequirements game (betToken casinoGameParams) gameMultiplier ;;
  if negb (isAllowed betRequirements)
  then throw (Error "The token isn't allowed for betting")
  else if betAmount casinoGameParams >? maxBetAmount betRequirements
  then
    throw (Error
             ("Bet amount should be less than "
              ++ bigint_toString (maxBetAmount betRequirements))%string)
  else if betCount casinoGameParams >? maxBetCount betRequirements
  then
    throw (Error
             ("Bet count should be less than "
              ++ bigint_toString (maxBetCount betRequirements))%string)
  else
    let functionData :=
      getPlaceBetFunctionData L
        {| pb_betAmount := betAmount casinoGameParams;
           pb_game := game;
           pb_gameEncodedInput := gameEncodedInput;
           pb_receiver := receiver casinoGameParams;
           pb_betCount := betCount casinoGameParams;
           pb_tokenAddress := address (betToken casinoGameParams);
           pb_stopGain := stopGain casinoGameParams;
           pb_stopLoss := stopLoss casinoGameParams |}
        chainId in
    try_catch
      (fee <-
         getChainlinkVrfCost game (address (betToken casinoGameParams))
           (betCount casinoGameParams) ;;
       let vrfCost := bigint_div (fee * 120) 100 in
       betHash <-
         sendTransaction
           {| tx_to := data_to functionData;
              tx_data := encodedData functionData;
              tx_value := extraData_getValue functionData vrfCost |} ;;
       ret betHash)
      (fun error =>
         throw (Error
                  ("An error occured while placing the bet: "
                   ++ error_toString error)%string)).

(** The record both [getBet] and [getSubgraphBets] build from a bet. *)
Definition toBetDetails (chainId : ChainId) (b : CasinoBet) : BetDetails :=
  {| id := bigint_toString (bet_id b);
     input := bet_decodedInput b;
     betTxnHash := bet_betTxnHash b;
     betTxnLink := formatTxnUrl L (bet_betTxnHash b) chainId;
     bd_betAmount := bet_formattedBetAmount b;
     bd_token := bet_token_symbol b;
     isWin := bet_isWin b;
     payoutMultiplier := bet_formattedPayoutMultiplier b;
     rolled := bet_decodedRolled b;
     payout := bet_formattedPayout b;
     rollTxnHash := bet_rollTxnHash b;
     rollTxnLink :=
       match bet_rollTxnHash b with
       | Some h =>
           if truthy (Some h) then Some (formatTxnUrl L h chainId) else None
       | None => None
       end;
     linkOnBetSwirl :=
       ("https://www.betswirl.com/" ++ slugById L chainId ++ "/casino/"
        ++ bet_game b ++ "/" ++ bigint_toString (bet_id b))%string |}.

(** [(!betData.bet || !betData.bet.isResolved) && !betData.error] *)
Definition pending (betData : BetData) : bool :=
  match bet betData with
  | None => true
  | Some b => negb (bet_isResolved b)
  end
  && match error betData with
     | None => true
     | Some _ => false
     end.

Definition has_error (betData : BetData) : bool :=
  match error betData with
  | None => false
  | Some _ => true
  end.

(** The [while] loop of [getBet]; [fuel] bounds the number of turns. *)
Fixpoint poll (fuel : nat) (txHash : Hex) (chainId : ChainId)
    (theGraphKey : option string) (startTime : Z) (betData : BetData)
    : M BetData :=
  if pending betData then
    match fuel with
    | O => exhausted
    | S fuel' =>
        t <- Date_now ;;
        if timeout <=? t - startTime
        then throw (Error "Timeout: Bet data retrieval exceeded 1 minute.")
        else
          sleep 1000 ;;
          betData' <-
            fetchBetByHash txHash
              {| o_chainId := chainId; o_theGraphKey := theGraphKey;
                 o_formatType := None |} ;;
          if has_error betData' then ret betData'
          else poll fuel' txHash chainId theGraphKey startTime betData'
    end
  else ret betData.

Definition getBet_with (fuel : nat) (txHash : Hex)
    (theGraphKey : option string) : M BetDetails :=
  chainId <- getChainId ;;
  try_catch
    (betData0 <-
       fetchBetByHash txHash
         {| o_chainId := chainId; o_theGraphKey := theGraphKey;
            o_formatType := Some PRECISE |} ;;
     startTime <- Date_now ;;
     betData <- poll fuel txHash chainId theGraphKey startTime betData0 ;;
     match error betData with
     | Some e =>
         throw (Error
                  ("[" ++ code e ++ "] Error fetching bet: " ++ message e)%string)
     | None =>
         match bet betData with
         | None =>
             throw (Error
                      ("The bet hasn't been indexed in time, please retry later: "
                       ++ txHash)%string)
         | Some b => ret (toBetDetails chainId b)
         end
     end)
    (fun error =>
       throw (Error
                ("An error occured while getting the bet: "
                 ++ error_toString error)%string)).

Definition getBet : Hex -> option string -> M BetDetails :=
  getBet_with poll_budget.

Definition getSubgraphBets (bettor : option Hex)
    (game : option CASINO_GAME_TYPE) (theGraphKey : option string)
    : M (list BetDetails) :=
  chainId <- getChainId ;;
  try_catch
    (result <-
       fetchBets
         {| o_chainId := chainId; o_theGraphKey := theGraphKey;
            o_formatType := Some PRECISE |}
         bettor game 5 ;;
     match bets_error result with
     | Some e =>
         throw (Error
                  ("[" ++ code e ++ "] Error fetching bets: " ++ message e)%string)
     | None => ret (map (toBetDetails chainId) (bets result))
     end)
    (fun error =>
       throw (Error
                ("An error occured while getting the bet: "
                 ++ error_toString error)%string)).

End WithWorld.
End Betswirl.

(* ================================================================== *)
(** * betSwirlActionProvider.ts *)
(* ================================================================== *)

Module Provider.
Import Schemas Sdk Effects.

Section WithWorld.
Context (L : Library) (W : World).

(** [this.theGraphKey] *)
Context (theGraphKey : option string).

Definition coinToss (args : BetArgs string) : M Betswirl.BetDetails :=
  Betswirl.checkLiveGame L W COINTOSS ;;
  let face := selection args in
  selectedToken <- Betswirl.getBetToken L W (token args) ;;
  betAmountInWei <-
    Betswirl.getBetAmountInWei L (betAmount args) selectedToken ;;
  hash <-
    Betswirl.placeBet L W COINTOSS
      (CoinToss_encodeInput L face) (CoinToss_getMultiplier L face)
      {| Betswirl.betAmount := betAmountInWei;
         Betswirl.betToken := selectedToken;
         Betswirl.betCount := 1;
         Betswirl.receiver := wallet_address W;
         Betswirl.stopGain := 0;
         Betswirl.stopLoss := 0 |} ;;
  Betswirl.getBet L W hash theGraphKey.

Definition dice (args : BetArgs JsNumber) : M Betswirl.BetDetails :=
  Betswirl.checkLiveGame L W DICE ;;
  let number := selection args in
  selectedToken <- Betswirl.getBetToken L W (token args) ;;
  betAmountInWei <-
    Betswirl.getBetAmountInWei L (betAmount args) selectedToken ;;
  hash <-
    Betswirl.placeBet L W DICE
      (Dice_encodeInput L number) (Dice_getMultiplier L number)
      {| Betswirl.betAmount := betAmountInWei;
         Betswirl.betToken := selectedToken;
         Betswirl.betCount := 1;
         Betswirl.receiver := wallet_address W;
         Betswirl.stopGain := 0;
         Betswirl.stopLoss := 0 |} ;;
  Betswirl.getBet L W hash theGraphKey.

Definition roulette (args : BetArgs (list JsNumber))
    : M Betswirl.BetDetails :=
  Betswirl.checkLiveGame L W ROULETTE ;;
  let numbers := selection args in
  selectedToken <- Betswirl.getBetToken L W (token args) ;;
  betAmountInWei <-
    Betswirl.getBetAmountInWei L (betAmount args) selectedToken ;;
  hash <-
    Betswirl.placeBet L W ROULETTE
      (Roulette_encodeInput L numbers) (Roulette_getMultiplier L numbers)
      {| Betswirl.betAmount := betAmountInWei;
         Betswirl.betToken := selectedToken;
         Betswirl.betCount := 1;
         Betswirl.receiver := wallet_address W;
         Betswirl.stopGain := 0;
         Betswirl.stopLoss := 0 |} ;;
  Betswirl.getBet L W hash theGraphKey.

(** The [getBet] action: [args.hash] goes to the helper. *)
Definition getBet (hash : string) : M Betswirl.BetDetails :=
  Betswirl.getBet L W hash theGraphKey.

(** The [getBets] action. *)
Definition getBets (bettor : option string) (game : option CASINO_GAME_TYPE)
    : M (list Betswirl.BetDetails) :=
  Betswirl.getSubgraphBets L W bettor game theGraphKey.

(** The three game actions share one shape; [placeGameBet] is that
    shape, used to reason about the three at once. *)
Definition placeGameBet {Sel} (game : CASINO_GAME_TYPE)
    (encodeInput : Sel -> GameEncodedInput) (getMultiplier : Sel -> Z)
    (args : BetArgs Sel) : M Betswirl.BetDetails :=
  Betswirl.checkLiveGame L W game ;;
  selectedToken <- Betswirl.getBetToken L W (token args) ;;
  betAmountInWei <-
    Betswirl.getBetAmountInWei L (betAmount args) selectedToken ;;
  hash <-
    Betswirl.placeBet L W game
      (encodeInput (selection args)) (getMultiplier (selection args))
      {| Betswirl.betAmount := betAmountInWei;
         Betswirl.betToken := selectedToken;
         Betswirl.betCount := 1;
         Betswirl.receiver := wallet_address W;
         Betswirl.stopGain := 0;
         Betswirl.stopLoss := 0 |} ;;
  Betswirl.getBet L W hash theGraphKey.

End WithWorld.
End Provider.

(** The state an action starts in: nothing has happened yet. *)
Definition initial (t0 : Z) : Effects.State :=
  {| Effects.trace := []; Effects.clock := t0;
     Effects.lookups := 0; Effects.timers := 0 |}.

(* ================================================================== *)
(** * The vocabulary of the statements *)
(* ================================================================== *)

(** [log s evs]: the state [s] with the events [evs] added. *)
Definition log (s : Effects.State) (evs : list Effects.Event) : Effects.State :=
  {| Effects.trace := Effects.trace s ++ evs;
     Effects.clock := Effects.clock s;
     Effects.lookups := Effects.lookups s;
     Effects.timers := Effects.timers s |}.

(** Whatever the state it starts in, a computation adds only events
    that satisfy [P]. *)
Definition emits_only {A} (P : Effects.Event -> Prop) (m : Effects.M A) : Prop :=
  forall s out s', m s = (out, s') ->
    exists evs, Effects.trace s' = Effects.trace s ++ evs /\ Forall P evs.

(** The wallet provider reports a chain id, and it reads as [chainId]. *)
Definition chain_is (L : Sdk.Library) (W : Effects.World) (chainId : Sdk.ChainId)
    : Prop :=
  exists c, Effects.network_chainId W = Some c
            /\ String.eqb c "" = false
            /\ Sdk.Number_of_chainId L c = chainId.

Module Placement.
Import Schemas Sdk Effects Betswirl.

Section WithLibrary.
Context (L : Library).

Definition requirements_read (params : CasinoGameParams) (multiplier : Z)
    (chainId : ChainId) : Event :=
  EvReadContract
    (BetRequirementsCall (address (betToken params)) multiplier chainId).

(** The function data [placeBet] asks the SDK for. *)
Definition placeBet_functionData (game : CASINO_GAME_TYPE)
    (input : GameEncodedInput) (params : CasinoGameParams)
    (chainId : ChainId) : PlaceBetFunctionData :=
  getPlaceBetFunctionData L
    {| pb_betAmount := betAmount params;
       pb_game := game;
       pb_gameEncodedInput := input;
       pb_receiver := receiver params;
       pb_betCount := betCount params;
       pb_tokenAddress := address (betToken params);
       pb_stopGain := stopGain params;
       pb_stopLoss := stopLoss params |} chainId.

Definition vrf_query (game : CASINO_GAME_TYPE) (params : CasinoGameParams)
    (chainId : ChainId) : VrfQuery :=
  {| q_game := CASINO_GAME_TYPE_toString L game;
     q_tokenAddress := address (betToken params);
     q_betCount := bigint_toString (betCount params);
     q_chainId := bigint_toString chainId |}.

(** The transaction [placeBet] submits for a given VRF cost. *)
Definition placeBet_transaction (game : CASINO_GAME_TYPE)
    (input : GameEncodedInput) (params : CasinoGameParams)
    (chainId : ChainId) (vrfCost : Z) : Transaction :=
  let fd := placeBet_functionData game input params chainId in
  {| tx_to := data_to fd; tx_data := encodedData fd;
     tx_value := extraData_getValue fd vrfCost |}.

Definition requirements_met (req : BetRequirements)
    (params : CasinoGameParams) : Prop :=
  isAllowed req = true
  /\ betAmount params <= maxBetAmount req
  /\ betCount params <= maxBetCount req.

(** The filter and the map of [getCasinoTokens], on the list read. *)
Definition listed (rawToken : RawCasinoToken) : bool :=
  raw_token_allowed rawToken && negb (raw_token_paused rawToken).

Definition token_of_raw (chainId : ChainId) (rawToken : RawCasinoToken)
    : Token :=
  {| symbol := symbol (rawTokenToToken L rawToken chainId);
     address := address (rawTokenToToken L rawToken chainId);
     decimals := raw_decimals rawToken |}.

Definition casinoTokens_of (chainId : ChainId) (raws : list RawCasinoToken)
    : list Token :=
  map (token_of_raw chainId) (filter listed raws).

Definition tokens_read (chainId : ChainId) : Event :=
  EvReadContract (CasinoTokensCall chainId).

Definition unknown_token_error (tokens : list Token) : JsError :=
  Error ("The token must be one of "
         ++ String.concat ", " (map symbol tokens))%string.

(** A submitted transaction that encodes a single bet paid out to the
    wallet itself, with no stop-gain and no stop-loss. *)
Definition single_bet_to_self (W : World) (tx : Transaction) : Prop :=
  exists p chainId vrfCost,
    let fd := getPlaceBetFunctionData L p chainId in
    tx = {| tx_to := data_to fd; tx_data := encodedData fd;
            tx_value := extraData_getValue fd vrfCost |}
    /\ pb_betCount p = 1
    /\ pb_receiver p = wallet_address W
    /\ pb_stopGain p = 0
    /\ pb_stopLoss p = 0.

Definition sends_single_bets (W : World) (ev : Event) : Prop :=
  match ev with
  | EvSendTransaction tx => single_bet_to_self W tx
  | _ => True
  end.

End WithLibrary.

(** The reads an action makes before it converts the amount. *)
Definition resolution_read (game : CASINO_GAME_TYPE) (ev : Event) : Prop :=
  exists chainId,
    ev = EvReadContract (GamePausedCall game chainId)
    \/ ev = EvReadContract (CasinoTokensCall chainId).

Definition amount_failure : JsError :=
  Error "The bet amount must be greater than 0".

(** The three game actions of the provider. *)
Inductive game_action (L : Library) (W : World) (theGraphKey : option string)
  : forall Sel : Type,
      CASINO_GAME_TYPE -> (BetArgs Sel -> M BetDetails) -> Prop :=
| action_coinToss :
    game_action L W theGraphKey string COINTOSS
      (Provider.coinToss L W theGraphKey)
| action_dice :
    game_action L W theGraphKey JsNumber DICE (Provider.dice L W theGraphKey)
| action_roulette :
    game_action L W theGraphKey (list JsNumber) ROULETTE
      (Provider.roulette L W theGraphKey).

(** The same three actions, each with the encoding and the multiplier the
    SDK gives for its selection. *)
Inductive game_entry (L : Library) (W : World) (theGraphKey : option string)
  : forall Sel : Type,
      CASINO_GAME_TYPE -> (Sel -> GameEncodedInput) -> (Sel -> Z)
      -> (BetArgs Sel -> M BetDetails) -> Prop :=
| entry_coinToss :
    game_entry L W theGraphKey string COINTOSS
      (CoinToss_encodeInput L) (CoinToss_getMultiplier L)
      (Provider.coinToss L W theGraphKey)
| entry_dice :
    game_entry L W theGraphKey JsNumber DICE
      (Dice_encodeInput L) (Dice_getMultiplier L)
      (Provider.dice L W theGraphKey)
| entry_roulette :
    game_entry L W theGraphKey (list JsNumber) ROULETTE
      (Roulette_encodeInput L) (Roulette_getMultiplier L)
      (Provider.roulette L W theGraphKey).

End Placement.

(** The timeline of one call of [getBet]. *)
Module Polling.
Import Schemas Sdk Effects Betswirl.

Section Schedule.
Context (W : World) (txHash : Hex) (chainId : ChainId)
        (theGraphKey : option string).

Definition first_options : SubgraphOptions :=
  {| o_chainId := chainId; o_theGraphKey := theGraphKey;
     o_formatType := Some PRECISE |}.

Definition later_options : SubgraphOptions :=
  {| o_chainId := chainId; o_theGraphKey := theGraphKey;
     o_formatType := None |}.

(** The state once the first lookup has answered. *)
Definition first_lookup (s : State) : State :=
  {| trace := trace s ++ [EvFetchBetByHash txHash first_options];
     clock := clock s + Z.of_N (fetch_latency W (lookups s));
     lookups := S (lookups s);
     timers := timers s |}.

(** One turn of the loop: the one-second timer, then a lookup. *)
Definition turn (s : State) : State :=
  {| trace :=
       trace s ++ [EvSetTimeout 1000; EvFetchBetByHash txHash later_options];
     clock := clock s + 1000 + Z.of_N (timer_overrun W (timers s))
              + Z.of_N (fetch_latency W (lookups s));
     lookups := S (lookups s);
     timers := S (timers s) |}.

Fixpoint after_turns (k : nat) (s0 : State) : State :=
  match k with
  | O => s0
  | S k' => turn (after_turns k' s0)
  end.

(** For a call that starts in [s]: the state in which the k-th report
    is in hand, the report itself, and the time since the first report
    came in (when [startTime] is taken). *)
Definition state_at (s : State) (k : nat) : State :=
  after_turns k (first_lookup s).

Definition report (s : State) (k : nat) : Result BetData :=
  match k with
  | O => indexer_fetchBetByHash W (lookups s) txHash first_options
  | S j =>
      indexer_fetchBetByHash W (lookups (state_at s j)) txHash later_options
  end.

Definition elapsed (s : State) (k : nat) : Z :=
  clock (state_at s k) - clock (first_lookup s).

(** The loop gets as far as the k-th report: every earlier lookup came
    back with a record that left the bet pending, and every earlier
    deadline test passed. *)
Definition polled (s : State) (k : nat) : Prop :=
  forall j, (j < k)%nat ->
    (exists betData, report s j = inr betData /\ pending betData = true)
    /\ elapsed s j < timeout.

(** The loop from an awaited lookup on: a rejection is thrown, a record
    enters the loop. *)
Definition resume (fuel : nat) (startTime : Z) (r : Result BetData)
    (st : State) : Outcome BetData * State :=
  match r with
  | inl e => (Throws e, st)
  | inr betData => poll W fuel txHash chainId theGraphKey startTime betData st
  end.

End Schedule.

Definition getBet_failure (e : JsError) : JsError :=
  Error ("An error occured while getting the bet: " ++ error_toString e)%string.

Definition indexer_failure (e : SubgraphError) : JsError :=
  Error ("[" ++ code e ++ "] Error fetching bet: " ++ message e)%string.

Definition timeout_failure : JsError :=
  Error "Timeout: Bet data retrieval exceeded 1 minute.".

(** What [getBet] makes of the way its loop ended. *)
Definition conclude (L : Library) (txHash : Hex) (chainId : ChainId)
    (r : Outcome BetData * State) : Outcome BetDetails * State :=
  match r with
  | (Returns bd, st) =>
      (match error bd with
       | Some e => Throws (getBet_failure (indexer_failure e))
       | None =>
           match bet bd with
           | None =>
               Throws
                 (getBet_failure
                    (Error
                       ("The bet hasn't been indexed in time, please retry later: "
                        ++ txHash)%string))
           | Some b => Returns (toBetDetails L chainId b)
           end
       end, st)
  | (Throws e, st) => (Throws (getBet_failure e), st)
  | (Exhausted, st) => (Exhausted, st)
  end.

End Polling.

(** What the validators are measured against. *)
Module Accepts.

Definition is_hex_digit (c : ascii) : bool :=
  existsb (Ascii.eqb c) (list_ascii_of_string "0123456789abcdefABCDEF").

Definition hex_digits (n : nat) (d : string) : Prop :=
  String.length d = n
  /\ forallb is_hex_digit (list_ascii_of_string d) = true.

(** [0x] followed by exactly [n] hexadecimal digits. *)
Definition is_0x_hex (n : nat) (s : string) : Prop :=
  exists d, s = ("0x" ++ d)%string /\ hex_digits n d.

(** A string that holds [0x] and [n] hexadecimal digits somewhere. *)
Definition holds_0x_hex (n : nat) (s : string) : Prop :=
  exists pre d post, s = (pre ++ "0x" ++ d ++ post)%string /\ hex_digits n d.

(** A finite number between two integer bounds. *)
Definition number_within (lo hi : Z) (v : JsValue) : Prop :=
  exists q, v = JNumber (Finite q)
            /\ (inject_Z lo <= q)%Q /\ (q <= inject_Z hi)%Q.

Definition positive_at_most (hi : Z) (v : JsValue) : Prop :=
  exists q, v = JNumber (Finite q) /\ (0 < q)%Q /\ (q <= inject_Z hi)%Q.

(** The properties a game object has besides its selection. *)
Definition shared_properties_valid (K : Schemas.SdkConstants)
    (game : Schemas.CASINO_GAME_TYPE) (o : JsObject) : bool :=
  Zod.success (Schemas.betAmount_schema (js_get o "betAmount"))
  && Zod.success (Schemas.token_schema (js_get o "token"))
  && Zod.success (Schemas.stopGain_schema (js_get o "stopGain"))
  && Zod.success (Schemas.stopLoss_schema (js_get o "stopLoss"))
  && Zod.success (Schemas.receiver_schema (js_get o "receiver"))
  && Zod.success (Schemas.getMaxBetCountParam K game (js_get o "betCount")).

End Accepts.

(** Sentences of the specification read word for word, kept apart from
    what the code is shown to do. *)
Module AsWritten.
Import Schemas Sdk Effects Betswirl Placement Polling.

(** "If neither happens within 60 seconds of the first fetch, the call
    fails with a timeout error": no report that comes in within the 60
    seconds settles the bet, hence the timeout error.  ([report] and
    [elapsed] follow the loop's timetable turn after turn, as long as it
    would go on.) *)
Definition poller_times_out (L : Library) (W : World) (txHash : Hex)
    (theGraphKey : option string) (chainId : ChainId) (s : State) : Prop :=
  (forall k, elapsed W txHash chainId theGraphKey s k <= timeout ->
             exists betData,
               report W txHash chainId theGraphKey s k = inr betData
               /\ pending betData = true) ->
  exists s',
    getBet L W txHash theGraphKey s
    = (Throws (getBet_failure timeout_failure), s').

(** "Amount conversion fails before any network call occurs." *)
Definition amount_fails_before_any_call (L : Library) (W : World)
    {Sel} (game : CASINO_GAME_TYPE) (act : BetArgs Sel -> M BetDetails)
    (args : BetArgs Sel) (s : State) : Prop :=
  forall paused s1 tok s2 v,
    checkLiveGame L W game s = (Returns paused, s1) ->
    getBetToken L W (token args) s1 = (Returns tok, s2) ->
    parseUnits L (Schemas.betAmount args) (decimals tok) = inr v ->
    v <= 0 ->
    exists s',
      act args s = (Throws amount_failure, s') /\ trace s' = trace s.

(** "If the supplied symbol equals the native symbol (or no symbol is
    supplied) ... without fetching the list; otherwise it fetches the
    list." *)
Definition token_resolution (L : Library) (W : World)
    (tokenSymbolInput : option string) (s : State) : Prop :=
  forall chainId chain,
    chain_is L W chainId -> casinoChainById L chainId = Some chain ->
    let native := viemChain_nativeCurrency chain in
    (tokenSymbolInput = None \/ tokenSymbolInput = Some (nc_symbol native) ->
     getBetToken L W tokenSymbolInput s
     = (Returns (chainNativeCurrencyToToken L native), s))
    /\ (forall input raws,
          tokenSymbolInput = Some input -> input <> nc_symbol native ->
          read_casinoTokens W chainId = inr raws ->
          getBetToken L W tokenSymbolInput s
          = (match
               find (fun t => String.eqb (symbol t) input)
                 (casinoTokens_of L chainId raws)
             with
             | Some t => Returns t
             | None => Throws (unknown_token_error (casinoTokens_of L chainId raws))
             end, log s [tokens_read chainId])).

(** "The indexer's error is propagated to the caller unchanged": the
    least this asks is that the message thrown is the indexer's. *)
Definition indexer_error_unchanged (L : Library) (W : World)
    (bettor : option Hex) (game : option CASINO_GAME_TYPE)
    (theGraphKey : option string) (s : State) : Prop :=
  forall chainId result e,
    chain_is L W chainId ->
    indexer_fetchBets W (first_options chainId theGraphKey) bettor game 5
    = inr result ->
    bets_error result = Some e ->
    exists thrown s',
      getSubgraphBets L W bettor game theGraphKey s = (Throws thrown, s')
      /\ err_message thrown = message e.

(** "A symbol belonging to a disallowed or paused on-chain token never
    resolves via the list lookup." *)
Definition unlisted_symbol_never_resolves (L : Library) (chainId : ChainId)
    (raws : list RawCasinoToken) : Prop :=
  forall rawToken,
    In rawToken raws ->
    raw_token_allowed rawToken = false \/ raw_token_paused rawToken = true ->
    find
      (fun t => String.eqb (symbol t) (symbol (rawTokenToToken L rawToken chainId)))
      (casinoTokens_of L chainId raws)
    = None.

End AsWritten.

(* ================================================================== *)
(** * A concrete scenario *)
(* ================================================================== *)

(** One instance of the collaborators, to run the definitions on: a wallet
    on chain 8453 with native currency ETH, a casino with a few tokens, and
    a fee API and an indexer whose answers each example chooses. *)
Module Scenario.
Import Schemas Sdk Effects.

Definition constants : SdkConstants :=
  {| COINTOSS_FACE := ["TAILS"; "HEADS"];
     MIN_SELECTABLE_DICE_NUMBER := 1;
     MAX_SELECTABLE_DICE_NUMBER := 99;
     MIN_SELECTABLE_ROULETTE_NUMBER := 0;
     MAX_SELECTABLE_ROULETTE_NUMBER := 36;
     maxGameBetCountByType := fun _ => 100 |}.

Definition zeroAddress : Hex := "0x0000000000000000000000000000000000000000".

Definition integer_of_string (s : string) : option Z :=
  option_map Z.of_int (NilZero.int_of_string s).

Definition library : Library :=
  {| Number_of_chainId :=
       fun s => match integer_of_string s with Some z => z | None => 0 end;
     CASINO_GAME_TYPE_toString :=
       fun game =>
         match game with
         | COINTOSS => "coin-toss"
         | DICE => "dice"
         | ROULETTE => "roulette"
         end;
     casinoChainById :=
       fun chainId =>
         if chainId =? 8453
         then Some {| viemChain_nativeCurrency :=
                        {| nc_name := "Ether"; nc_symbol := "ETH";
                           nc_decimals := 18 |} |}
         else None;
     slugById := fun _ => "base";
     chainNativeCurrencyToToken :=
       fun nc =>
         {| symbol := nc_symbol nc; address := zeroAddress;
            decimals := nc_decimals nc |};
     rawTokenToToken :=
       fun rawToken _ =>
         {| symbol := raw_symbol rawToken;
            address := raw_tokenAddress rawToken;
            decimals := raw_decimals rawToken |};
     parseRawBetRequirements :=
       fun raw _ _ _ _ =>
         let '(allowed, maxAmount, maxCount) := raw in
         {| isAllowed := allowed; maxBetAmount := maxAmount;
            maxBetCount := maxCount |};
     getPlaceBetFunctionData :=
       fun p _ =>
         {| data_to := "0xCasino";
            encodedData :=
              ("wager(" ++ pb_receiver p
               ++ "," ++ bigint_toString (pb_betCount p)
               ++ "," ++ bigint_toString (pb_stopGain p)
               ++ "," ++ bigint_toString (pb_stopLoss p) ++ ")")%string;
            extraData_getValue :=
              fun vrfCost =>
                if String.eqb (pb_tokenAddress p) zeroAddress
                then pb_betAmount p * pb_betCount p + vrfCost
                else vrfCost |};
     formatTxnUrl := fun h _ => ("https://basescan.org/tx/" ++ h)%string;
     parseUnits :=
       fun s d =>
         match integer_of_string s with
         | Some z => inr (z * 10 ^ d)
         | None => inl (Error "invalid decimal number")
         end;
     CoinToss_encodeInput :=
       fun face => if String.eqb face "HEADS" then 1 else 0;
     CoinToss_getMultiplier := fun _ => 19400;
     Dice_encodeInput := fun _ => 0;
     Dice_getMultiplier := fun _ => 19400;
     Roulette_encodeInput := fun _ => 0;
     Roulette_getMultiplier := fun _ => 19400 |}.

(** The wallet's address and the addresses of two tokens. *)
Definition wallet : Hex := "0x70997970c51812dc3a010c7d01b50e0d17dc79c8".

Definition usdc_address : Hex := "0x833589fcd6edb6e08f4c7c32d4f71b54bda02913".

Definition degen_address : Hex := "0x4ed4e862860bed51a9570b96d89af5e1b0efefed".

(** USDC as [getCasinoTokens] lists it. *)
Definition usdc_token : Token :=
  {| symbol := "USDC"; address := usdc_address; decimals := 6 |}.

Definition usdc (paused : bool) : RawCasinoToken :=
  {| raw_symbol := "USDC"; raw_tokenAddress := usdc_address;
     raw_decimals := 6; raw_token_allowed := true;
     raw_token_paused := paused |}.

Definition degen : RawCasinoToken :=
  {| raw_symbol := "DEGEN"; raw_tokenAddress := degen_address;
     raw_decimals := 18; raw_token_allowed := false;
     raw_token_paused := false |}.

Definition a_bet (resolved : bool) : CasinoBet :=
  {| bet_id := 42;
     bet_decodedInput := "HEADS";
     bet_betTxnHash := "0xbet";
     bet_formattedBetAmount := "1";
     bet_token_symbol := "ETH";
     bet_isWin := if resolved then Some true else None;
     bet_formattedPayoutMultiplier := None;
     bet_decodedRolled := if resolved then Some ["HEADS"] else None;
     bet_formattedPayout := if resolved then Some "1.94" else None;
     bet_rollTxnHash := if resolved then Some "0xroll" else None;
     bet_game := "coin-toss";
     bet_isResolved := resolved |}.

Definition not_indexed : BetData := {| bet := None; error := None |}.

Definition resolved_bet : BetData :=
  {| bet := Some (a_bet true); error := None |}.

Definition indexer_down : SubgraphError :=
  {| code := "SUBGRAPH_ERROR"; message := "indexer unavailable" |}.

Definition failed_lookup : BetData :=
  {| bet := None; error := Some indexer_down |}.

Definition no_bets : BetsData := {| bets := []; bets_error := None |}.

Definition failed_listing : BetsData :=
  {| bets := []; bets_error := Some indexer_down |}.

(** A world: the wallet is on chain 8453 and the indexer answers every
    query with a record; the rest is chosen. *)
Definition world (tokens : list RawCasinoToken)
    (requirements : RawBetRequirements) (fee : Z)
    (answers : nat -> BetData) (latency : nat -> N) (listing : BetsData)
    : World :=
  {| network_chainId := Some "8453";
     wallet_address := wallet;
     read_gamePaused := fun _ _ => inr false;
     read_betRequirements := fun _ _ _ => inr requirements;
     read_casinoTokens := fun _ => inr tokens;
     wallet_sendTransaction := fun _ => inr "0xbet";
     api_vrfFees :=
       fun _ => inr {| ok := true; statusText := "OK"; json_BigInt := inr fee |};
     indexer_fetchBetByHash := fun n _ _ => inr (answers n);
     indexer_fetchBets := fun _ _ _ _ => inr listing;
     fetch_latency := latency;
     timer_overrun := fun _ => 0%N |}.

Definition requirements : RawBetRequirements := (true, 5 * 10 ^ 18, 10).

Definition second_lookup_resolves (n : nat) : BetData :=
  match n with
  | O => not_indexed
  | S _ => resolved_bet
  end.

(** The everyday world: the bet is allowed, the fee is 1000 wei, every
    lookup takes 100 ms and the second one finds the bet resolved. *)
Definition calm : World :=
  world [usdc false; degen] requirements 1000
    second_lookup_resolves (fun _ => 100%N) no_bets.

(** The second lookup takes 70 seconds, and finds the bet resolved. *)
Definition slow_indexer : World :=
  world [usdc false; degen] requirements 1000
    second_lookup_resolves
    (fun n => match n with 1%nat => 70000%N | _ => 0%N end) no_bets.

(** The indexer never has the bet. *)
Definition silent_indexer : World :=
  world [usdc false; degen] requirements 1000
    (fun _ => not_indexed) (fun _ => 0%N) no_bets.

(** The second lookup reports an error; the listing does too. *)
Definition failing_indexer : World :=
  world [usdc false; degen] requirements 1000
    (fun n => match n with O => not_indexed | S _ => failed_lookup end)
    (fun _ => 100%N) failed_listing.

(** Two on-chain tokens carry the symbol USDC; the first is paused. *)
Definition twin_tokens : list RawCasinoToken := [usdc true; usdc false].

Definition args (amount : string) (tok : option string) : BetArgs string :=
  {| selection := "HEADS"; betAmount := amount; token := tok;
     stopGain := None; stopLoss := None; receiver := None;
     betCount := None |}.

(** A request that asks for five bets, another receiver and stops. *)
Definition eager_request : JsObject :=
  [("face", JString "HEADS");
   ("betAmount", JString "1");
   ("betCount", JNumber (Finite 5));
   ("receiver", JString "0x057BcBF736DADD774A8A45A185c1697F4cF7517D");
   ("stopGain", JString "10");
   ("stopLoss", JString "2")].

Definition eager_args : BetArgs string :=
  {| selection := "HEADS"; betAmount := "1"; token := None;
     stopGain := Some "10"; stopLoss := Some "2";
     receiver := Some "0x057BcBF736DADD774A8A45A185c1697F4cF7517D";
     betCount := Some (Finite 5) |}.

Definition params (amount count : Z) : Betswirl.CasinoGameParams :=
  {| Betswirl.betAmount := amount;
     Betswirl.betToken :=
       {| symbol := "ETH"; address := zeroAddress; decimals := 18 |};
     Betswirl.betCount := count;
     Betswirl.receiver := wallet;
     Betswirl.stopGain := 0;
     Betswirl.stopLoss := 0 |}.

(** The hash of the provider's test, and the same hash with two more
    digits. *)
Definition a_hash : string :=
  "0x34a67177f658a0d45de95c6f34c3b9a868bee1ebf1f612a635ddf5e6c262376e".

Definition overlong_hash : string := (a_hash ++ "00")%string.

End Scenario.

(* ================================================================== *)
(** * The rest of the two files: the list schema and network support *)
(* ================================================================== *)

(** [GetBetsSchema] of schemas.ts. *)
Module Listing.
Import Zod Schemas.

Record GetBetsArgs := {
  bettor : option string;
  game : option string
}.

Definition bettor_schema : Schema (option string) :=
  describe "The bettor address" (optional hexAddress).

(** [z.nativeEnum(CASINO_GAME_TYPE).optional()]; the enum's values are
    the SDK's. *)
Definition game_schema (CASINO_GAME_TYPE_values : list string)
    : Schema (option string) :=
  describe "The game to get the bets for"
    (optional (nativeEnum CASINO_GAME_TYPE_values)).

Definition GetBetsSchema (CASINO_GAME_TYPE_values : list string)
    (o : JsObject) : ParseResult GetBetsArgs :=
  pure (fun b g => {| bettor := b; game := g |})
    <*> field "bettor" bettor_schema o
    <*> field "game" (game_schema CASINO_GAME_TYPE_values) o.

End Listing.

(** [supportsNetwork] of the provider. *)
Module NetworkSupport.
Import Sdk.

(** A [Network] as the framework hands it over; either property may be
    missing. *)
Record Network := {
  protocolFamily : option string;
  chainId : option string
}.

(** [network.protocolFamily === "evm" &&
     casinoChains.some(casinoChain => casinoChain.id === Number(network.chainId))];
    [Number(undefined)] is [NaN], which equals no id. *)
Definition supportsNetwork (L : Library) (casinoChains : list ChainId)
    (network : Network) : bool :=
  match protocolFamily network with
  | Some family => String.eqb family "evm"
  | None => false
  end
  && match chainId network with
     | Some c => existsb (fun id => id =? Number_of_chainId L c) casinoChains
     | None => false
     end.

End NetworkSupport.

(** More vocabulary: worlds that differ in one answer, counting, and the
    shape of a whole run. *)
Module Runs.
Import Schemas Sdk Effects Betswirl Placement Polling.

(** The wallet reports no chain id, or an empty one. *)
Definition no_chain_id (W : World) : Prop :=
  network_chainId W = None \/ network_chainId W = Some "".

(** The world [W] with another answer to the game-paused read. *)
Definition with_gamePaused (W : World)
    (answer : CASINO_GAME_TYPE -> ChainId -> Result bool) : World :=
  {| network_chainId := network_chainId W;
     wallet_address := wallet_address W;
     read_gamePaused := answer;
     read_betRequirements := read_betRequirements W;
     read_casinoTokens := read_casinoTokens W;
     wallet_sendTransaction := wallet_sendTransaction W;
     api_vrfFees := api_vrfFees W;
     indexer_fetchBetByHash := indexer_fetchBetByHash W;
     indexer_fetchBets := indexer_fetchBets W;
     fetch_latency := fetch_latency W;
     timer_overrun := timer_overrun W |}.

Definition is_submission (ev : Event) : bool :=
  match ev with
  | EvSendTransaction _ => true
  | _ => false
  end.

Definition is_fee_request (ev : Event) : bool :=
  match ev with
  | EvFetchVrfFees _ => true
  | _ => false
  end.

Definition count (p : Event -> bool) (evs : list Event) : nat :=
  List.length (filter p evs).

(** An event of [getBet] on the hash [h]: a lookup of [h], or a wait. *)
Definition poll_event (h : Hex) (ev : Event) : Prop :=
  match ev with
  | EvFetchBetByHash h' _ => h' = h
  | EvSetTimeout _ => True
  | _ => False
  end.

(** A computation that returns or throws from every state: it never runs
    out of budget. *)
Definition ends {A} (m : M A) : Prop :=
  forall s, fst (m s) <> Exhausted.

(** The parameters a game action places its bet with. *)
Definition action_params (W : World) (amount : Z) (tok : Token)
    : CasinoGameParams :=
  {| betAmount := amount; betToken := tok; betCount := 1;
     receiver := wallet_address W; stopGain := 0; stopLoss := 0 |}.

(** [placeBet]'s two wrappers around an error of the fee stage. *)
Definition placing_failure (e : JsError) : JsError :=
  Error ("An error occured while placing the bet: " ++ error_toString e)%string.

Definition vrf_failure (e : JsError) : JsError :=
  Error ("An error occured while getting the chainlink vrf cost: "
         ++ error_toString e)%string.

(** JavaScript values of optional typed values. *)
Definition of_optional_string (v : option string) : JsValue :=
  match v with
  | Some s => JString s
  | None => JUndefined
  end.

Definition of_optional_number (v : option JsNumber) : JsValue :=
  match v with
  | Some n => JNumber n
  | None => JUndefined
  end.

(** A property that is absent or a string. *)
Definition optional_string (v : JsValue) : Prop :=
  v = JUndefined \/ exists s, v = JString s.

End Runs.

(** More worlds for the scenario. *)
Module Cases.
Import Schemas Sdk Effects.

(** [W] with another network, another answer to the three reads, another
    fee answer and another wallet answer. *)
Definition rewire (W : World) (chain : option string)
    (paused : Result bool) (requirements : Result RawBetRequirements)
    (tokens : Result (list RawCasinoToken)) (fee : Result Response)
    (sent : Result Hex) : World :=
  {| network_chainId := chain;
     wallet_address := wallet_address W;
     read_gamePaused := fun _ _ => paused;
     read_betRequirements := fun _ _ _ => requirements;
     read_casinoTokens := fun _ => tokens;
     wallet_sendTransaction := fun _ => sent;
     api_vrfFees := fun _ => fee;
     indexer_fetchBetByHash := indexer_fetchBetByHash W;
     indexer_fetchBets := indexer_fetchBets W;
     fetch_latency := fetch_latency W;
     timer_overrun := timer_overrun W |}.

Definition good_fee : Result Response :=
  inr {| ok := true; statusText := "OK"; json_BigInt := inr 1000 |}.

Definition node_down : JsError := Error "connection refused".

(** The calm world behind a wallet that reports no chain id. *)
Definition unplugged : World :=
  rewire Scenario.calm None (inr false) (inr Scenario.requirements)
    (inr [Scenario.usdc false; Scenario.degen]) good_fee (inr "0xbet").

(** The calm world on a chain the SDK has no casino for. *)
Definition foreign_chain : World :=
  rewire Scenario.calm (Some "1") (inr false) (inr Scenario.requirements)
    (inr [Scenario.usdc false; Scenario.degen]) good_fee (inr "0xbet").

(** Every contract read fails. *)
Definition dead_node : World :=
  rewire Scenario.calm (Some "8453") (inl node_down) (inl node_down)
    (inl node_down) good_fee (inr "0xbet").

(** The fee API answers 503. *)
Definition fee_api_down : World :=
  rewire Scenario.calm (Some "8453") (inr false) (inr Scenario.requirements)
    (inr [Scenario.usdc false; Scenario.degen])
    (inr {| ok := false; statusText := "Service Unavailable";
            json_BigInt := inl (Error "Unexpected token") |})
    (inr "0xbet").

(** The wallet refuses to sign. *)
Definition wallet_refuses : World :=
  rewire Scenario.calm (Some "8453") (inr false) (inr Scenario.requirements)
    (inr [Scenario.usdc false; Scenario.degen]) good_fee
    (inl (Error "user rejected the request")).

(** The indexer lists two bets. *)
Definition two_bets : BetsData :=
  {| bets := [Scenario.a_bet true; Scenario.a_bet false]; bets_error := None |}.

Definition busy_listing : World :=
  Scenario.world [Scenario.usdc false; Scenario.degen] Scenario.requirements
    1000 Scenario.second_lookup_resolves (fun _ => 100%N) two_bets.

(** The calm world, but the indexer's second lookup and its listing
    reject: the service is unreachable. *)
Definition indexer_unreachable : JsError := Error "fetch failed".

Definition rejecting_indexer : World :=
  {| network_chainId := network_chainId Scenario.calm;
     wallet_address := wallet_address Scenario.calm;
     read_gamePaused := read_gamePaused Scenario.calm;
     read_betRequirements := read_betRequirements Scenario.calm;
     read_casinoTokens := read_casinoTokens Scenario.calm;
     wallet_sendTransaction := wallet_sendTransaction Scenario.calm;
     api_vrfFees := api_vrfFees Scenario.calm;
     indexer_fetchBetByHash :=
       fun n _ _ =>
         match n with
         | O => inr Scenario.not_indexed
         | S _ => inl indexer_unreachable
         end;
     indexer_fetchBets := fun _ _ _ _ => inl indexer_unreachable;
     fetch_latency := fetch_latency Scenario.calm;
     timer_overrun := timer_overrun Scenario.calm |}.

(** A dice request on 50 for one unit of USDC. *)
Definition dice_args : BetArgs JsNumber :=
  {| selection := Finite 50; Schemas.betAmount := "1"; token := Some "USDC";
     stopGain := None; stopLoss := None; receiver := None;
     betCount := None |}.

(** A roulette request on 14 and 32 for one ETH. *)
Definition roulette_args : BetArgs (list JsNumber) :=
  {| selection := [Finite 14; Finite 32]; Schemas.betAmount := "1";
     token := None; stopGain := None; stopLoss := None; receiver := None;
     betCount := None |}.

(** A bet at both limits of the scenario's requirements. *)
Definition at_the_limits : Betswirl.CasinoGameParams :=
  Scenario.params (5 * 10 ^ 18) 10.

End Cases.

(* ================================================================== *)
(** * The validators *)
(* ================================================================== *)

Section Validators.
Import Schemas Zod Accepts.

Lemma in_class_address_hex c :
  Regex.in_class hex_class_address c = is_hex_digit c.
Proof. destruct c as [[] [] [] [] [] [] [] []]; reflexivity. Qed.

Lemma in_class_hash_hex c :
  Regex.in_class hex_class_hash c = is_hex_digit c.
Proof. destruct c as [[] [] [] [] [] [] [] []]; reflexivity. Qed.

Lemma forallb_class_hex cls l :
  (forall c, Regex.in_class cls c = is_hex_digit c) ->
  forallb (Regex.in_class cls) l = forallb is_hex_digit l.
Proof. intros H. induction l; simpl; congruence. Qed.

Lemma take_class_spec cls n : forall s r,
  Regex.take_class cls n s = Some r <->
  exists d, s = (d ++ r)%string /\ String.length d = n
            /\ forallb (Regex.in_class cls) (list_ascii_of_string d) = true.
Proof.
  induction n as [|n IH]; intros s r; simpl.
  - split.
    + intros [= ->]. exists ""; auto.
    + intros (d & -> & Hlen & _). destruct d; [reflexivity | discriminate].
  - destruct s as [|c s].
    + split; [discriminate|].
      intros (d & Hs & Hlen & _). destruct d; discriminate.
    + destruct (Regex.in_class cls c) eqn:Hc.
      * rewrite IH. split.
        -- intros (d & -> & Hlen & Hall). exists (String c d); simpl.
           rewrite Hc, Hall, Hlen; auto.
        -- intros (d & Hs & Hlen & Hall).
           destruct d as [|c' d]; [discriminate|].
           simpl in *. injection Hs as -> ->. injection Hlen as Hlen.
           apply andb_true_iff in Hall as [_ Hall]. exists d; auto.
      * split; [discriminate|].
        intros (d & Hs & Hlen & Hall). destruct d as [|c' d]; [discriminate|].
        simpl in *. injection Hs as -> ->. rewrite Hc in Hall. discriminate.
Qed.

Lemma append_empty_r (d : string) : (d ++ "")%string = d.
Proof. induction d; simpl; congruence. Qed.

(** After the first position [^] can no longer hold. *)
Lemma search_Bol_later p s : Regex.search (Regex.Bol :: p) false s = false.
Proof. induction s as [|c s IH]; simpl; auto. Qed.

(** [search] finds the pattern at some split of the input. *)
Lemma search_spec p : forall s bol,
  Regex.search p bol s = true <->
  exists pre post, s = (pre ++ post)%string
    /\ Regex.match_here p (bol && String.eqb pre "") post = true.
Proof.
  induction s as [|c s IH]; intros bol; simpl.
  - rewrite orb_false_r. split.
    + intros H. exists "", "". rewrite andb_true_r. auto.
    + intros (pre & post & Hs & H). destruct pre; [|discriminate].
      simpl in Hs. subst post. rewrite andb_true_r in H. exact H.
  - rewrite orb_true_iff, IH. split.
    + intros [H | (pre & post & -> & H)].
      * exists "", (String c s). rewrite andb_true_r. auto.
      * exists (String c pre), post. split; [reflexivity|].
        simpl. rewrite andb_false_r. exact H.
    + intros (pre & post & Hs & H). destruct pre as [|c' pre].
      * simpl in Hs. subst post. rewrite andb_true_r in H. auto.
      * simpl in Hs. injection Hs as -> ->. right. exists pre, post.
        split; [reflexivity|]. simpl in H. rewrite andb_false_r in H. exact H.
Qed.

Lemma hexAddress_regex_iff s :
  Regex.test hexAddress_regex s = true <-> is_0x_hex 40 s.
Proof.
  unfold Regex.test, hexAddress_regex.
  assert (E : Regex.search
                [Regex.Bol; Regex.Lit "0"; Regex.Lit "x";
                 Regex.Repeat hex_class_address 40; Regex.Eol]%char true s
              = Regex.match_here
                  [Regex.Lit "0"; Regex.Lit "x";
                   Regex.Repeat hex_class_address 40; Regex.Eol]%char true s).
  { destruct s as [|c s]; cbn [Regex.search Regex.match_here andb].
    - apply orb_false_r.
    - rewrite search_Bol_later. apply orb_false_r. }
  rewrite E. clear E. split.
  - intros H. destruct s as [|c0 [|c1 s]]; cbn [Regex.match_here] in H;
      try discriminate.
    + apply andb_true_iff in H as [_ H]; discriminate.
    + apply andb_true_iff in H as [H0 H]. apply andb_true_iff in H as [H1 H].
      apply Ascii.eqb_eq in H0, H1. subst c0 c1.
      destruct (Regex.take_class hex_class_address 40 s) as [r|] eqn:Ht;
        [|discriminate].
      destruct r; [|discriminate].
      apply take_class_spec in Ht as (d & -> & Hlen & Hall).
      exists d. split; [cbn; now rewrite append_empty_r|].
      split; [exact Hlen|].
      rewrite <- (forallb_class_hex _ _ in_class_address_hex). exact Hall.
  - intros (d & -> & Hlen & Hall).
    cbn [append Regex.match_here Ascii.eqb Bool.eqb andb].
    assert (Ht : Regex.take_class hex_class_address 40 d = Some "").
    { apply take_class_spec. exists d. split; [now rewrite append_empty_r|].
      split; [exact Hlen|].
      rewrite (forallb_class_hex _ _ in_class_address_hex). exact Hall. }
    rewrite Ht. reflexivity.
Qed.

Lemma hash_match_here b s :
  Regex.match_here hash_regex b s = true <->
  exists d post, s = ("0x" ++ d ++ post)%string /\ hex_digits 64 d.
Proof.
  unfold hash_regex. split.
  - intros H. destruct s as [|c0 [|c1 s]]; cbn [Regex.match_here] in H;
      try discriminate.
    + apply andb_true_iff in H as [_ H]; discriminate.
    + apply andb_true_iff in H as [H0 H]. apply andb_true_iff in H as [H1 H].
      apply Ascii.eqb_eq in H0, H1. subst c0 c1.
      destruct (Regex.take_class hex_class_hash 64 s) as [r|] eqn:Ht;
        [|discriminate].
      apply take_class_spec in Ht as (d & -> & Hlen & Hall).
      exists d, r. split; [reflexivity|]. split; [exact Hlen|].
      rewrite <- (forallb_class_hex _ _ in_class_hash_hex). exact Hall.
  - intros (d & post & -> & Hlen & Hall).
    cbn [append Regex.match_here Ascii.eqb Bool.eqb andb].
    assert (Ht : Regex.take_class hex_class_hash 64 (d ++ post)%string
                 = Some post).
    { apply take_class_spec. exists d. split; [reflexivity|].
      split; [exact Hlen|].
      rewrite (forallb_class_hex _ _ in_class_hash_hex). exact Hall. }
    rewrite Ht. reflexivity.
Qed.

(** The hash pattern has no anchors: it accepts a string as soon as the
    string holds a hash somewhere. *)
Lemma hash_regex_iff s :
  Regex.test hash_regex s = true <-> holds_0x_hex 64 s.
Proof.
  unfold Regex.test, holds_0x_hex. rewrite search_spec. split.
  - intros (pre & rest & -> & H).
    apply hash_match_here in H as (d & post & -> & Hd).
    exists pre, d, post. auto.
  - intros (pre & d & post & -> & Hd). exists pre, ("0x" ++ d ++ post)%string.
    split; [reflexivity|]. apply hash_match_here. exists d, post. auto.
Qed.

Lemma success_check {T} (okf : T -> bool) i (s : Schema T) v :
  success (check okf i s v)
  = success (s v)
    && match s v with Parsed x _ => okf x | Aborted _ => false end.
Proof.
  unfold check. destruct (s v) as [x iss|iss]; simpl; [|reflexivity].
  destruct (okf x); destruct iss; simpl; reflexivity.
Qed.

Lemma regex_schema_accepts re msg v :
  success (regex re msg z_string v) = true <->
  exists s, v = JString s /\ Regex.test re s = true.
Proof.
  unfold regex. rewrite success_check. unfold z_string.
  destruct v; simpl; try (split; [discriminate | intros (s0 & [=] & _)]).
  split.
  - intros H. eauto.
  - intros (s0 & [= ->] & H). exact H.
Qed.

Lemma success_ap {A B} (f : ParseResult (A -> B)) (x : ParseResult A) :
  success (f <*> x) = success f && success x.
Proof.
  destruct f as [g iss|iss], x as [a jss|jss]; simpl;
    try (destruct iss; simpl; try reflexivity; destruct jss; reflexivity).
Qed.

Lemma success_field {T} key (s : Schema T) o :
  success (field key s o) = success (s (js_get o key)).
Proof.
  unfold field. destruct (s (js_get o key)) as [x iss|iss]; simpl;
    destruct iss; reflexivity.
Qed.

Lemma success_parse_items {T} (s : Schema T) items :
  success (parse_items s items) = forallb (fun v => success (s v)) items.
Proof.
  induction items as [|v items IH]; simpl; [reflexivity|].
  rewrite <- IH.
  destruct (s v) as [x iss|iss], (parse_items s items) as [xs jss|jss]; simpl;
    destruct iss; reflexivity.
Qed.

Lemma success_array_check {T} okf i (s : Schema (list T)) v :
  success (array_check okf i s v)
  = match v with JArray items => okf (List.length items) | _ => true end
    && success (s v).
Proof.
  unfold array_check. destruct v; simpl; try reflexivity.
  destruct (okf (List.length items)); simpl; [reflexivity|].
  destruct (s (JArray items)); reflexivity.
Qed.

Lemma bounded_number_accepts lo hi v :
  success (lte hi (gte lo z_number) v) = true <-> number_within lo hi v.
Proof.
  unfold lte, gte. rewrite !success_check. unfold number_within.
  destruct v as [| |b|n|s|l|f]; simpl;
    try (split; [discriminate | intros (q & [=] & _)]).
  destruct n as [q| | |]; simpl;
    try (split; [discriminate | intros (q & [=] & _)]).
  rewrite !andb_true_iff, !Qle_bool_iff. split.
  - intros [H1 H2]. eauto.
  - intros (q' & [= ->] & H1 & H2). auto.
Qed.

Section WithConstants.
Context (K : SdkConstants).

Lemma number_schema_accepts v :
  success (number_schema K v) = true <->
  number_within (MIN_SELECTABLE_DICE_NUMBER K)
    (MAX_SELECTABLE_DICE_NUMBER K) v.
Proof. apply bounded_number_accepts. Qed.

Lemma numbers_schema_accepts v :
  success (numbers_schema K v) = true <->
  exists items, v = JArray items
    /\ (1 <= List.length items)%nat
    /\ Z.of_nat (List.length items) <= MAX_SELECTABLE_ROULETTE_NUMBER K
    /\ Forall (number_within (MIN_SELECTABLE_ROULETTE_NUMBER K)
                 (MAX_SELECTABLE_ROULETTE_NUMBER K)) items.
Proof.
  unfold numbers_schema, describe, array_max, array_min.
  rewrite !success_array_check.
  destruct v as [| |b|n|s|items|f]; simpl;
    try (split; [discriminate | intros (it & [=] & _)]).
  rewrite success_parse_items, !andb_true_iff, forallb_forall, !Z.leb_le.
  split.
  - intros (H1 & H2 & H3). exists items. repeat split; try lia.
    apply Forall_forall. intros x Hx. apply bounded_number_accepts. auto.
  - intros (it & [= <-] & H1 & H2 & H3). repeat split; try lia.
    intros x Hx. apply bounded_number_accepts.
    rewrite Forall_forall in H3. auto.
Qed.

Lemma betCount_schema_accepts game v :
  success (getMaxBetCountParam K game v) = true <->
  v = JUndefined \/ positive_at_most (maxGameBetCountByType K game) v.
Proof.
  unfold getMaxBetCountParam, describe, optional, default, max, lte, positive.
  unfold positive_at_most.
  destruct v as [| |b|n|s|l|f];
    try (simpl; split; [discriminate | intros [[=] | (q & [=] & _)]]).
  - simpl. split; auto.
  - match goal with
    | |- context [match ?c with Parsed _ _ => _ | Aborted _ => _ end] =>
        assert (E : success
                      match c with
                      | Parsed x iss => Parsed (Some x) iss
                      | Aborted iss => Aborted iss
                      end = success c)
          by (destruct c as [x iss|iss]; [destruct iss|]; reflexivity);
        rewrite E; clear E
    end.
    rewrite !success_check.
    destruct n as [q| | |]; simpl;
      try (split; [discriminate | intros [[=] | (q & [=] & _)]]).
    rewrite andb_true_iff, negb_true_iff, Qle_bool_iff.
    split.
    + intros [H1 H2]. right. exists q. split; [reflexivity|].
      split; [|exact H2].
      apply Qnot_le_lt. intros Hle. apply Qle_bool_iff in Hle.
      change (inject_Z 0) with 0%Q in H1. congruence.
    + intros [[=] | (q' & [= ->] & H1 & H2)]. split; [|exact H2].
      destruct (Qle_bool q' (inject_Z 0)) eqn:E; [|reflexivity].
      apply Qle_bool_iff in E. change (inject_Z 0) with 0%Q in E.
      exfalso. apply (Qlt_not_le _ _ H1 E).
Qed.

Lemma face_schema_accepts v :
  success (face_schema K v) = true <->
  exists s, v = JString s /\ In s (COINTOSS_FACE K).
Proof.
  unfold face_schema, describe, nativeEnum.
  destruct v as [| |b|n|s|l|f]; simpl;
    try (split; [discriminate | intros (s0 & [=] & _)]).
  destruct (existsb (String.eqb s) (COINTOSS_FACE K)) eqn:E; simpl.
  - apply existsb_exists in E as (x & Hx & Hs). apply String.eqb_eq in Hs.
    subst x. split; eauto.
  - split; [discriminate|]. intros (s0 & [= <-] & Hin).
    assert (existsb (String.eqb s) (COINTOSS_FACE K) = true).
    { apply existsb_exists. exists s.
      split; [exact Hin | apply String.eqb_refl]. }
    congruence.
Qed.

(** A game object is valid when its selection and each of its shared
    properties is. *)
Lemma game_object_success {Sel} key (sel : Schema Sel) game o :
  success (game_object K key sel game o)
  = success (sel (js_get o key)) && shared_properties_valid K game o.
Proof.
  unfold game_object, shared_properties_valid.
  rewrite !success_ap, !success_field. cbn [success pure andb].
  rewrite !andb_assoc. reflexivity.
Qed.

End WithConstants.
End Validators.

Section ValidatorClaims.
Import Schemas Zod Accepts.

(** C4.  The address field accepts a string exactly when it is [0x]
    followed by 40 hexadecimal digits.  The hash field of [GetBetSchema]
    does not do the same with 64 digits: its pattern carries no anchors,
    so it accepts every string that holds such a hash somewhere, and the
    test hash with two digits more is accepted although it is not [0x]
    followed by exactly 64 digits. *)
Theorem hex_validators_accept :
  (forall s, success (hexAddress (JString s)) = true <-> is_0x_hex 40 s)
  /\ (forall s, success (hash_schema (JString s)) = true <-> holds_0x_hex 64 s)
  /\ success (GetBetSchema [("hash", JString Scenario.overlong_hash)]) = true
  /\ ~ is_0x_hex 64 Scenario.overlong_hash.
Proof.
  split; [|split; [|split]].
  - intros s. unfold hexAddress. rewrite regex_schema_accepts. split.
    + intros (s0 & [= <-] & H). apply hexAddress_regex_iff. exact H.
    + intros H. exists s. split; [reflexivity|].
      apply hexAddress_regex_iff. exact H.
  - intros s. unfold hash_schema, describe. rewrite regex_schema_accepts. split.
    + intros (s0 & [= <-] & H). apply hash_regex_iff. exact H.
    + intros H. exists s. split; [reflexivity|]. apply hash_regex_iff. exact H.
  - vm_compute. reflexivity.
  - intros (d & Hs & Hlen & _). cbn in Hs. injection Hs as <-.
    vm_compute in Hlen. discriminate.
Qed.

(** C9.  Each game schema accepts a selection exactly when it lies within
    the bounds the SDK gives: the dice number between the two dice bounds,
    the roulette numbers each between the two roulette bounds in a list of
    one to [MAX_SELECTABLE_ROULETTE_NUMBER] entries, the coin face among
    the enum's values, the bet count absent or positive and at most the
    game's maximum; an object is valid when its selection and its shared
    properties are.  With the dice bounds around 38 and below 290, dice
    number 38 is accepted and 290 rejected; a roulette list with a number
    out of range is rejected. *)
Theorem game_schemas_enforce_bounds (K : SdkConstants) :
  MIN_SELECTABLE_DICE_NUMBER K <= 38 <= MAX_SELECTABLE_DICE_NUMBER K ->
  MAX_SELECTABLE_DICE_NUMBER K < 290 ->
  (forall v, success (number_schema K v) = true <->
             number_within (MIN_SELECTABLE_DICE_NUMBER K)
               (MAX_SELECTABLE_DICE_NUMBER K) v)
  /\ (forall v, success (numbers_schema K v) = true <->
                exists items, v = JArray items
                  /\ (1 <= List.length items)%nat
                  /\ Z.of_nat (List.length items)
                     <= MAX_SELECTABLE_ROULETTE_NUMBER K
                  /\ Forall (number_within (MIN_SELECTABLE_ROULETTE_NUMBER K)
                               (MAX_SELECTABLE_ROULETTE_NUMBER K)) items)
  /\ (forall v, success (face_schema K v) = true <->
                exists s, v = JString s /\ In s (COINTOSS_FACE K))
  /\ (forall game v, success (getMaxBetCountParam K game v) = true <->
                     v = JUndefined
                     \/ positive_at_most (maxGameBetCountByType K game) v)
  /\ (forall o, success (CoinTossSchema K o)
                = success (face_schema K (js_get o "face"))
                  && shared_properties_valid K COINTOSS o)
  /\ (forall o, success (DiceSchema K o)
                = success (number_schema K (js_get o "number"))
                  && shared_properties_valid K DICE o)
  /\ (forall o, success (RouletteSchema K o)
                = success (numbers_schema K (js_get o "numbers"))
                  && shared_properties_valid K ROULETTE o)
  /\ success (number_schema K (JNumber (Finite (inject_Z 38)))) = true
  /\ success (number_schema K (JNumber (Finite (inject_Z 290)))) = false
  /\ (forall items x,
        In x items ->
        ~ number_within (MIN_SELECTABLE_ROULETTE_NUMBER K)
            (MAX_SELECTABLE_ROULETTE_NUMBER K) x ->
        success (numbers_schema K (JArray items)) = false).
Proof.
  intros H38 H290.
  split; [exact (number_schema_accepts K)|].
  split; [exact (numbers_schema_accepts K)|].
  split; [exact (face_schema_accepts K)|].
  split; [exact (betCount_schema_accepts K)|].
  split; [intros o; apply game_object_success|].
  split; [intros o; apply game_object_success|].
  split; [intros o; apply game_object_success|].
  split; [|split].
  - apply number_schema_accepts. exists (inject_Z 38).
    split; [reflexivity|]. rewrite <- !Zle_Qle. lia.
  - destruct (success (number_schema K (JNumber (Finite (inject_Z 290)))))
      eqn:E; [|reflexivity].
    apply number_schema_accepts in E as (q & [= <-] & _ & H).
    rewrite <- Zle_Qle in H. lia.
  - intros items x Hin Hout.
    destruct (success (numbers_schema K (JArray items))) eqn:E; [|reflexivity].
    apply numbers_schema_accepts in E as (it & [= <-] & _ & _ & Hall).
    rewrite Forall_forall in Hall. destruct (Hout (Hall x Hin)).
Qed.

(** With the scenario's constants (dice 1 to 99, roulette 0 to 36): the
    dice objects of the provider's test, completed with a bet amount, and
    a roulette list holding 50. *)
Lemma game_schemas_enforce_bounds_witness :
  success
    (DiceSchema Scenario.constants
       [("number", JNumber (Finite (inject_Z 38))); ("betAmount", JString "1")])
  = true
  /\ success
       (DiceSchema Scenario.constants
          [("number", JNumber (Finite (inject_Z 290)));
           ("betAmount", JString "1")])
     = false
  /\ success
       (numbers_schema Scenario.constants
          (JArray [JNumber (Finite (inject_Z 14));
                   JNumber (Finite (inject_Z 50))]))
     = false.
Proof.
  assert (H38 : MIN_SELECTABLE_DICE_NUMBER Scenario.constants <= 38
                <= MAX_SELECTABLE_DICE_NUMBER Scenario.constants)
    by (cbn; lia).
  assert (H290 : MAX_SELECTABLE_DICE_NUMBER Scenario.constants < 290)
    by (cbn; lia).
  destruct (game_schemas_enforce_bounds Scenario.constants H38 H290)
    as (_ & _ & _ & _ & _ & Hdice & _ & Hin & Hout & Hlist).
  split; [|split].
  - rewrite Hdice. cbn [js_get String.eqb Ascii.eqb Bool.eqb].
    rewrite Hin. reflexivity.
  - rewrite Hdice. cbn [js_get String.eqb Ascii.eqb Bool.eqb].
    rewrite Hout. reflexivity.
  - apply (Hlist _ (JNumber (Finite (inject_Z 50)))).
    + right. left. reflexivity.
    + intros (q & [= <-] & _ & H). rewrite <- Zle_Qle in H. cbn in H. lia.
Defined.

(** The selection alone does not make an object valid: [betAmount] is
    required, and a dice object without it is rejected whatever its
    number. *)
Lemma dice_object_needs_an_amount :
  success
    (DiceSchema Scenario.constants [("number", JNumber (Finite (inject_Z 38)))])
  = false.
Proof. vm_compute. reflexivity. Qed.

End ValidatorClaims.

(* ================================================================== *)
(** * What a computation adds to the trace *)
(* ================================================================== *)

Section Footprint.
Import Effects.
Context {P : Event -> Prop}.

Lemma emits_ret {A} (a : A) : emits_only P (ret a).
Proof. intros s out s' [= <- <-]. exists []. rewrite app_nil_r. auto. Qed.

Lemma emits_throw {A} e : emits_only P (@throw A e).
Proof. intros s out s' [= <- <-]. exists []. rewrite app_nil_r. auto. Qed.

Lemma emits_exhausted {A} : emits_only P (@exhausted A).
Proof. intros s out s' [= <- <-]. exists []. rewrite app_nil_r. auto. Qed.

Lemma emits_lift {A} (r : Result A) : emits_only P (lift r).
Proof. destruct r; [apply emits_throw | apply emits_ret]. Qed.

Lemma emits_emit ev : P ev -> emits_only P (emit ev).
Proof. intros H s out s' [= <- <-]. exists [ev]. simpl. auto. Qed.

Lemma emits_Date_now : emits_only P Date_now.
Proof. intros s out s' [= <- <-]. exists []. rewrite app_nil_r. auto. Qed.

Lemma emits_bind {A B} (m : M A) (k : A -> M B) :
  emits_only P m -> (forall a, emits_only P (k a)) -> emits_only P (bind m k).
Proof.
  intros Hm Hk s out s' H. unfold bind in H.
  destruct (m s) as [[a|e|] s1] eqn:E.
  - destruct (Hm _ _ _ E) as (e1 & T1 & F1).
    destruct (Hk a _ _ _ H) as (e2 & T2 & F2).
    exists (e1 ++ e2). rewrite T2, T1, app_assoc. split; [reflexivity|].
    apply Forall_app; auto.
  - injection H as <- <-. exact (Hm _ _ _ E).
  - injection H as <- <-. exact (Hm _ _ _ E).
Qed.

Lemma emits_try_catch {A} (m : M A) (h : JsError -> M A) :
  emits_only P m -> (forall e, emits_only P (h e)) ->
  emits_only P (try_catch m h).
Proof.
  intros Hm Hh s out s' H. unfold try_catch in H.
  destruct (m s) as [[a|e|] s1] eqn:E.
  - injection H as <- <-. exact (Hm _ _ _ E).
  - destruct (Hm _ _ _ E) as (e1 & T1 & F1).
    destruct (Hh e _ _ _ H) as (e2 & T2 & F2).
    exists (e1 ++ e2). rewrite T2, T1, app_assoc. split; [reflexivity|].
    apply Forall_app; auto.
  - injection H as <- <-. exact (Hm _ _ _ E).
Qed.

End Footprint.

Lemma emits_only_weaken {A} (P Q : Effects.Event -> Prop) (m : Effects.M A) :
  (forall ev, P ev -> Q ev) -> emits_only P m -> emits_only Q m.
Proof.
  intros HPQ Hm s out s' H. destruct (Hm _ _ _ H) as (evs & T & F).
  exists evs. split; [exact T|]. eapply Forall_impl; eauto.
Qed.

(** Walks through a computation built from the monad's operations. *)
Ltac footprint :=
  repeat first
    [ apply emits_ret | apply emits_throw | apply emits_exhausted
    | apply emits_lift | apply emits_Date_now
    | apply emits_bind; [|intros ?]
    | apply emits_try_catch; [|intros ?]
    | apply emits_emit
    | progress cbv beta
    | match goal with
      | |- emits_only _ (match ?x with _ => _ end) => destruct x
      | |- emits_only _ (if ?x then _ else _) => destruct x
      | |- emits_only _ (let _ := _ in _) => cbv zeta
      end ].

(* ================================================================== *)
(** * Chain id, requirements and submission *)
(* ================================================================== *)

Section PlaceBet.
Import Schemas Sdk Effects Betswirl Placement.
Context (L : Library) (W : World).

Lemma getChainId_run s :
  getChainId L W s
  = (match network_chainId W with
     | None => Throws (Error "No chain ID")
     | Some c => if String.eqb c "" then Throws (Error "No chain ID")
                 else Returns (Number_of_chainId L c)
     end, s).
Proof.
  unfold getChainId. destruct (network_chainId W) as [c|]; [|reflexivity].
  destruct (String.eqb c ""); reflexivity.
Qed.

Lemma getChainId_silent P : emits_only P (getChainId L W).
Proof. unfold getChainId. footprint. Qed.

Lemma getChainId_chain_is cid s :
  chain_is L W cid -> getChainId L W s = (Returns cid, s).
Proof.
  intros (c & Hc & Hne & Hn). rewrite getChainId_run, Hc, Hne, Hn. reflexivity.
Qed.

Lemma getBetRequirements_run game tok mult cid s :
  chain_is L W cid ->
  getBetRequirements L W game tok mult s
  = (match read_betRequirements W (address tok) mult cid with
     | inr raw => Returns (parseRawBetRequirements L raw tok mult game cid)
     | inl e =>
         Throws (Error ("An error occured while getting the bet requirements: "
                        ++ error_toString e)%string)
     end,
     log s [EvReadContract (BetRequirementsCall (address tok) mult cid)]).
Proof.
  intros Hc. unfold getBetRequirements, bind.
  rewrite (getChainId_chain_is _ _ Hc).
  unfold try_catch, readContract_betRequirements, bind, emit, lift.
  destruct (read_betRequirements W (address tok) mult cid); reflexivity.
Qed.

(** The three refusals of [placeBet], in the order of its tests. *)
Lemma placeBet_rejects game input mult params cid raw s :
  chain_is L W cid ->
  read_betRequirements W (address (betToken params)) mult cid = inr raw ->
  let req := parseRawBetRequirements L raw (betToken params) mult game cid in
  let s1 := log s [requirements_read params mult cid] in
  (isAllowed req = false ->
   placeBet L W game input mult params s
   = (Throws (Error "The token isn't allowed for betting"), s1))
  /\ (isAllowed req = true -> betAmount params > maxBetAmount req ->
      placeBet L W game input mult params s
      = (Throws (Error ("Bet amount should be less than "
                        ++ bigint_toString (maxBetAmount req))%string), s1))
  /\ (isAllowed req = true -> betAmount params <= maxBetAmount req ->
      betCount params > maxBetCount req ->
      placeBet L W game input mult params s
      = (Throws (Error ("Bet count should be less than "
                        ++ bigint_toString (maxBetCount req))%string), s1)).
Proof.
  intros Hc Hr req s1. repeat split.
  - intros Ha. unfold placeBet.
    unfold bind at 1. rewrite (getChainId_chain_is _ _ Hc).
    unfold bind at 1. rewrite (getBetRequirements_run _ _ _ _ _ Hc), Hr.
    fold req. rewrite Ha. reflexivity.
  - intros Ha Hgt. unfold placeBet.
    unfold bind at 1. rewrite (getChainId_chain_is _ _ Hc).
    unfold bind at 1. rewrite (getBetRequirements_run _ _ _ _ _ Hc), Hr.
    fold req. rewrite Ha. cbn [negb].
    replace (betAmount params >? maxBetAmount req) with true
      by (symmetry; apply Z.gtb_lt; lia).
    reflexivity.
  - intros Ha Hle Hgt. unfold placeBet.
    unfold bind at 1. rewrite (getChainId_chain_is _ _ Hc).
    unfold bind at 1. rewrite (getBetRequirements_run _ _ _ _ _ Hc), Hr.
    fold req. rewrite Ha. cbn [negb].
    replace (betAmount params >? maxBetAmount req) with false
      by (symmetry; rewrite Z.gtb_ltb; apply Z.ltb_ge; lia).
    replace (betCount params >? maxBetCount req) with true
      by (symmetry; apply Z.gtb_lt; lia).
    reflexivity.
Qed.

Ltac stops_early :=
  intros [= <- <-]; eexists;
  (split; [unfold log; cbn; rewrite <- ?app_assoc; reflexivity|]);
  left; (split; [|discriminate]); cbn;
  intros ? ?;
  repeat match goal with
    | H : _ \/ _ |- _ => destruct H
    | H : False |- _ => destruct H
    | H : _ = EvSendTransaction _ |- _ => discriminate H
    end.

(** Every run of [placeBet]: either nothing is submitted and no hash comes
    back, or the run is the requirements read, the fee request and the
    submission, in that order, and the requirements were met. *)
Lemma placeBet_run game input mult params s out s' :
  placeBet L W game input mult params s = (out, s') ->
  exists evs, s' = log s evs /\
    ((forall tx, ~ In (EvSendTransaction tx) evs) /\ (forall h, out <> Returns h)
     \/ exists cid raw resp fee,
          chain_is L W cid
          /\ read_betRequirements W (address (betToken params)) mult cid = inr raw
          /\ requirements_met
               (parseRawBetRequirements L raw (betToken params) mult game cid)
               params
          /\ api_vrfFees W (vrf_query L game params cid) = inr resp
          /\ ok resp = true
          /\ json_BigInt resp = inr fee
          /\ evs = [requirements_read params mult cid;
                    EvFetchVrfFees (vrf_query L game params cid);
                    EvSendTransaction
                      (placeBet_transaction L game input params cid
                         (bigint_div (fee * 120) 100))]
          /\ out = match wallet_sendTransaction W
                           (placeBet_transaction L game input params cid
                              (bigint_div (fee * 120) 100)) with
                   | inr h => Returns h
                   | inl e =>
                       Throws (Error ("An error occured while placing the bet: "
                                      ++ error_toString e)%string)
                   end).
Proof.
  unfold placeBet, bind at 1. rewrite getChainId_run.
  destruct (network_chainId W) as [c|] eqn:Hc.
  2:{ intros [= <- <-]. exists []. split.
      - unfold log. rewrite app_nil_r. destruct s; reflexivity.
      - left. split; [intros tx []| discriminate]. }
  destruct (String.eqb c "") eqn:Hne.
  { intros [= <- <-]. exists []. split.
    - unfold log. rewrite app_nil_r. destruct s; reflexivity.
    - left. split; [intros tx []| discriminate]. }
  assert (Hchain : chain_is L W (Number_of_chainId L c)) by (exists c; auto).
  set (cid := Number_of_chainId L c) in *.
  unfold bind at 1. rewrite (getBetRequirements_run _ _ _ _ _ Hchain).
  destruct (read_betRequirements W (address (betToken params)) mult cid)
    as [e|raw] eqn:Hr; [stops_early|].
  set (req := parseRawBetRequirements L raw (betToken params) mult game cid).
  destruct (isAllowed req) eqn:Ha; cbn [negb]; [|stops_early].
  destruct (betAmount params >? maxBetAmount req) eqn:Hamt; [stops_early|].
  destruct (betCount params >? maxBetCount req) eqn:Hcnt; [stops_early|].
  assert (Hmet : requirements_met req params).
  { rewrite Z.gtb_ltb in Hamt, Hcnt. apply Z.ltb_ge in Hamt, Hcnt.
    repeat split; auto. }
  unfold try_catch, getChainlinkVrfCost, bind at 1, bind at 1.
  rewrite (getChainId_chain_is _ _ Hchain).
  unfold try_catch, fetch_vrfFees, bind, emit, lift, sendTransaction.
  fold (vrf_query L game params cid).
  destruct (api_vrfFees W (vrf_query L game params cid)) as [e|resp] eqn:Hapi;
    [cbn; stops_early|].
  cbn. destruct (ok resp) eqn:Hok; cbn; [|stops_early].
  destruct (json_BigInt resp) as [e|fee] eqn:Hjson; cbn; [stops_early|].
  fold (placeBet_functionData L game input params cid).
  fold (placeBet_transaction L game input params cid (bigint_div (fee * 120) 100)).
  destruct (wallet_sendTransaction W
              (placeBet_transaction L game input params cid
                 (bigint_div (fee * 120) 100))) as [e|h] eqn:Hsend;
    cbn; intros [= <- <-];
    (eexists; split; [unfold log; cbn; rewrite <- ?app_assoc; reflexivity|]);
    right; exists cid, raw, resp, fee; rewrite Hsend;
    repeat split; try assumption; apply Hmet.
Qed.

Lemma placeBet_footprint game input mult params :
  emits_only
    (fun ev => match ev with
               | EvSendTransaction tx =>
                   exists cid vrfCost,
                     tx = placeBet_transaction L game input params cid vrfCost
               | _ => True
               end)
    (placeBet L W game input mult params).
Proof.
  intros s out s' H. apply placeBet_run in H as (evs & -> & Hcase).
  exists evs. split; [reflexivity|].
  destruct Hcase
    as [[Hno _] | (cid & raw & resp & fee & _ & _ & _ & _ & _ & _ & -> & _)].
  - apply Forall_forall. intros [] Hin; try exact I. destruct (Hno _ Hin).
  - repeat constructor. eauto.
Qed.

End PlaceBet.

(* ================================================================== *)
(** * Token resolution *)
(* ================================================================== *)

Section Tokens.
Import Schemas Sdk Effects Betswirl Placement.
Context (L : Library) (W : World).

Lemma getCasinoTokens_run cid s :
  chain_is L W cid ->
  getCasinoTokens L W s
  = (match read_casinoTokens W cid with
     | inr raws => Returns (casinoTokens_of L cid raws)
     | inl e => Throws e
     end, log s [tokens_read cid]).
Proof.
  intros Hc. unfold getCasinoTokens, bind at 1.
  rewrite (getChainId_chain_is _ _ _ _ Hc).
  unfold readContract_casinoTokens, bind, emit, lift.
  destruct (read_casinoTokens W cid); reflexivity.
Qed.

Lemma getBetToken_native cid chain sym s :
  chain_is L W cid -> casinoChainById L cid = Some chain ->
  truthy sym = false \/ sym = Some (nc_symbol (viemChain_nativeCurrency chain)) ->
  getBetToken L W sym s
  = (Returns (chainNativeCurrencyToToken L (viemChain_nativeCurrency chain)), s).
Proof.
  intros Hc Hchain Hsym. unfold getBetToken, bind at 1.
  rewrite (getChainId_chain_is _ _ _ _ Hc), Hchain.
  destruct sym as [input|]; [|reflexivity].
  destruct Hsym as [Hf | [= ->]].
  - rewrite Hf. reflexivity.
  - rewrite String.eqb_refl, andb_false_r. reflexivity.
Qed.

Lemma getBetToken_lookup cid chain input raws s :
  chain_is L W cid -> casinoChainById L cid = Some chain ->
  input <> "" -> input <> nc_symbol (viemChain_nativeCurrency chain) ->
  read_casinoTokens W cid = inr raws ->
  getBetToken L W (Some input) s
  = (match
       find (fun t => String.eqb (symbol t) input) (casinoTokens_of L cid raws)
     with
     | Some t => Returns t
     | None => Throws (unknown_token_error (casinoTokens_of L cid raws))
     end, log s [tokens_read cid]).
Proof.
  intros Hc Hchain Hne Hnat Hr. unfold getBetToken, bind at 1.
  rewrite (getChainId_chain_is _ _ _ _ Hc), Hchain.
  apply String.eqb_neq in Hne, Hnat. cbn [truthy].
  rewrite Hne, Hnat. cbn [negb andb].
  unfold bind. rewrite (getCasinoTokens_run _ _ Hc), Hr.
  destruct (find _ _); reflexivity.
Qed.

Lemma casinoTokens_of_listed cid raws t :
  In t (casinoTokens_of L cid raws) ->
  exists rawToken, In rawToken raws
    /\ raw_token_allowed rawToken = true
    /\ raw_token_paused rawToken = false
    /\ t = token_of_raw L cid rawToken.
Proof.
  unfold casinoTokens_of. rewrite in_map_iff.
  intros (r & <- & Hin). apply filter_In in Hin as [Hin Hl].
  unfold listed in Hl. apply andb_true_iff in Hl as [Ha Hp].
  apply negb_true_iff in Hp. exists r. auto.
Qed.

Lemma getBetToken_footprint sym :
  emits_only (fun ev => exists cid, ev = tokens_read cid) (getBetToken L W sym).
Proof.
  unfold getBetToken, getCasinoTokens, readContract_casinoTokens, getChainId.
  footprint; eexists; reflexivity.
Qed.

End Tokens.

(* ================================================================== *)
(** * The polling loop *)
(* ================================================================== *)

Section Poll.
Import Schemas Sdk Effects Betswirl Polling.
Context (L : Library) (W : World) (txHash : Hex) (cid : ChainId)
        (key : option string).

Lemma poll_settled fuel start bd st :
  pending bd = false ->
  poll W fuel txHash cid key start bd st = (Returns bd, st).
Proof. intros H. destruct fuel; simpl; rewrite H; reflexivity. Qed.

Lemma has_error_not_pending bd : has_error bd = true -> pending bd = false.
Proof.
  unfold has_error, pending. destruct (error bd); [|discriminate].
  intros _. apply andb_false_r.
Qed.

(** A turn whose deadline test passes: the timer, the lookup, and the
    loop goes on with the new report, or throws the lookup's rejection. *)
Lemma poll_turn fuel start bd st :
  pending bd = true -> clock st - start < timeout ->
  poll W (S fuel) txHash cid key start bd st
  = resume W txHash cid key fuel start
      (indexer_fetchBetByHash W (lookups st) txHash (later_options cid key))
      (turn W txHash cid key st).
Proof.
  intros Hp Ht. cbn [poll]. rewrite Hp.
  unfold bind at 1. unfold Date_now.
  replace (timeout <=? clock st - start) with false
    by (symmetry; apply Z.leb_gt; exact Ht).
  unfold bind at 1. unfold sleep. unfold bind at 1. unfold fetchBetByHash.
  cbn [trace clock lookups timers].
  fold (later_options cid key).
  assert (Est :
    {| trace := (trace st ++ [EvSetTimeout 1000])
                ++ [EvFetchBetByHash txHash (later_options cid key)];
       clock := clock st + 1000 + Z.of_N (timer_overrun W (timers st))
                + Z.of_N (fetch_latency W (lookups st));
       lookups := S (lookups st);
       timers := S (timers st) |} = turn W txHash cid key st).
  { unfold turn. rewrite <- app_assoc. reflexivity. }
  rewrite Est.
  destruct (indexer_fetchBetByHash W (lookups st) txHash
              (later_options cid key)) as [e|bd']; cbn [resume];
    [reflexivity|].
  destruct (has_error bd') eqn:He; [|reflexivity].
  rewrite (poll_settled _ _ _ _ (has_error_not_pending _ He)). reflexivity.
Qed.

Lemma poll_timeout fuel start bd st :
  pending bd = true -> timeout <= clock st - start ->
  poll W (S fuel) txHash cid key start bd st = (Throws timeout_failure, st).
Proof.
  intros Hp Ht. cbn [poll]. rewrite Hp. unfold bind, Date_now.
  replace (timeout <=? clock st - start) with true
    by (symmetry; apply Z.leb_le; exact Ht).
  reflexivity.
Qed.

Context (s : State).

Lemma poll_unroll k : forall fuel,
  polled W txHash cid key s k ->
  resume W txHash cid key (k + fuel)
    (clock (first_lookup W txHash cid key s))
    (report W txHash cid key s 0) (first_lookup W txHash cid key s)
  = resume W txHash cid key fuel (clock (first_lookup W txHash cid key s))
      (report W txHash cid key s k) (state_at W txHash cid key s k).
Proof.
  induction k as [|k IH]; intros fuel Hp; [reflexivity|].
  replace (S k + fuel)%nat with (k + S fuel)%nat by lia.
  rewrite IH by (intros j Hj; apply Hp; lia).
  destruct (Hp k (Nat.lt_succ_diag_r k)) as [(bd & Hr & Hpend) Hel].
  rewrite Hr. cbn [resume].
  rewrite poll_turn; [reflexivity | exact Hpend | exact Hel].
Qed.

Lemma clock_after_turns k st :
  clock st + 1000 * Z.of_nat k <= clock (after_turns W txHash cid key k st).
Proof.
  induction k as [|k IH]; [simpl; lia|].
  cbn [after_turns turn clock]. lia.
Qed.

(** Every turn takes a second at least. *)
Lemma elapsed_lower_bound k :
  1000 * Z.of_nat k <= elapsed W txHash cid key s k.
Proof.
  unfold elapsed, state_at.
  pose proof (clock_after_turns k (first_lookup W txHash cid key s)). lia.
Qed.

Lemma elapsed_monotone j k :
  (j <= k)%nat ->
  elapsed W txHash cid key s j <= elapsed W txHash cid key s k.
Proof.
  induction 1 as [|k Hle IH]; [lia|].
  etransitivity; [exact IH|]. unfold elapsed, state_at.
  cbn [after_turns turn clock]. lia.
Qed.

(** The loop never gets further than the 60th turn. *)
Lemma polled_bound k : polled W txHash cid key s k -> (k <= 60)%nat.
Proof.
  intros Hp. destruct k as [|k]; [lia|].
  destruct (Hp k (Nat.lt_succ_diag_r k)) as [_ Hel].
  pose proof (elapsed_lower_bound k). unfold timeout in Hel. lia.
Qed.

Lemma reported_in_time_polled k :
  (forall j, (j < k)%nat ->
     exists bd, report W txHash cid key s j = inr bd /\ pending bd = true) ->
  elapsed W txHash cid key s k < timeout ->
  polled W txHash cid key s k.
Proof.
  intros Hp Ht j Hj. split; [auto|].
  pose proof (elapsed_monotone j k). lia.
Qed.

Lemma lookups_state_at k :
  lookups (state_at W txHash cid key s k) = S (lookups s + k).
Proof.
  unfold state_at. induction k as [|k IH]; cbn [after_turns turn lookups].
  - cbn. lia.
  - rewrite IH. lia.
Qed.

Lemma timers_state_at k :
  timers (state_at W txHash cid key s k) = (timers s + k)%nat.
Proof.
  unfold state_at. induction k as [|k IH]; cbn [after_turns turn timers].
  - cbn. lia.
  - rewrite IH. lia.
Qed.

Lemma trace_state_at k :
  trace (state_at W txHash cid key s k)
  = trace s ++ EvFetchBetByHash txHash (first_options cid key)
      :: List.concat
           (repeat [EvSetTimeout 1000;
                    EvFetchBetByHash txHash (later_options cid key)] k).
Proof.
  unfold state_at. induction k as [|k IH]; cbn [after_turns turn trace].
  - reflexivity.
  - rewrite IH. rewrite <- app_assoc. f_equal. cbn [app]. f_equal.
    change (S k) with (1 + k)%nat. rewrite Nat.add_comm, repeat_app, concat_app.
    reflexivity.
Qed.

(** Some lookup rejects, some report settles the call, or the deadline
    passes, and that within 61 lookups. *)
Lemma poll_ends :
  exists k, (k <= 60)%nat /\ polled W txHash cid key s k
    /\ ((exists e, report W txHash cid key s k = inl e)
        \/ exists bd, report W txHash cid key s k = inr bd
             /\ (pending bd = false
                 \/ timeout <= elapsed W txHash cid key s k)).
Proof.
  assert (Hstep : forall n,
    polled W txHash cid key s n ->
    ((exists e, report W txHash cid key s n = inl e)
     \/ exists bd, report W txHash cid key s n = inr bd
          /\ (pending bd = false \/ timeout <= elapsed W txHash cid key s n))
    \/ polled W txHash cid key s (S n)).
  { intros n Hpol.
    destruct (report W txHash cid key s n) as [e|bd] eqn:Hr;
      [left; left; eauto|].
    destruct (pending bd) eqn:Hp; [|left; right; eauto].
    destruct (Z_lt_le_dec (elapsed W txHash cid key s n) timeout)
      as [Hlt|Hge]; [|left; right; eauto].
    right. intros j Hj.
    destruct (Nat.eq_dec j n) as [->|Hne]; [|apply Hpol; lia].
    split; [eauto | exact Hlt]. }
  assert (H : forall n,
    (exists k, (k <= n)%nat /\ polled W txHash cid key s k
      /\ ((exists e, report W txHash cid key s k = inl e)
          \/ exists bd, report W txHash cid key s k = inr bd
               /\ (pending bd = false
                   \/ timeout <= elapsed W txHash cid key s k)))
    \/ polled W txHash cid key s (S n)).
  { induction n as [|n IH].
    - assert (H0 : polled W txHash cid key s 0) by (intros j Hj; lia).
      destruct (Hstep 0%nat H0) as [Hend | Hpol]; [|right; exact Hpol].
      left. exists 0%nat. split; [lia|]. split; assumption.
    - destruct IH as [(k & Hk & Hpk & Hend) | Hpol].
      + left. exists k. split; [lia|]. split; assumption.
      + destruct (Hstep (S n) Hpol) as [Hend | Hpol']; [|right; exact Hpol'].
        left. exists (S n). split; [lia|]. split; assumption. }
  destruct (H 60%nat) as [Hk | Hpol]; [exact Hk|].
  apply polled_bound in Hpol. lia.
Qed.

Lemma getBet_with_run fuel :
  chain_is L W cid ->
  getBet_with L W fuel txHash key s
  = conclude L txHash cid
      (resume W txHash cid key fuel
         (clock (first_lookup W txHash cid key s))
         (report W txHash cid key s 0)
         (first_lookup W txHash cid key s)).
Proof.
  intros Hc. unfold getBet_with, bind at 1.
  rewrite (getChainId_chain_is _ _ _ _ Hc).
  unfold try_catch, bind at 1, fetchBetByHash.
  fold (first_options cid key). fold (later_options cid key).
  change {| trace := trace s ++ [EvFetchBetByHash txHash (first_options cid key)];
            clock := clock s + Z.of_N (fetch_latency W (lookups s));
            lookups := S (lookups s); timers := timers s |}
    with (first_lookup W txHash cid key s).
  change (indexer_fetchBetByHash W (lookups s) txHash (first_options cid key))
    with (report W txHash cid key s 0).
  destruct (report W txHash cid key s 0) as [e|bd0]; cbn [resume];
    [reflexivity|].
  unfold bind at 1, Date_now. unfold bind at 1.
  destruct (poll W fuel txHash cid key _ _ _) as [[bd|e|] st]; cbn [conclude];
    try reflexivity.
  destruct (error bd) as [e|]; [reflexivity|].
  destruct (bet bd); reflexivity.
Qed.

(** A lookup that rejects ends the call: the rejection is thrown,
    wrapped. *)
Lemma getBet_rejected k e :
  chain_is L W cid -> polled W txHash cid key s k ->
  report W txHash cid key s k = inl e ->
  getBet L W txHash key s
  = (Throws (getBet_failure e), state_at W txHash cid key s k).
Proof.
  intros Hc Hp Hr. unfold getBet. rewrite (getBet_with_run _ Hc).
  pose proof (polled_bound _ Hp) as Hk.
  change poll_budget with 61%nat.
  replace 61%nat with (k + (61 - k))%nat by lia.
  rewrite (poll_unroll k _ Hp), Hr. reflexivity.
Qed.

Lemma getBet_settled k bd :
  chain_is L W cid -> polled W txHash cid key s k ->
  report W txHash cid key s k = inr bd ->
  pending bd = false ->
  getBet L W txHash key s
  = conclude L txHash cid (Returns bd, state_at W txHash cid key s k).
Proof.
  intros Hc Hp Hr Hs. unfold getBet. rewrite (getBet_with_run _ Hc).
  pose proof (polled_bound _ Hp) as Hk.
  change poll_budget with 61%nat.
  replace 61%nat with (k + (61 - k))%nat by lia.
  rewrite (poll_unroll k _ Hp), Hr. cbn [resume].
  rewrite poll_settled by exact Hs. reflexivity.
Qed.

Lemma getBet_resolved k bd b :
  chain_is L W cid -> polled W txHash cid key s k ->
  report W txHash cid key s k = inr bd ->
  bet bd = Some b -> bet_isResolved b = true -> error bd = None ->
  getBet L W txHash key s
  = (Returns (toBetDetails L cid b), state_at W txHash cid key s k).
Proof.
  intros Hc Hp Hrep Hb Hr He. rewrite (getBet_settled k bd Hc Hp Hrep).
  - cbn [conclude]. rewrite He, Hb. reflexivity.
  - unfold pending. rewrite Hb, Hr. reflexivity.
Qed.

Lemma getBet_indexer_error k bd e :
  chain_is L W cid -> polled W txHash cid key s k ->
  report W txHash cid key s k = inr bd ->
  error bd = Some e ->
  getBet L W txHash key s
  = (Throws (getBet_failure (indexer_failure e)),
     state_at W txHash cid key s k).
Proof.
  intros Hc Hp Hrep He. rewrite (getBet_settled k bd Hc Hp Hrep).
  - cbn [conclude]. rewrite He. reflexivity.
  - unfold pending. rewrite He. apply andb_false_r.
Qed.

Lemma getBet_deadline k bd :
  chain_is L W cid -> polled W txHash cid key s k ->
  report W txHash cid key s k = inr bd ->
  pending bd = true ->
  timeout <= elapsed W txHash cid key s k ->
  getBet L W txHash key s
  = (Throws (getBet_failure timeout_failure), state_at W txHash cid key s k).
Proof.
  intros Hc Hp Hrep Hpend Ht. unfold getBet. rewrite (getBet_with_run _ Hc).
  pose proof (polled_bound _ Hp) as Hk.
  change poll_budget with 61%nat.
  replace 61%nat with (k + S (60 - k))%nat by lia.
  rewrite (poll_unroll k _ Hp), Hrep. cbn [resume].
  rewrite poll_timeout; [reflexivity | exact Hpend | exact Ht].
Qed.

End Poll.

Section Budget.
Import Schemas Sdk Effects Betswirl Polling.
Context (L : Library) (W : World) (txHash : Hex) (key : option string)
        (s : State).

Lemma conclude_not_exhausted cid bd st :
  fst (conclude L txHash cid (Returns bd, st)) <> Exhausted.
Proof.
  cbn [conclude fst]. destruct (error bd); [discriminate|].
  destruct (bet bd); discriminate.
Qed.

(** The budget of [getBet] is never used up: any larger budget gives the
    same run, and the run ends by returning or throwing. *)
Lemma getBet_budget_is_enough fuel :
  (poll_budget <= fuel)%nat ->
  getBet_with L W fuel txHash key s = getBet L W txHash key s
  /\ fst (getBet L W txHash key s) <> Exhausted.
Proof.
  intros Hfuel. change poll_budget with 61%nat in Hfuel.
  destruct (network_chainId W) as [c|] eqn:Hc.
  2:{ unfold getBet, getBet_with, bind. rewrite !getChainId_run, Hc.
      split; [reflexivity | discriminate]. }
  destruct (String.eqb c "") eqn:Hne.
  { unfold getBet, getBet_with, bind. rewrite !getChainId_run, Hc, Hne.
    split; [reflexivity | discriminate]. }
  assert (Hchain : chain_is L W (Number_of_chainId L c)) by (exists c; auto).
  set (cid := Number_of_chainId L c) in *.
  destruct (poll_ends W txHash cid key s) as (k & Hk & Hp & Hend).
  unfold getBet. rewrite !(getBet_with_run L W txHash cid key s _ Hchain).
  change poll_budget with 61%nat.
  destruct Hend as [(e & Hr) | (bd & Hr & Hend)].
  - replace fuel with (k + (fuel - k))%nat by lia.
    replace 61%nat with (k + (61 - k))%nat by lia.
    rewrite !(poll_unroll W txHash cid key s k _ Hp), Hr.
    split; [reflexivity | discriminate].
  - destruct (pending bd) eqn:Hpend.
    + destruct Hend as [Hs | Ht]; [discriminate|].
      replace fuel with (k + S (fuel - k - 1))%nat by lia.
      replace 61%nat with (k + S (60 - k))%nat by lia.
      rewrite !(poll_unroll W txHash cid key s k _ Hp), Hr. cbn [resume].
      rewrite !poll_timeout by assumption.
      split; [reflexivity | discriminate].
    + replace fuel with (k + (fuel - k))%nat by lia.
      replace 61%nat with (k + (61 - k))%nat by lia.
      rewrite !(poll_unroll W txHash cid key s k _ Hp), Hr. cbn [resume].
      rewrite !poll_settled by assumption.
      split; [reflexivity | apply conclude_not_exhausted].
Qed.

End Budget.

(* ================================================================== *)
(** * The actions *)
(* ================================================================== *)

Section Actions.
Import Schemas Sdk Effects Betswirl Placement Polling.
Context (L : Library) (W : World) (key : option string).

Lemma game_action_shape Sel game act :
  game_action L W key Sel game act ->
  exists encodeInput getMultiplier,
    act = Provider.placeGameBet L W key game encodeInput getMultiplier.
Proof.
  intros []; [exists (CoinToss_encodeInput L), (CoinToss_getMultiplier L)
             | exists (Dice_encodeInput L), (Dice_getMultiplier L)
             | exists (Roulette_encodeInput L), (Roulette_getMultiplier L)];
    reflexivity.
Qed.

Lemma emits_sleep (P : Event -> Prop) ms :
  P (EvSetTimeout ms) -> emits_only P (sleep W ms).
Proof. intros H s out s' [= <- <-]. exists [EvSetTimeout ms]. cbn. auto. Qed.

Lemma emits_fetchBetByHash (P : Event -> Prop) h o :
  P (EvFetchBetByHash h o) -> emits_only P (fetchBetByHash W h o).
Proof.
  intros H s out s' [= <- <-]. exists [EvFetchBetByHash h o]. cbn. auto.
Qed.

Lemma poll_footprint (P : Event -> Prop) fuel h cid start :
  (forall ms, P (EvSetTimeout ms)) -> (forall o, P (EvFetchBetByHash h o)) ->
  forall bd, emits_only P (poll W fuel h cid key start bd).
Proof.
  intros Hs Hf. induction fuel as [|fuel IH]; intros bd; cbn [poll].
  - footprint.
  - destruct (pending bd); [|footprint].
    apply emits_bind; [footprint|]. intros t.
    destruct (timeout <=? t - start); [footprint|].
    apply emits_bind; [apply emits_sleep, Hs|]. intros _.
    apply emits_bind; [apply emits_fetchBetByHash, Hf|]. intros bd'.
    destruct (has_error bd'); [footprint | apply IH].
Qed.

(** [getBet] looks up and waits, nothing else. *)
Lemma getBet_footprint (P : Event -> Prop) h :
  (forall ms, P (EvSetTimeout ms)) -> (forall o, P (EvFetchBetByHash h o)) ->
  emits_only P (getBet L W h key).
Proof.
  intros Hs Hf. unfold getBet, getBet_with.
  apply emits_bind; [apply getChainId_silent|]. intros cid.
  apply emits_try_catch; [|intros e; footprint].
  apply emits_bind; [apply emits_fetchBetByHash, Hf|]. intros bd0.
  apply emits_bind; [footprint|]. intros start.
  apply emits_bind; [apply poll_footprint; auto|]. intros bd.
  footprint.
Qed.

Lemma checkLiveGame_footprint game :
  emits_only
    (fun ev => exists cid, ev = EvReadContract (GamePausedCall game cid))
    (checkLiveGame L W game).
Proof.
  unfold checkLiveGame, readContract_gamePaused, getChainId.
  footprint; eexists; reflexivity.
Qed.

Lemma getBetAmountInWei_silent P amount tok :
  emits_only P (getBetAmountInWei L amount tok).
Proof. unfold getBetAmountInWei. footprint. Qed.

Lemma placeGameBet_sends_single_bets {Sel} game enc mult (args : BetArgs Sel) :
  emits_only (sends_single_bets L W)
    (Provider.placeGameBet L W key game enc mult args).
Proof.
  unfold Provider.placeGameBet.
  apply emits_bind.
  { eapply emits_only_weaken; [|apply checkLiveGame_footprint].
    intros ev (cid & ->). exact I. }
  intros _. apply emits_bind.
  { eapply emits_only_weaken; [|apply getBetToken_footprint].
    intros ev (cid & ->). exact I. }
  intros tok. apply emits_bind; [apply getBetAmountInWei_silent|].
  intros amount. apply emits_bind.
  { eapply emits_only_weaken; [|apply placeBet_footprint].
    intros [] H; try exact I. destruct H as (cid & vrf & ->).
    eexists _, cid, vrf. cbn zeta. split; [reflexivity|]. cbn. auto. }
  intros h. apply getBet_footprint; intros; exact I.
Qed.

Lemma placeGameBet_nonpositive_amount {Sel} game enc mult (args : BetArgs Sel)
    s paused s1 tok s2 v :
  checkLiveGame L W game s = (Returns paused, s1) ->
  getBetToken L W (token args) s1 = (Returns tok, s2) ->
  parseUnits L (Schemas.betAmount args) (decimals tok) = inr v ->
  v <= 0 ->
  Provider.placeGameBet L W key game enc mult args s
  = (Throws amount_failure, s2)
  /\ exists evs, trace s2 = trace s ++ evs /\ Forall (resolution_read game) evs.
Proof.
  intros H1 H2 Hv Hle. split.
  - unfold Provider.placeGameBet.
    unfold bind at 1. rewrite H1. unfold bind at 1. rewrite H2.
    unfold bind at 1. unfold getBetAmountInWei, bind, lift. rewrite Hv.
    cbn [ret].
    replace (v <=? 0) with true by (symmetry; apply Z.leb_le; exact Hle).
    reflexivity.
  - destruct (checkLiveGame_footprint game _ _ _ H1) as (e1 & T1 & F1).
    destruct (getBetToken_footprint L W (token args) _ _ _ H2)
      as (e2 & T2 & F2).
    exists (e1 ++ e2). rewrite T2, T1, app_assoc. split; [reflexivity|].
    apply Forall_app. split.
    + eapply Forall_impl; [|exact F1]. intros ev (cid & ->). exists cid. auto.
    + eapply Forall_impl; [|exact F2]. intros ev (cid & ->). exists cid. auto.
Qed.

End Actions.

(* ================================================================== *)
(** * The requirement gate and the fee margin *)
(* ================================================================== *)

Section PlaceBetClaims.
Import Schemas Sdk Effects Betswirl Placement.

(** C1.  Whatever the world, [placeBet] submits a transaction only after
    it has read the bet requirements and found them met: a run that
    contains a submission is the requirements read, the fee request and
    the submission, in this order.  When the requirements read answers,
    a disallowed token, an amount above the maximum and a count above the
    maximum each make [placeBet] throw the error of that test, right
    after the read: the final trace holds the read and nothing more, so
    [sendTransaction] was not called. *)
Theorem placeBet_checks_requirements_first (L : Library) (W : World)
    (game : CASINO_GAME_TYPE) (input : GameEncodedInput) (multiplier : Z)
    (params : CasinoGameParams) (s : State) :
  (forall out s',
      placeBet L W game input multiplier params s = (out, s') ->
      exists evs, s' = log s evs /\
        forall tx, In (EvSendTransaction tx) evs ->
          exists chainId raw query,
            evs = [requirements_read params multiplier chainId;
                   EvFetchVrfFees query; EvSendTransaction tx]
            /\ read_betRequirements W (address (betToken params)) multiplier
                 chainId = inr raw
            /\ requirements_met
                 (parseRawBetRequirements L raw (betToken params) multiplier
                    game chainId) params)
  /\ (forall chainId raw,
        chain_is L W chainId ->
        read_betRequirements W (address (betToken params)) multiplier chainId
        = inr raw ->
        let req :=
          parseRawBetRequirements L raw (betToken params) multiplier game
            chainId in
        let s1 := log s [requirements_read params multiplier chainId] in
        (isAllowed req = false ->
         placeBet L W game input multiplier params s
         = (Throws (Error "The token isn't allowed for betting"), s1))
        /\ (isAllowed req = true -> betAmount params > maxBetAmount req ->
            placeBet L W game input multiplier params s
            = (Throws (Error ("Bet amount should be less than "
                              ++ bigint_toString (maxBetAmount req))%string),
               s1))
        /\ (isAllowed req = true -> betAmount params <= maxBetAmount req ->
            betCount params > maxBetCount req ->
            placeBet L W game input multiplier params s
            = (Throws (Error ("Bet count should be less than "
                              ++ bigint_toString (maxBetCount req))%string),
               s1))).
Proof.
  split.
  - intros out s' H. apply placeBet_run in H as (evs & -> & Hcase).
    exists evs. split; [reflexivity|]. intros tx Hin.
    destruct Hcase
      as [[Hno _] | (cid & raw & resp & fee & _ & Hr & Hmet & _ & _ & _ & -> & _)].
    + destruct (Hno _ Hin).
    + exists cid, raw, (vrf_query L game params cid).
      destruct Hin as [Hin | [Hin | [Hin | []]]]; try discriminate.
      injection Hin as <-. auto.
  - intros chainId raw Hc Hr. exact (placeBet_rejects L W _ _ _ _ _ _ s Hc Hr).
Qed.

(** In the calm world the maximum is 5 ETH: a bet of 9 ETH is refused
    after the one read, and so is a bet that asks for 11 rounds. *)
Lemma placeBet_checks_requirements_first_witness :
  placeBet Scenario.library Scenario.calm COINTOSS 1 19400
    (Scenario.params (9 * 10 ^ 18) 1) (initial 0)
  = (Throws (Error "Bet amount should be less than 5000000000000000000"),
     log (initial 0)
       [EvReadContract (BetRequirementsCall Scenario.zeroAddress 19400 8453)])
  /\ placeBet Scenario.library Scenario.calm COINTOSS 1 19400
       (Scenario.params (10 ^ 18) 11) (initial 0)
     = (Throws (Error "Bet count should be less than 10"),
        log (initial 0)
          [EvReadContract (BetRequirementsCall Scenario.zeroAddress 19400 8453)]).
Proof.
  assert (Hc : chain_is Scenario.library Scenario.calm 8453).
  { exists "8453". repeat split. }
  split.
  - refine (proj1 (proj2
             (proj2 (placeBet_checks_requirements_first Scenario.library
                       Scenario.calm COINTOSS 1 19400
                       (Scenario.params (9 * 10 ^ 18) 1) (initial 0))
                8453 Scenario.requirements Hc eq_refl)) eq_refl _).
    vm_compute. reflexivity.
  - refine (proj2 (proj2
             (proj2 (placeBet_checks_requirements_first Scenario.library
                       Scenario.calm COINTOSS 1 19400
                       (Scenario.params (10 ^ 18) 11) (initial 0))
                8453 Scenario.requirements Hc eq_refl)) eq_refl _ _).
    + vm_compute. discriminate.
    + vm_compute. reflexivity.
Defined.

(** C7.  When [placeBet] returns a hash, the run is the requirements
    read, the fee request and one submission, and the value of the
    submitted transaction is the SDK's [getValue] applied to the fee the
    API returned times 120, divided by 100 as [bigint] division does.  For
    a fee, which is not negative, that cost is floor(fee * 120 / 100): the
    largest integer whose hundredfold does not exceed 120 times the fee.
    (A [bigint] quotient is truncated toward zero, which is the floor
    from zero upward.) *)
Theorem placeBet_value_carries_fee_margin (L : Library) (W : World)
    (game : CASINO_GAME_TYPE) (input : GameEncodedInput) (multiplier : Z)
    (params : CasinoGameParams) (s : State) (hash : Hex) (s' : State) :
  placeBet L W game input multiplier params s = (Returns hash, s') ->
  exists chainId resp fee,
    chain_is L W chainId
    /\ api_vrfFees W (vrf_query L game params chainId) = inr resp
    /\ json_BigInt resp = inr fee
    /\ let vrfCost := Z.quot (fee * 120) 100 in
       let tx := placeBet_transaction L game input params chainId vrfCost in
       s' = log s [requirements_read params multiplier chainId;
                   EvFetchVrfFees (vrf_query L game params chainId);
                   EvSendTransaction tx]
       /\ wallet_sendTransaction W tx = inr hash
       /\ tx_value tx
          = extraData_getValue
              (placeBet_functionData L game input params chainId) vrfCost
       /\ (0 <= fee ->
           vrfCost = (fee * 120) / 100
           /\ 100 * vrfCost <= fee * 120 < 100 * (vrfCost + 1)).
Proof.
  intros H. apply placeBet_run in H as (evs & -> & Hcase).
  destruct Hcase
    as [[_ Hno] | (cid & raw & resp & fee & Hc & _ & _ & Hapi & _ & Hjson & -> & Hout)].
  - destruct (Hno hash eq_refl).
  - exists cid, resp, fee. repeat split; try assumption.
    + unfold bigint_div in Hout.
      destruct (wallet_sendTransaction W _) as [e|h]; [discriminate|].
      injection Hout as ->. reflexivity.
    + apply Z.quot_div_nonneg; lia.
    + rewrite Z.quot_div_nonneg by lia.
      pose proof (Z.div_mod (fee * 120) 100 ltac:(lia)).
      pose proof (Z.mod_pos_bound (fee * 120) 100 ltac:(lia)). lia.
    + rewrite Z.quot_div_nonneg by lia.
      pose proof (Z.div_mod (fee * 120) 100 ltac:(lia)).
      pose proof (Z.mod_pos_bound (fee * 120) 100 ltac:(lia)). lia.
Qed.

(** In the calm world the API answers 1000: the value is the wager of
    one ETH plus 1200. *)
Lemma placeBet_value_carries_fee_margin_witness :
  exists chainId resp fee,
    chain_is Scenario.library Scenario.calm chainId
    /\ api_vrfFees Scenario.calm
         (vrf_query Scenario.library COINTOSS (Scenario.params (10 ^ 18) 1)
            chainId) = inr resp
    /\ json_BigInt resp = inr fee
    /\ let vrfCost := Z.quot (fee * 120) 100 in
       let tx :=
         placeBet_transaction Scenario.library COINTOSS 1
           (Scenario.params (10 ^ 18) 1) chainId vrfCost in
       snd (placeBet Scenario.library Scenario.calm COINTOSS 1 19400
              (Scenario.params (10 ^ 18) 1) (initial 0))
       = log (initial 0)
           [requirements_read (Scenario.params (10 ^ 18) 1) 19400 chainId;
            EvFetchVrfFees
              (vrf_query Scenario.library COINTOSS
                 (Scenario.params (10 ^ 18) 1) chainId);
            EvSendTransaction tx]
       /\ wallet_sendTransaction Scenario.calm tx = inr "0xbet"
       /\ tx_value tx
          = extraData_getValue
              (placeBet_functionData Scenario.library COINTOSS 1
                 (Scenario.params (10 ^ 18) 1) chainId) vrfCost
       /\ (0 <= fee ->
           vrfCost = (fee * 120) / 100
           /\ 100 * vrfCost <= fee * 120 < 100 * (vrfCost + 1)).
Proof.
  apply (placeBet_value_carries_fee_margin Scenario.library Scenario.calm
           COINTOSS 1 19400 (Scenario.params (10 ^ 18) 1) (initial 0) "0xbet").
  vm_compute. reflexivity.
Defined.

End PlaceBetClaims.

(* ================================================================== *)
(** * The bet token *)
(* ================================================================== *)

Section TokenClaims.
Import Schemas Sdk Effects Betswirl Placement.

(** C6 (as amended).  On a chain the SDK knows: when the symbol is
    absent, empty, or the chain's native symbol, [getBetToken] returns
    the native token and adds no event, so the list is not read.  For any
    other symbol it reads the list once, returns the first listed token
    whose symbol equals the input, a token that is on the list, and when
    there is none it throws "The token must be one of" followed by the
    symbols of every token of the list read, comma separated. *)
Theorem getBetToken_resolution (L : Library) (W : World) (chainId : ChainId)
    (chain : CasinoChain) (s : State) :
  chain_is L W chainId ->
  casinoChainById L chainId = Some chain ->
  let native := viemChain_nativeCurrency chain in
  (forall tokenSymbolInput,
      truthy tokenSymbolInput = false
      \/ tokenSymbolInput = Some (nc_symbol native) ->
      getBetToken L W tokenSymbolInput s
      = (Returns (chainNativeCurrencyToToken L native), s))
  /\ (forall input raws,
        input <> "" -> input <> nc_symbol native ->
        read_casinoTokens W chainId = inr raws ->
        let casinoTokens := casinoTokens_of L chainId raws in
        getBetToken L W (Some input) s
        = (match find (fun t => String.eqb (symbol t) input) casinoTokens with
           | Some t => Returns t
           | None =>
               Throws (Error ("The token must be one of "
                              ++ String.concat ", " (map symbol casinoTokens))%string)
           end, log s [tokens_read chainId])
        /\ (forall t,
              find (fun t => String.eqb (symbol t) input) casinoTokens = Some t ->
              In t casinoTokens /\ symbol t = input)
        /\ (find (fun t => String.eqb (symbol t) input) casinoTokens = None ->
            forall t, In t casinoTokens -> symbol t <> input)).
Proof.
  intros Hc Hchain native. split.
  - intros sym Hsym. exact (getBetToken_native L W _ _ _ s Hc Hchain Hsym).
  - intros input raws Hne Hnat Hr casinoTokens. split; [|split].
    + exact (getBetToken_lookup L W _ _ _ _ s Hc Hchain Hne Hnat Hr).
    + intros t Ht. apply find_some in Ht as [Hin Heq].
      apply String.eqb_eq in Heq. auto.
    + intros Hnone t Hin Heq.
      pose proof (find_none _ _ Hnone t Hin) as Hf. cbv beta in Hf.
      rewrite Heq, String.eqb_refl in Hf. discriminate.
Qed.

(** In the calm world: ETH and the empty symbol give the native token
    with no read; DEGEN, which the casino does not allow, is refused
    with the list of symbols. *)
Lemma getBetToken_resolution_witness :
  getBetToken Scenario.library Scenario.calm (Some "") (initial 0)
  = (Returns {| symbol := "ETH"; address := Scenario.zeroAddress;
                decimals := 18 |}, initial 0)
  /\ getBetToken Scenario.library Scenario.calm (Some "DEGEN") (initial 0)
     = (Throws (Error "The token must be one of USDC"),
        log (initial 0) [tokens_read 8453]).
Proof.
  assert (Hc : chain_is Scenario.library Scenario.calm 8453).
  { exists "8453". repeat split. }
  pose proof (getBetToken_resolution Scenario.library Scenario.calm 8453 _
                (initial 0) Hc eq_refl) as [Hnative Hlist].
  split.
  - apply (Hnative (Some "")). left. reflexivity.
  - refine (proj1 (Hlist "DEGEN" _ _ _ eq_refl)); discriminate.
Defined.

(** C6 as the specification words it fails on the empty symbol: it is a
    symbol that was supplied and it differs from ETH, yet the native
    token comes back and the list is not read. *)
Lemma empty_symbol_is_not_looked_up :
  ~ AsWritten.token_resolution Scenario.library Scenario.calm (Some "")
      (initial 0).
Proof.
  intros H.
  assert (Hc : chain_is Scenario.library Scenario.calm 8453).
  { exists "8453". repeat split. }
  destruct (H 8453 _ Hc eq_refl) as [_ Hlist].
  specialize (Hlist "" _ eq_refl ltac:(discriminate) eq_refl).
  vm_compute in Hlist. discriminate Hlist.
Qed.

(** C10 (as amended).  When the list read answers [raws]:
    [getCasinoTokens] returns the tokens of the raw records that are
    allowed and not paused, so every token returned comes from such a
    record; a token that [getBetToken] resolves from the list comes from
    such a record and carries the symbol asked for; a symbol whose
    on-chain tokens are all disallowed or paused does not resolve, the
    call throws the error that lists the symbols; and every symbol listed
    in that error is the symbol of an allowed, not paused record. *)
Theorem casino_tokens_are_allowed_and_live (L : Library) (W : World)
    (chainId : ChainId) (chain : CasinoChain) (raws : list RawCasinoToken) :
  chain_is L W chainId ->
  casinoChainById L chainId = Some chain ->
  read_casinoTokens W chainId = inr raws ->
  (forall s, getCasinoTokens L W s
             = (Returns (casinoTokens_of L chainId raws),
                log s [tokens_read chainId]))
  /\ (forall t, In t (casinoTokens_of L chainId raws) ->
        exists rawToken, In rawToken raws
          /\ raw_token_allowed rawToken = true
          /\ raw_token_paused rawToken = false
          /\ t = token_of_raw L chainId rawToken)
  /\ (forall input s t s',
        input <> "" ->
        input <> nc_symbol (viemChain_nativeCurrency chain) ->
        getBetToken L W (Some input) s = (Returns t, s') ->
        exists rawToken, In rawToken raws
          /\ raw_token_allowed rawToken = true
          /\ raw_token_paused rawToken = false
          /\ t = token_of_raw L chainId rawToken
          /\ symbol (rawTokenToToken L rawToken chainId) = input)
  /\ (forall input s,
        input <> "" ->
        input <> nc_symbol (viemChain_nativeCurrency chain) ->
        (forall rawToken, In rawToken raws ->
           symbol (rawTokenToToken L rawToken chainId) = input ->
           raw_token_allowed rawToken = false
           \/ raw_token_paused rawToken = true) ->
        getBetToken L W (Some input) s
        = (Throws (unknown_token_error (casinoTokens_of L chainId raws)),
           log s [tokens_read chainId]))
  /\ (forall sym, In sym (map symbol (casinoTokens_of L chainId raws)) ->
        exists rawToken, In rawToken raws
          /\ raw_token_allowed rawToken = true
          /\ raw_token_paused rawToken = false
          /\ symbol (rawTokenToToken L rawToken chainId) = sym).
Proof.
  intros Hc Hchain Hr. split; [|split; [|split; [|split]]].
  - intros s. rewrite (getCasinoTokens_run L W _ s Hc), Hr. reflexivity.
  - intros t Hin. exact (casinoTokens_of_listed L _ _ _ Hin).
  - intros input s t s' Hne Hnat Hrun.
    rewrite (getBetToken_lookup L W _ _ _ _ s Hc Hchain Hne Hnat Hr) in Hrun.
    destruct (find _ _) as [t0|] eqn:Hf; [|discriminate].
    injection Hrun as -> _. apply find_some in Hf as [Hin Heq].
    apply String.eqb_eq in Heq.
    destruct (casinoTokens_of_listed L _ _ _ Hin) as (r & Hr1 & Ha & Hp & ->).
    exists r. auto.
  - intros input s Hne Hnat Hall.
    rewrite (getBetToken_lookup L W _ _ _ _ s Hc Hchain Hne Hnat Hr).
    destruct (find _ _) as [t0|] eqn:Hf; [|reflexivity].
    apply find_some in Hf as [Hin Heq]. apply String.eqb_eq in Heq.
    destruct (casinoTokens_of_listed L _ _ _ Hin) as (r & Hr1 & Ha & Hp & ->).
    destruct (Hall r Hr1 Heq); congruence.
  - intros sym Hin. apply in_map_iff in Hin as (t & <- & Hin).
    destruct (casinoTokens_of_listed L _ _ _ Hin) as (r & Hr1 & Ha & Hp & ->).
    exists r. auto.
Qed.

(** In the calm world DEGEN is on chain but not allowed: it does not
    resolve, and the error lists USDC alone. *)
Lemma casino_tokens_are_allowed_and_live_witness :
  getCasinoTokens Scenario.library Scenario.calm (initial 0)
  = (Returns [Scenario.usdc_token],
     log (initial 0) [tokens_read 8453])
  /\ getBetToken Scenario.library Scenario.calm (Some "DEGEN") (initial 0)
     = (Throws (unknown_token_error
                  [Scenario.usdc_token]),
        log (initial 0) [tokens_read 8453]).
Proof.
  assert (Hc : chain_is Scenario.library Scenario.calm 8453).
  { exists "8453". repeat split. }
  pose proof (casino_tokens_are_allowed_and_live Scenario.library
                Scenario.calm 8453 _ [Scenario.usdc false; Scenario.degen]
                Hc eq_refl eq_refl) as (Hget & _ & _ & Hnone & _).
  split; [apply Hget|].
  apply Hnone; try discriminate.
  intros r [<- | [<- | []]]; cbn; intros Hs; [discriminate | auto].
Defined.

(** C10 as it is worded fails when two on-chain tokens share a symbol:
    USDC belongs to a paused token and still resolves, to the token of
    the same symbol that is not paused. *)
Lemma shared_symbol_of_paused_token_resolves :
  ~ AsWritten.unlisted_symbol_never_resolves Scenario.library 8453
      Scenario.twin_tokens.
Proof.
  intros H.
  specialize (H (Scenario.usdc true) (or_introl eq_refl) (or_intror eq_refl)).
  vm_compute in H. discriminate H.
Qed.

End TokenClaims.

(* ================================================================== *)
(** * The resolution poller *)
(* ================================================================== *)

Section PollerClaims.
Import Schemas Sdk Effects Betswirl Polling.

(** C2 (as amended).  A call of [getBet] on a wallet with a chain id
    looks the bet up, takes the time, and then turns: deadline test, one
    second of waiting, lookup.  Whenever the loop gets as far as the k-th
    report (every earlier lookup came back with a record that left the bet
    pending, every earlier deadline test passed):
    - a report that comes in before 60 seconds have elapsed is one the
      loop gets to;
    - if the report has the bet resolved and no error, the record built
      from it is returned;
    - if the report has an error, the call throws the indexer's code and
      message, wrapped, and stops in the state of that report: no wait
      and no lookup follows;
    - if the report leaves the bet pending and 60 seconds or more have
      elapsed since the first report, the call throws the timeout error,
      wrapped, and stops there: no wait and no lookup follows;
    - if the lookup rejects instead of reporting, the call throws the
      rejection, wrapped, and stops there.
    The state of the k-th report has k + 1 lookups and k waits, one of the
    four ends is reached within 61 lookups, and the loop's budget of 61
    turns is never used up: a larger budget gives the same run. *)
Theorem getBet_poller_outcomes (L : Library) (W : World) (txHash : Hex)
    (theGraphKey : option string) (chainId : ChainId) (s : State) :
  chain_is L W chainId ->
  let report := report W txHash chainId theGraphKey s in
  let elapsed := elapsed W txHash chainId theGraphKey s in
  let state_at := state_at W txHash chainId theGraphKey s in
  let polled := polled W txHash chainId theGraphKey s in
  (forall k,
      (forall j, (j < k)%nat ->
         exists betData, report j = inr betData /\ pending betData = true) ->
      elapsed k < timeout -> polled k)
  /\ (forall k betData b,
        polled k -> report k = inr betData ->
        bet betData = Some b -> bet_isResolved b = true ->
        error betData = None ->
        getBet L W txHash theGraphKey s
        = (Returns (toBetDetails L chainId b), state_at k))
  /\ (forall k betData e,
        polled k -> report k = inr betData -> error betData = Some e ->
        getBet L W txHash theGraphKey s
        = (Throws
             (Error
                ("An error occured while getting the bet: Error: ["
                 ++ code e ++ "] Error fetching bet: " ++ message e)%string),
           state_at k))
  /\ (forall k betData,
        polled k -> report k = inr betData ->
        pending betData = true -> timeout <= elapsed k ->
        getBet L W txHash theGraphKey s
        = (Throws
             (Error
                "An error occured while getting the bet: Error: Timeout: Bet data retrieval exceeded 1 minute."),
           state_at k))
  /\ (forall k rejection,
        polled k -> report k = inl rejection ->
        getBet L W txHash theGraphKey s
        = (Throws
             (Error
                ("An error occured while getting the bet: "
                 ++ error_toString rejection)%string),
           state_at k))
  /\ (forall k,
        lookups (state_at k) = S (lookups s + k)
        /\ timers (state_at k) = (timers s + k)%nat
        /\ trace (state_at k)
           = trace s
             ++ EvFetchBetByHash txHash (first_options chainId theGraphKey)
                :: List.concat
                     (repeat
                        [EvSetTimeout 1000;
                         EvFetchBetByHash txHash
                           (later_options chainId theGraphKey)] k))
  /\ (exists k,
        (k <= 60)%nat /\ polled k
        /\ ((exists rejection, report k = inl rejection)
            \/ exists betData,
                 report k = inr betData
                 /\ (pending betData = false \/ timeout <= elapsed k)))
  /\ (forall fuel,
        (poll_budget <= fuel)%nat ->
        getBet_with L W fuel txHash theGraphKey s
        = getBet L W txHash theGraphKey s
        /\ fst (getBet L W txHash theGraphKey s) <> Exhausted).
Proof.
  intros Hc rep ela sta pol.
  split; [|split; [|split; [|split; [|split; [|split; [|split]]]]]].
  - intros k Hp Ht. exact (reported_in_time_polled W _ _ _ s k Hp Ht).
  - intros k bd b Hp Hrep Hb Hr He.
    exact (getBet_resolved L W _ _ _ s k bd b Hc Hp Hrep Hb Hr He).
  - intros k bd e Hp Hrep He.
    exact (getBet_indexer_error L W _ _ _ s k bd e Hc Hp Hrep He).
  - intros k bd Hp Hrep Hpend Ht.
    exact (getBet_deadline L W _ _ _ s k bd Hc Hp Hrep Hpend Ht).
  - intros k e Hp Hrep. exact (getBet_rejected L W _ _ _ s k e Hc Hp Hrep).
  - intros k. split; [apply lookups_state_at|].
    split; [apply timers_state_at | apply trace_state_at].
  - apply poll_ends.
  - intros fuel Hfuel. exact (getBet_budget_is_enough L W _ _ s fuel Hfuel).
Qed.

(** In the calm world the second report has the bet resolved 1.1 seconds
    after the first: the record comes back after two lookups and one
    wait. *)
Lemma getBet_poller_outcomes_witness :
  getBet Scenario.library Scenario.calm "0xbet" None (initial 0)
  = (Returns (toBetDetails Scenario.library 8453 (Scenario.a_bet true)),
     state_at Scenario.calm "0xbet" 8453 None (initial 0) 1)
  /\ lookups (state_at Scenario.calm "0xbet" 8453 None (initial 0) 1) = 2%nat
  /\ timers (state_at Scenario.calm "0xbet" 8453 None (initial 0) 1) = 1%nat.
Proof.
  assert (Hc : chain_is Scenario.library Scenario.calm 8453).
  { exists "8453". repeat split. }
  destruct (getBet_poller_outcomes Scenario.library Scenario.calm "0xbet"
              None 8453 (initial 0) Hc)
    as (Hin_time & Hresolved & _ & _ & _ & Hcount & _ & _).
  split; [|split].
  - apply (Hresolved 1%nat Scenario.resolved_bet); try reflexivity.
    apply Hin_time.
    + intros j Hj. assert (j = 0)%nat as -> by lia.
      exists Scenario.not_indexed. split; reflexivity.
    + vm_compute. reflexivity.
  - apply (Hcount 1%nat).
  - apply (Hcount 1%nat).
Defined.

(** The deadline in the silent world: the bet is never indexed, timers
    fire on time and lookups are immediate, so the test fails at the 61st
    turn, after 61 lookups and 60 waits. *)
Lemma getBet_times_out_on_silent_indexer :
  getBet Scenario.library Scenario.silent_indexer "0xbet" None (initial 0)
  = (Throws (getBet_failure timeout_failure),
     state_at Scenario.silent_indexer "0xbet" 8453 None (initial 0) 60).
Proof. vm_compute. reflexivity. Qed.

(** An error at the second lookup: the call fails there, after two lookups
    and one wait. *)
Lemma getBet_fails_on_indexer_error :
  getBet Scenario.library Scenario.failing_indexer "0xbet" None (initial 0)
  = (Throws
       (Error
          "An error occured while getting the bet: Error: [SUBGRAPH_ERROR] Error fetching bet: indexer unavailable"),
     state_at Scenario.failing_indexer "0xbet" 8453 None (initial 0) 1).
Proof. vm_compute. reflexivity. Qed.

(** A rejection at the second lookup: the call fails there with the
    rejection wrapped, after two lookups and one wait. *)
Lemma getBet_fails_on_rejected_lookup :
  getBet Scenario.library Cases.rejecting_indexer "0xbet" None (initial 0)
  = (Throws
       (Error "An error occured while getting the bet: Error: fetch failed"),
     state_at Cases.rejecting_indexer "0xbet" 8453 None (initial 0) 1).
Proof. vm_compute. reflexivity. Qed.

(** The third clause of C2 as the specification words it fails on a slow
    indexer: the first report leaves the bet pending, the second lookup
    starts within the deadline and answers 71 seconds after the first
    report, with the bet resolved.  Nothing settled the bet within 60
    seconds, and the call returns the record instead of timing out. *)
Lemma late_report_is_returned :
  ~ AsWritten.poller_times_out Scenario.library Scenario.slow_indexer
      "0xbet" None 8453 (initial 0).
Proof.
  intros H.
  assert (Hquiet : forall k,
    elapsed Scenario.slow_indexer "0xbet" 8453 None (initial 0) k <= timeout ->
    exists betData,
      report Scenario.slow_indexer "0xbet" 8453 None (initial 0) k
      = inr betData
      /\ pending betData = true).
  { intros [|k] Hk;
      [exists Scenario.not_indexed; split; reflexivity|].
    exfalso.
    pose proof (elapsed_monotone Scenario.slow_indexer "0xbet" 8453 None
                  (initial 0) 1 (S k) ltac:(lia)) as Hm.
    assert (E : elapsed Scenario.slow_indexer "0xbet" 8453 None (initial 0) 1
                = 71000) by (vm_compute; reflexivity).
    unfold timeout in Hk. lia. }
  destruct (H Hquiet) as (s' & Hrun).
  vm_compute in Hrun. discriminate Hrun.
Qed.

End PollerClaims.

(* ================================================================== *)
(** * The game actions and the list query *)
(* ================================================================== *)

Section ActionClaims.
Import Schemas Sdk Effects Betswirl Placement Polling.

(** C5 (as amended).  In each of the three game actions, once the
    game-paused read has answered and the token is resolved, an amount
    that converts to zero or less makes the action throw "The bet amount
    must be greater than 0" on the spot.  By then the action has made the
    game-paused read and, for a token that is not the native one, the
    token-list read, and nothing else: no requirements read, no fee
    request, no indexer lookup, no transaction. *)
Theorem nonpositive_amount_stops_the_bet (L : Library) (W : World)
    (theGraphKey : option string) (Sel : Type) (game : CASINO_GAME_TYPE)
    (act : BetArgs Sel -> M BetDetails) (args : BetArgs Sel)
    (s s1 s2 : State) (paused : bool) (tok : Token) (v : Z) :
  game_action L W theGraphKey Sel game act ->
  checkLiveGame L W game s = (Returns paused, s1) ->
  getBetToken L W (token args) s1 = (Returns tok, s2) ->
  parseUnits L (Schemas.betAmount args) (decimals tok) = inr v ->
  v <= 0 ->
  act args s = (Throws (Error "The bet amount must be greater than 0"), s2)
  /\ exists evs, trace s2 = trace s ++ evs
       /\ Forall (resolution_read game) evs.
Proof.
  intros Hact H1 H2 Hv Hle.
  destruct (game_action_shape L W theGraphKey _ _ _ Hact) as (enc & mult & ->).
  exact (placeGameBet_nonpositive_amount L W theGraphKey game enc mult args
           _ _ _ _ _ _ H1 H2 Hv Hle).
Qed.

(** A coin toss of "0" USDC in the calm world: the error comes after the
    two reads. *)
Lemma nonpositive_amount_stops_the_bet_witness :
  Provider.coinToss Scenario.library Scenario.calm None
    (Scenario.args "0" (Some "USDC")) (initial 0)
  = (Throws (Error "The bet amount must be greater than 0"),
     log (initial 0)
       [EvReadContract (GamePausedCall COINTOSS 8453); tokens_read 8453]).
Proof.
  refine (proj1
            (nonpositive_amount_stops_the_bet Scenario.library Scenario.calm
               None _ _ _ (Scenario.args "0" (Some "USDC")) (initial 0)
               (log (initial 0) [EvReadContract (GamePausedCall COINTOSS 8453)])
               _ false
               Scenario.usdc_token 0
               (action_coinToss _ _ _) _ _ _ _));
    vm_compute; try reflexivity. discriminate.
Defined.

(** C5 as the specification words it fails: a coin toss of "0" ETH in the
    calm world throws the amount error, but after the game-paused read,
    which is a contract read. *)
Lemma amount_error_follows_a_contract_read :
  ~ AsWritten.amount_fails_before_any_call Scenario.library Scenario.calm
      COINTOSS (Provider.coinToss Scenario.library Scenario.calm None)
      (Scenario.args "0" (Some "ETH")) (initial 0).
Proof.
  intros H.
  destruct (H false
              (log (initial 0) [EvReadContract (GamePausedCall COINTOSS 8453)])
              {| symbol := "ETH"; address := Scenario.zeroAddress;
                 decimals := 18 |}
              (log (initial 0) [EvReadContract (GamePausedCall COINTOSS 8453)])
              0)
    as (s' & Hrun & Htrace);
    try (vm_compute; reflexivity).
  - vm_compute. discriminate.
  - vm_compute in Hrun. injection Hrun as <-. discriminate Htrace.
Qed.

(** C8 (as amended).  When the indexer answers the list query with an
    error, [getSubgraphBets] fails right after the one query, with a new
    error whose message holds the indexer's code and message behind two
    prefixes: the indexer's error is reported, not passed on as it is. *)
Theorem getSubgraphBets_wraps_indexer_error (L : Library) (W : World)
    (bettor : option Hex) (game : option CASINO_GAME_TYPE)
    (theGraphKey : option string) (chainId : ChainId) (result : BetsData)
    (e : SubgraphError) (s : State) :
  chain_is L W chainId ->
  indexer_fetchBets W (first_options chainId theGraphKey) bettor game 5
  = inr result ->
  bets_error result = Some e ->
  getSubgraphBets L W bettor game theGraphKey s
  = (Throws
       (Error
          ("An error occured while getting the bet: Error: ["
           ++ code e ++ "] Error fetching bets: " ++ message e)%string),
     log s [EvFetchBets (first_options chainId theGraphKey) bettor game 5]).
Proof.
  intros Hc Hresult He. unfold getSubgraphBets, bind at 1.
  rewrite (getChainId_chain_is _ _ _ _ Hc).
  unfold try_catch, fetchBets, bind, emit, lift.
  fold (first_options chainId theGraphKey). rewrite Hresult.
  cbn [ret fst snd]. rewrite He. reflexivity.
Qed.

Lemma getSubgraphBets_wraps_indexer_error_witness :
  getSubgraphBets Scenario.library Scenario.failing_indexer None (Some DICE)
    None (initial 0)
  = (Throws
       (Error
          "An error occured while getting the bet: Error: [SUBGRAPH_ERROR] Error fetching bets: indexer unavailable"),
     log (initial 0) [EvFetchBets (first_options 8453 None) None (Some DICE) 5]).
Proof.
  apply (getSubgraphBets_wraps_indexer_error Scenario.library
           Scenario.failing_indexer None (Some DICE) None 8453
           Scenario.failed_listing Scenario.indexer_down (initial 0)).
  - exists "8453". repeat split.
  - reflexivity.
  - reflexivity.
Defined.

(** C8 as the specification words it fails: the message thrown is not
    the indexer's message. *)
Lemma indexer_error_is_rewritten :
  ~ AsWritten.indexer_error_unchanged Scenario.library
      Scenario.failing_indexer None (Some DICE) None (initial 0).
Proof.
  intros H.
  assert (Hc : chain_is Scenario.library Scenario.failing_indexer 8453).
  { exists "8453". repeat split. }
  destruct (H 8453 Scenario.failed_listing Scenario.indexer_down Hc eq_refl
              eq_refl) as (thrown & s' & Hrun & Hmsg).
  vm_compute in Hrun. injection Hrun as <- _. discriminate Hmsg.
Qed.

End ActionClaims.

(* ================================================================== *)
(** * Failures on the way to a bet *)
(* ================================================================== *)

Section Failures.
Import Schemas Sdk Effects Betswirl Placement Polling Runs.
Context (L : Library) (W : World) (key : option string).

Lemma log_log (s0 : State) a b : log (log s0 a) b = log s0 (a ++ b).
Proof. unfold log; simpl. rewrite app_assoc. reflexivity. Qed.

Lemma getChainId_missing s :
  no_chain_id W -> getChainId L W s = (Throws (Error "No chain ID"), s).
Proof.
  intros [H | H]; rewrite getChainId_run, H; reflexivity.
Qed.

(** X1.  On a wallet that reports no chain id, or an empty one, each of
    the five actions, and [placeBet] and [getBetToken] called on their
    own, throw "No chain ID" as it is and leave the state as it was: no
    contract read, no request, no lookup, no transaction. *)
Theorem no_chain_id_stops_every_action :
  no_chain_id W ->
  (forall Sel game act, game_action L W key Sel game act ->
     forall args s, act args s = (Throws (Error "No chain ID"), s))
  /\ (forall hash s,
        Provider.getBet L W key hash s = (Throws (Error "No chain ID"), s))
  /\ (forall bettor game s,
        Provider.getBets L W key bettor game s
        = (Throws (Error "No chain ID"), s))
  /\ (forall game input multiplier params s,
        placeBet L W game input multiplier params s
        = (Throws (Error "No chain ID"), s))
  /\ (forall tokenSymbolInput s,
        getBetToken L W tokenSymbolInput s = (Throws (Error "No chain ID"), s)).
Proof.
  intros Hno. split; [|split; [|split; [|split]]].
  - intros Sel game act Hact args s.
    destruct (game_action_shape L W key _ _ _ Hact) as (enc & mult & ->).
    unfold Provider.placeGameBet, checkLiveGame, bind.
    rewrite (getChainId_missing s Hno). reflexivity.
  - intros hash s. unfold Provider.getBet, getBet, getBet_with, bind.
    rewrite (getChainId_missing s Hno). reflexivity.
  - intros bettor game s. unfold Provider.getBets, getSubgraphBets, bind.
    rewrite (getChainId_missing s Hno). reflexivity.
  - intros game input mult params s. unfold placeBet, bind.
    rewrite (getChainId_missing s Hno). reflexivity.
  - intros sym s. unfold getBetToken, bind.
    rewrite (getChainId_missing s Hno). reflexivity.
Qed.

(** X2.  When the game-paused read throws, a game action throws that very
    error, right after the read. *)
Theorem paused_read_failure_stops_the_action (chainId : ChainId)
    (e : JsError) (Sel : Type) (game : CASINO_GAME_TYPE)
    (act : BetArgs Sel -> M BetDetails) (args : BetArgs Sel) (s : State) :
  chain_is L W chainId ->
  read_gamePaused W game chainId = inl e ->
  game_action L W key Sel game act ->
  act args s = (Throws e, log s [EvReadContract (GamePausedCall game chainId)]).
Proof.
  intros Hc Hr Hact.
  destruct (game_action_shape L W key _ _ _ Hact) as (enc & mult & ->).
  unfold Provider.placeGameBet, checkLiveGame, bind.
  rewrite (getChainId_chain_is L W _ s Hc).
  unfold readContract_gamePaused, bind, emit, lift. rewrite Hr. reflexivity.
Qed.

(** X3.  [getBetToken] on a chain the SDK has no casino for throws a
    [TypeError] whatever the symbol, before any read; and when the
    token-list read throws, the lookup of a symbol throws that very error
    after the one read. *)
Theorem getBetToken_failures (chainId : ChainId) (s : State) :
  chain_is L W chainId ->
  (casinoChainById L chainId = None ->
   forall tokenSymbolInput,
     getBetToken L W tokenSymbolInput s
     = (Throws (TypeError
                  "Cannot read properties of undefined (reading 'viemChain')"),
        s))
  /\ (forall chain input e,
        casinoChainById L chainId = Some chain ->
        input <> "" -> input <> nc_symbol (viemChain_nativeCurrency chain) ->
        read_casinoTokens W chainId = inl e ->
        getBetToken L W (Some input) s
        = (Throws e, log s [tokens_read chainId])).
Proof.
  intros Hc. split.
  - intros Hnone sym. unfold getBetToken, bind at 1.
    rewrite (getChainId_chain_is L W _ s Hc), Hnone. reflexivity.
  - intros chain input e Hchain Hne Hnat Hr. unfold getBetToken, bind at 1.
    rewrite (getChainId_chain_is L W _ s Hc), Hchain.
    apply String.eqb_neq in Hne, Hnat. cbn [truthy].
    rewrite Hne, Hnat. cbn [negb andb].
    unfold bind. rewrite (getCasinoTokens_run L W _ s Hc), Hr. reflexivity.
Qed.

(** What is left of [placeBet] once the requirements are read and met:
    the fee request and the submission. *)
Lemma placeBet_after_gate game input mult params cid raw s :
  chain_is L W cid ->
  read_betRequirements W (address (betToken params)) mult cid = inr raw ->
  requirements_met
    (parseRawBetRequirements L raw (betToken params) mult game cid) params ->
  let s2 := log s [requirements_read params mult cid;
                   EvFetchVrfFees (vrf_query L game params cid)] in
  placeBet L W game input mult params s
  = match api_vrfFees W (vrf_query L game params cid) with
    | inl e => (Throws (placing_failure (vrf_failure e)), s2)
    | inr resp =>
        if ok resp then
          match json_BigInt resp with
          | inl e => (Throws (placing_failure (vrf_failure e)), s2)
          | inr fee =>
              let tx := placeBet_transaction L game input params cid
                          (bigint_div (fee * 120) 100) in
              (match wallet_sendTransaction W tx with
               | inl e => Throws (placing_failure e)
               | inr h => Returns h
               end, log s2 [EvSendTransaction tx])
          end
        else
          (Throws
             (placing_failure
                (vrf_failure
                   (Error
                      ("An error occured while fetching the chainlink vrf cost from API: "
                       ++ statusText resp)%string))), s2)
    end.
Proof.
  intros Hc Hr (Ha & Hamt & Hcnt) s2. unfold placeBet.
  unfold bind at 1. rewrite (getChainId_chain_is L W _ s Hc).
  unfold bind at 1. rewrite (getBetRequirements_run L W _ _ _ _ _ Hc), Hr.
  rewrite Ha. cbn [negb].
  replace (betAmount params >? maxBetAmount _) with false
    by (symmetry; rewrite Z.gtb_ltb; apply Z.ltb_ge; lia).
  replace (betCount params >? maxBetCount _) with false
    by (symmetry; rewrite Z.gtb_ltb; apply Z.ltb_ge; lia).
  unfold try_catch, getChainlinkVrfCost, bind at 1, bind at 1.
  rewrite (getChainId_chain_is L W _ _ Hc).
  unfold try_catch, fetch_vrfFees, bind, emit, lift, sendTransaction.
  fold (vrf_query L game params cid).
  destruct (api_vrfFees W (vrf_query L game params cid)) as [e|resp];
    [cbn; unfold s2, log; cbn; rewrite <- app_assoc; reflexivity|].
  cbn. destruct (ok resp); cbn;
    [|unfold s2, log; cbn; rewrite <- app_assoc; reflexivity].
  destruct (json_BigInt resp) as [e|fee]; cbn;
    [unfold s2, log; cbn; rewrite <- app_assoc; reflexivity|].
  fold (placeBet_functionData L game input params cid).
  fold (placeBet_transaction L game input params cid (bigint_div (fee * 120) 100)).
  destruct (wallet_sendTransaction W _); cbn;
    unfold s2, log; cbn; rewrite <- !app_assoc; reflexivity.
Qed.

(** X4.  When the requirements read throws, [placeBet] throws "An error
    occured while getting the bet requirements: " followed by the error,
    right after the read: no fee is asked for and nothing is submitted. *)
Theorem placeBet_requirements_read_failure (game : CASINO_GAME_TYPE)
    (input : GameEncodedInput) (multiplier : Z) (params : CasinoGameParams)
    (chainId : ChainId) (e : JsError) (s : State) :
  chain_is L W chainId ->
  read_betRequirements W (address (betToken params)) multiplier chainId
  = inl e ->
  placeBet L W game input multiplier params s
  = (Throws
       (Error ("An error occured while getting the bet requirements: "
               ++ error_toString e)%string),
     log s [requirements_read params multiplier chainId]).
Proof.
  intros Hc Hr. unfold placeBet.
  unfold bind at 1. rewrite (getChainId_chain_is L W _ s Hc).
  unfold bind at 1. rewrite (getBetRequirements_run L W _ _ _ _ _ Hc), Hr.
  reflexivity.
Qed.

(** X5.  A bet within the limits, the limits themselves included, gets as
    far as the fee request.  If that request throws, answers with a status
    that is not ok, or answers with a body that is no integer, [placeBet]
    throws the error wrapped as "An error occured while placing the bet:
    Error: An error occured while getting the chainlink vrf cost: ...",
    and stops after the request: nothing is submitted. *)
Theorem placeBet_fee_failures (game : CASINO_GAME_TYPE)
    (input : GameEncodedInput) (multiplier : Z) (params : CasinoGameParams)
    (chainId : ChainId) (raw : RawBetRequirements) (s : State) :
  chain_is L W chainId ->
  read_betRequirements W (address (betToken params)) multiplier chainId
  = inr raw ->
  let req :=
    parseRawBetRequirements L raw (betToken params) multiplier game chainId in
  isAllowed req = true ->
  betAmount params <= maxBetAmount req ->
  betCount params <= maxBetCount req ->
  let query := vrf_query L game params chainId in
  let s2 := log s [requirements_read params multiplier chainId;
                   EvFetchVrfFees query] in
  (forall e,
      api_vrfFees W query = inl e ->
      placeBet L W game input multiplier params s
      = (Throws
           (Error
              ("An error occured while placing the bet: Error: An error occured while getting the chainlink vrf cost: "
               ++ error_toString e)%string), s2))
  /\ (forall resp,
        api_vrfFees W query = inr resp -> ok resp = false ->
        placeBet L W game input multiplier params s
        = (Throws
             (Error
                ("An error occured while placing the bet: Error: An error occured while getting the chainlink vrf cost: Error: An error occured while fetching the chainlink vrf cost from API: "
                 ++ statusText resp)%string), s2))
  /\ (forall resp e,
        api_vrfFees W query = inr resp -> ok resp = true ->
        json_BigInt resp = inl e ->
        placeBet L W game input multiplier params s
        = (Throws
             (Error
                ("An error occured while placing the bet: Error: An error occured while getting the chainlink vrf cost: "
                 ++ error_toString e)%string), s2)).
Proof.
  intros Hc Hr req Ha Hamt Hcnt query s2.
  pose proof (placeBet_after_gate game input multiplier params chainId raw s
                Hc Hr (conj Ha (conj Hamt Hcnt))) as Hrun.
  cbv zeta in Hrun. fold query in Hrun. fold s2 in Hrun.
  split; [|split].
  - intros e He. rewrite Hrun, He. reflexivity.
  - intros resp Hresp Hok. rewrite Hrun, Hresp, Hok. reflexivity.
  - intros resp e Hresp Hok He. rewrite Hrun, Hresp, Hok, He. reflexivity.
Qed.

(** X6.  When the wallet throws on the submission, [placeBet] throws "An
    error occured while placing the bet: " followed by the error, after
    the one submission; and no run of [placeBet], however it ends, holds
    more than one fee request or more than one submission: nothing is
    tried twice. *)
Theorem placeBet_submits_at_most_once (game : CASINO_GAME_TYPE)
    (input : GameEncodedInput) (multiplier : Z) (params : CasinoGameParams)
    (s : State) :
  (forall out s',
      placeBet L W game input multiplier params s = (out, s') ->
      exists evs, s' = log s evs
        /\ (count is_submission evs <= 1)%nat
        /\ (count is_fee_request evs <= 1)%nat
        /\ (List.length evs <= 3)%nat)
  /\ (forall chainId raw resp fee e,
        chain_is L W chainId ->
        read_betRequirements W (address (betToken params)) multiplier chainId
        = inr raw ->
        requirements_met
          (parseRawBetRequirements L raw (betToken params) multiplier game
             chainId) params ->
        api_vrfFees W (vrf_query L game params chainId) = inr resp ->
        ok resp = true -> json_BigInt resp = inr fee ->
        let tx := placeBet_transaction L game input params chainId
                    (bigint_div (fee * 120) 100) in
        wallet_sendTransaction W tx = inl e ->
        placeBet L W game input multiplier params s
        = (Throws
             (Error ("An error occured while placing the bet: "
                     ++ error_toString e)%string),
           log s [requirements_read params multiplier chainId;
                  EvFetchVrfFees (vrf_query L game params chainId);
                  EvSendTransaction tx])).
Proof.
  split.
  - intros out s' Hrun.
    destruct (network_chainId W) as [c|] eqn:Hn.
    2:{ unfold placeBet, bind in Hrun. rewrite getChainId_run, Hn in Hrun.
        injection Hrun as <- <-. exists []. unfold log. rewrite app_nil_r.
        split; [destruct s; reflexivity | cbn; lia]. }
    destruct (String.eqb c "") eqn:Hne.
    { unfold placeBet, bind in Hrun. rewrite getChainId_run, Hn, Hne in Hrun.
      injection Hrun as <- <-. exists []. unfold log. rewrite app_nil_r.
      split; [destruct s; reflexivity | cbn; lia]. }
    assert (Hc : chain_is L W (Number_of_chainId L c)) by (exists c; auto).
    set (cid := Number_of_chainId L c) in *.
    destruct (read_betRequirements W (address (betToken params)) multiplier cid)
      as [e|raw] eqn:Hr.
    { unfold placeBet in Hrun. unfold bind at 1 in Hrun.
      rewrite (getChainId_chain_is L W _ s Hc) in Hrun.
      unfold bind at 1 in Hrun.
      rewrite (getBetRequirements_run L W _ _ _ _ _ Hc), Hr in Hrun.
      injection Hrun as <- <-. eexists. split; [reflexivity | cbn; lia]. }
    set (req := parseRawBetRequirements L raw (betToken params) multiplier
                  game cid).
    destruct (placeBet_rejects L W game input multiplier params cid raw s Hc Hr)
      as (Hdis & Hamt & Hcnt). fold req in Hdis, Hamt, Hcnt.
    destruct (isAllowed req) eqn:Ha.
    2:{ rewrite (Hdis eq_refl) in Hrun. injection Hrun as <- <-.
        eexists. split; [reflexivity | cbn; lia]. }
    destruct (Z_le_gt_dec (betAmount params) (maxBetAmount req)) as [Hle|Hgt].
    2:{ rewrite (Hamt eq_refl Hgt) in Hrun. injection Hrun as <- <-.
        eexists. split; [reflexivity | cbn; lia]. }
    destruct (Z_le_gt_dec (betCount params) (maxBetCount req)) as [Hle2|Hgt2].
    2:{ rewrite (Hcnt eq_refl Hle Hgt2) in Hrun. injection Hrun as <- <-.
        eexists. split; [reflexivity | cbn; lia]. }
    rewrite (placeBet_after_gate game input multiplier params cid raw s Hc Hr
               (conj Ha (conj Hle Hle2))) in Hrun.
    cbv zeta in Hrun.
    destruct (api_vrfFees W _) as [e|resp].
    { injection Hrun as <- <-. eexists. split; [reflexivity | cbn; lia]. }
    destruct (ok resp).
    2:{ injection Hrun as <- <-. eexists. split; [reflexivity | cbn; lia]. }
    destruct (json_BigInt resp) as [e|fee].
    { injection Hrun as <- <-. eexists. split; [reflexivity | cbn; lia]. }
    injection Hrun as <- <-. rewrite log_log.
    eexists. split; [reflexivity | cbn; lia].
  - intros cid raw resp fee e Hc Hr Hmet Hresp Hok Hfee tx Hsend.
    rewrite (placeBet_after_gate game input multiplier params cid raw s Hc Hr
               Hmet).
    cbv zeta. rewrite Hresp, Hok, Hfee. fold tx. rewrite Hsend, log_log.
    reflexivity.
Qed.

End Failures.

(* ================================================================== *)
(** * Whole runs *)
(* ================================================================== *)

Section Ends.
Import Effects Runs.

Lemma ends_ret {A} (a : A) : ends (ret a).
Proof. intros s. discriminate. Qed.

Lemma ends_throw {A} e : ends (@throw A e).
Proof. intros s. discriminate. Qed.

Lemma ends_lift {A} (r : Result A) : ends (lift r).
Proof. destruct r; [apply ends_throw | apply ends_ret]. Qed.

Lemma ends_emit ev : ends (emit ev).
Proof. intros s. discriminate. Qed.

Lemma ends_bind {A B} (m : M A) (k : A -> M B) :
  ends m -> (forall a, ends (k a)) -> ends (bind m k).
Proof.
  intros Hm Hk s. unfold bind. specialize (Hm s).
  destruct (m s) as [[a|e|] s1]; cbn in *; [apply Hk | discriminate | congruence].
Qed.

Lemma ends_try_catch {A} (m : M A) (h : JsError -> M A) :
  ends m -> (forall e, ends (h e)) -> ends (try_catch m h).
Proof.
  intros Hm Hh s. unfold try_catch. specialize (Hm s).
  destruct (m s) as [[a|e|] s1]; cbn in *; [discriminate | apply Hh | congruence].
Qed.

End Ends.

Ltac ends_by_structure :=
  repeat first
    [ apply ends_ret | apply ends_throw | apply ends_lift | apply ends_emit
    | apply ends_bind; [|intros ?]
    | apply ends_try_catch; [|intros ?]
    | progress cbv beta
    | match goal with
      | |- Runs.ends (match ?x with _ => _ end) => destruct x
      | |- Runs.ends (if ?x then _ else _) => destruct x
      | |- Runs.ends (let _ := _ in _) => cbv zeta
      end ].

Section WholeRuns.
Import Schemas Sdk Effects Betswirl Placement Polling Runs.
Context (L : Library) (W : World) (key : option string).

Lemma getBetToken_ends sym : ends (getBetToken L W sym).
Proof.
  unfold getBetToken, getCasinoTokens, readContract_casinoTokens, getChainId.
  ends_by_structure.
Qed.

Lemma placeBet_ends game input mult params :
  ends (placeBet L W game input mult params).
Proof.
  unfold placeBet, getBetRequirements, readContract_betRequirements,
    getChainlinkVrfCost, fetch_vrfFees, sendTransaction, getChainId.
  ends_by_structure.
Qed.

(** X7.  A game action reads the paused flag and does not look at it: in
    two worlds that differ only in the flag the read answers, the three
    actions run alike, to the same outcome and the same trace.  A paused
    game does not stop a bet. *)
Theorem paused_flag_is_ignored
    (flag flag' : CASINO_GAME_TYPE -> ChainId -> bool) :
  let W1 := with_gamePaused W (fun g c => inr (flag g c)) in
  let W2 := with_gamePaused W (fun g c => inr (flag' g c)) in
  (forall args s,
      Provider.coinToss L W1 key args s = Provider.coinToss L W2 key args s)
  /\ (forall args s,
        Provider.dice L W1 key args s = Provider.dice L W2 key args s)
  /\ (forall args s,
        Provider.roulette L W1 key args s = Provider.roulette L W2 key args s).
Proof.
  intros W1 W2.
  assert (H : forall Sel game enc mult (args : BetArgs Sel) s,
             Provider.placeGameBet L W1 key game enc mult args s
             = Provider.placeGameBet L W2 key game enc mult args s).
  { intros Sel game enc mult args s.
    unfold Provider.placeGameBet, bind at 1.
    symmetry. unfold bind at 1. symmetry.
    unfold checkLiveGame, bind at 1.
    symmetry. unfold bind at 1. symmetry.
    rewrite !getChainId_run. cbn [network_chainId W1 W2 with_gamePaused].
    destruct (network_chainId W) as [c|]; [|reflexivity].
    destruct (String.eqb c ""); [reflexivity|].
    reflexivity. }
  split; [|split]; intros args s; apply H.
Qed.

(** The loop of [getBet] hands back a report only when the report has an
    error or a resolved bet. *)
Lemma poll_returns_settled cid fuel : forall hash start bd0 st bd st',
  poll W fuel hash cid key start bd0 st = (Returns bd, st') ->
  pending bd = false.
Proof.
  induction fuel as [|fuel IH]; intros hash start bd0 st bd st' Hrun;
    cbn [poll] in Hrun; destruct (pending bd0) eqn:Hp;
    try (injection Hrun as <- _; exact Hp); try discriminate Hrun.
  unfold bind at 1, Date_now in Hrun.
  destruct (timeout <=? clock st - start); [discriminate Hrun|].
  unfold bind at 1, sleep in Hrun.
  unfold bind at 1, fetchBetByHash in Hrun. cbn [lookups] in Hrun.
  destruct (indexer_fetchBetByHash W (lookups st) hash _) as [e|bd'];
    [discriminate Hrun|].
  destruct (has_error bd') eqn:He.
  - injection Hrun as <- _. apply has_error_not_pending. exact He.
  - exact (IH _ _ _ _ _ _ Hrun).
Qed.

(** The ways a call of [getBet] can end. *)
Lemma getBet_cases hash s :
  getBet L W hash key s = (Throws (Error "No chain ID"), s)
  \/ exists chainId k,
       chain_is L W chainId /\ (k <= 60)%nat
       /\ polled W hash chainId key s k
       /\ snd (getBet L W hash key s) = state_at W hash chainId key s k
       /\ ((exists rejection,
              report W hash chainId key s k = inl rejection
              /\ fst (getBet L W hash key s)
                 = Throws (getBet_failure rejection))
           \/ exists betData,
                report W hash chainId key s k = inr betData
                /\ ((exists b,
                       bet betData = Some b
                       /\ bet_isResolved b = true
                       /\ error betData = None
                       /\ fst (getBet L W hash key s)
                          = Returns (toBetDetails L chainId b))
                    \/ (exists e,
                          error betData = Some e
                          /\ fst (getBet L W hash key s)
                             = Throws (getBet_failure (indexer_failure e)))
                    \/ (pending betData = true
                        /\ timeout <= elapsed W hash chainId key s k
                        /\ fst (getBet L W hash key s)
                           = Throws (getBet_failure timeout_failure)))).
Proof.
  destruct (network_chainId W) as [c|] eqn:Hn.
  2:{ left. unfold getBet, getBet_with, bind. rewrite getChainId_run, Hn.
      reflexivity. }
  destruct (String.eqb c "") eqn:Hne.
  { left. unfold getBet, getBet_with, bind. rewrite getChainId_run, Hn, Hne.
    reflexivity. }
  right. assert (Hc : chain_is L W (Number_of_chainId L c)) by (exists c; auto).
  set (cid := Number_of_chainId L c) in *.
  destruct (poll_ends W hash cid key s) as (k & Hk & Hp & Hend).
  exists cid, k. split; [exact Hc|]. split; [exact Hk|]. split; [exact Hp|].
  destruct Hend as [(rej & Hr) | (bd & Hr & Hend)].
  { rewrite (getBet_rejected L W hash cid key s k rej Hc Hp Hr).
    split; [reflexivity|]. left. exists rej. auto. }
  destruct (error bd) as [e|] eqn:He.
  - rewrite (getBet_indexer_error L W hash cid key s k bd e Hc Hp Hr He).
    split; [reflexivity|]. right. exists bd. split; [exact Hr|].
    right. left. exists e. auto.
  - destruct (pending bd) eqn:Hpend.
    + destruct Hend as [Hs | Ht]; [discriminate|].
      rewrite (getBet_deadline L W hash cid key s k bd Hc Hp Hr Hpend Ht).
      split; [reflexivity|]. right. exists bd. split; [exact Hr|].
      right. right. auto.
    + unfold pending in Hpend. rewrite He, andb_true_r in Hpend.
      destruct (bet bd) as [b|] eqn:Hb; [|discriminate].
      apply negb_false_iff in Hpend.
      rewrite (getBet_resolved L W hash cid key s k bd b Hc Hp Hr Hb Hpend He).
      split; [reflexivity|]. right. exists bd. split; [exact Hr|].
      left. exists b. auto.
Qed.

(** X8.  However the indexer answers, a call of [getBet] ends in one of
    five ways: "No chain ID" with nothing done; a lookup's rejection,
    wrapped; the record of a bet the indexer reported resolved and without
    error; the indexer's error, wrapped; or the timeout, wrapped.  In the
    last four cases it has made between 1 and 61 lookups and one wait
    fewer.  A record is only ever built from a resolved bet; and the loop
    hands back a report only when it has an error or a resolved bet, so
    the test for a missing bet that follows the loop in the source never
    fires: a bet that is not indexed ends in the timeout. *)
Theorem getBet_ends_in_one_of_five_ways (hash : Hex) (s : State) :
  let run := getBet L W hash key s in
  (run = (Throws (Error "No chain ID"), s)
   \/ exists chainId k,
        chain_is L W chainId /\ (k <= 60)%nat
        /\ polled W hash chainId key s k
        /\ snd run = state_at W hash chainId key s k
        /\ lookups (snd run) = S (lookups s + k)
        /\ timers (snd run) = (timers s + k)%nat
        /\ ((exists rejection,
               report W hash chainId key s k = inl rejection
               /\ fst run = Throws (getBet_failure rejection))
            \/ exists betData,
                 report W hash chainId key s k = inr betData
                 /\ ((exists b,
                        bet betData = Some b
                        /\ bet_isResolved b = true
                        /\ error betData = None
                        /\ fst run = Returns (toBetDetails L chainId b))
                     \/ (exists e,
                           error betData = Some e
                           /\ fst run
                              = Throws (getBet_failure (indexer_failure e)))
                     \/ (pending betData = true
                         /\ timeout <= elapsed W hash chainId key s k
                         /\ fst run
                            = Throws (getBet_failure timeout_failure)))))
  /\ (forall chainId fuel startTime betData0 st betData st',
        poll W fuel hash chainId key startTime betData0 st
        = (Returns betData, st') ->
        (exists e, error betData = Some e)
        \/ (exists b, bet betData = Some b /\ bet_isResolved b = true)).
Proof.
  intros run. unfold run. split.
  - destruct (getBet_cases hash s) as [H | (cid & k & Hc & Hk & Hp & Hs & Hcase)];
      [left; exact H|].
    right. exists cid, k. split; [exact Hc|]. split; [exact Hk|].
    split; [exact Hp|]. split; [exact Hs|]. rewrite Hs.
    split; [apply lookups_state_at|]. split; [apply timers_state_at|].
    exact Hcase.
  - intros cid fuel start bd0 st bd st' Hrun.
    apply poll_returns_settled in Hrun. unfold pending in Hrun.
    destruct (error bd) as [e|]; [left; eauto|]. right.
    rewrite andb_true_r in Hrun.
    destruct (bet bd) as [b|]; [|discriminate].
    apply negb_false_iff in Hrun. eauto.
Qed.

(** X9.  When the indexer answers the list query without an error,
    [getSubgraphBets] makes that one query, in the precise format, with
    the filters as given and 5 as its last argument, and returns one
    record per bet, in the indexer's order; each record carries the bet's
    id in decimal, and a roll link exactly when the bet has a roll hash
    that is not empty. *)
Theorem getSubgraphBets_lists_every_bet (bettor : option Hex)
    (game : option CASINO_GAME_TYPE) (chainId : ChainId) (result : BetsData)
    (s : State) :
  chain_is L W chainId ->
  indexer_fetchBets W (first_options chainId key) bettor game 5 = inr result ->
  bets_error result = None ->
  getSubgraphBets L W bettor game key s
  = (Returns (map (toBetDetails L chainId) (bets result)),
     log s [EvFetchBets (first_options chainId key) bettor game 5])
  /\ List.length (map (toBetDetails L chainId) (bets result))
     = List.length (bets result)
  /\ (forall i b,
        nth_error (bets result) i = Some b ->
        exists d,
          nth_error (map (toBetDetails L chainId) (bets result)) i = Some d
          /\ id d = bigint_toString (bet_id b)
          /\ betTxnHash d = bet_betTxnHash b
          /\ rollTxnHash d = bet_rollTxnHash b
          /\ (rollTxnLink d = None <->
              bet_rollTxnHash b = None \/ bet_rollTxnHash b = Some "")).
Proof.
  intros Hc Hresult He. split; [|split].
  - unfold getSubgraphBets, bind at 1.
    rewrite (getChainId_chain_is L W _ s Hc).
    unfold try_catch, fetchBets, bind, emit, lift.
    fold (first_options chainId key). rewrite Hresult.
    cbn [ret fst snd]. rewrite He. reflexivity.
  - apply length_map.
  - intros i b Hb. exists (toBetDetails L chainId b).
    split; [apply map_nth_error; exact Hb|].
    split; [reflexivity|]. split; [reflexivity|]. split; [reflexivity|].
    cbn [rollTxnLink toBetDetails].
    destruct (bet_rollTxnHash b) as [h|]; [|split; auto].
    cbn [truthy]. destruct (String.eqb_spec h "") as [->|Hne]; cbn [negb].
    + split; auto.
    + split; [discriminate|]. intros [H | [= H]]; [discriminate | contradiction].
Qed.

(** X15.  When the list query itself rejects, [getSubgraphBets] throws
    "An error occured while getting the bet: " followed by the rejection,
    right after the one query; the message speaks of the bet, as the one
    of [getBet] does. *)
Theorem getSubgraphBets_wraps_rejection (bettor : option Hex)
    (game : option CASINO_GAME_TYPE) (chainId : ChainId)
    (rejection : JsError) (s : State) :
  chain_is L W chainId ->
  indexer_fetchBets W (first_options chainId key) bettor game 5
  = inl rejection ->
  getSubgraphBets L W bettor game key s
  = (Throws
       (Error ("An error occured while getting the bet: "
               ++ error_toString rejection)%string),
     log s [EvFetchBets (first_options chainId key) bettor game 5]).
Proof.
  intros Hc Hrejected. unfold getSubgraphBets, bind at 1.
  rewrite (getChainId_chain_is L W _ s Hc).
  unfold try_catch, fetchBets, bind, emit, lift.
  fold (first_options chainId key). rewrite Hrejected. reflexivity.
Qed.

End WholeRuns.

(* ================================================================== *)
(** * A game action from its first read to its last lookup *)
(* ================================================================== *)

Section ActionRuns.
Import Schemas Sdk Effects Betswirl Placement Polling Runs.
Context (L : Library) (W : World) (key : option string).

Lemma log_nil (s : State) : log s [] = s.
Proof. unfold log. rewrite app_nil_r. destruct s; reflexivity. Qed.

Lemma no_submission_count evs :
  (forall tx, ~ In (EvSendTransaction tx) evs) -> count is_submission evs = 0%nat.
Proof.
  unfold count. induction evs as [|ev evs IH]; intros H; [reflexivity|].
  cbn. destruct ev; cbn; try (apply IH; intros tx Hin; apply (H tx); right; exact Hin).
  destruct (H tx). left. reflexivity.
Qed.

Lemma checkLiveGame_run game cid s :
  chain_is L W cid ->
  checkLiveGame L W game s
  = (match read_gamePaused W game cid with
     | inl e => Throws e
     | inr paused => Returns paused
     end, log s [EvReadContract (GamePausedCall game cid)]).
Proof.
  intros Hc. unfold checkLiveGame, bind at 1.
  rewrite (getChainId_chain_is L W _ s Hc).
  unfold readContract_gamePaused, bind, emit, lift.
  destruct (read_gamePaused W game cid); reflexivity.
Qed.

(** With a chain id, [getBetToken] makes no read or the one list read. *)
Lemma getBetToken_cases sym cid s :
  chain_is L W cid ->
  exists evs,
    (evs = [] \/ evs = [tokens_read cid])
    /\ snd (getBetToken L W sym s) = log s evs.
Proof.
  intros Hc. unfold getBetToken, bind at 1.
  rewrite (getChainId_chain_is L W _ s Hc).
  destruct (casinoChainById L cid) as [chain|];
    [|exists []; rewrite log_nil; auto].
  destruct sym as [input|]; [|exists []; rewrite log_nil; auto].
  destruct (truthy (Some input)
            && negb (String.eqb input (nc_symbol (viemChain_nativeCurrency chain))));
    [|exists []; rewrite log_nil; auto].
  unfold bind. rewrite (getCasinoTokens_run L W _ s Hc).
  exists [tokens_read cid]. split; [auto|].
  destruct (read_casinoTokens W cid); [reflexivity|].
  destruct (find _ _); reflexivity.
Qed.

Lemma game_entry_shape Sel game enc mult act :
  game_entry L W key Sel game enc mult act ->
  act = Provider.placeGameBet L W key game enc mult.
Proof. intros []; reflexivity. Qed.

Lemma poll_event_no_submission hash evs :
  Forall (poll_event hash) evs -> Forall (fun ev => is_submission ev = false) evs.
Proof.
  apply Forall_impl. intros [] H; try reflexivity. destruct H.
Qed.

(** Once the game-paused read has answered, the token is resolved and the
    amount is positive, what is left of a game action is [placeBet] with
    the parameters of one bet to the wallet itself, then [getBet] on the
    hash it returns. *)
Lemma placeGameBet_places {Sel} game enc mult (args : BetArgs Sel)
    s paused s1 tok s2 amount :
  checkLiveGame L W game s = (Returns paused, s1) ->
  getBetToken L W (token args) s1 = (Returns tok, s2) ->
  parseUnits L (Schemas.betAmount args) (decimals tok) = inr amount ->
  0 < amount ->
  Provider.placeGameBet L W key game enc mult args s
  = bind
      (placeBet L W game (enc (selection args)) (mult (selection args))
         (action_params W amount tok))
      (fun hash => getBet L W hash key) s2.
Proof.
  intros H1 H2 Hparse Hpos. unfold Provider.placeGameBet.
  unfold bind at 1. rewrite H1. unfold bind at 1. rewrite H2.
  unfold bind at 1. unfold getBetAmountInWei, bind at 1, lift.
  rewrite Hparse. cbn [ret].
  replace (amount <=? 0) with false by (symmetry; apply Z.leb_gt; exact Hpos).
  reflexivity.
Qed.

(** A placement that gets as far as the submission, followed by the
    lookup of the hash: one submission, then lookups and waits. *)
Lemma placed_then_polled game input mult params cid raw resp fee s :
  chain_is L W cid ->
  read_betRequirements W (address (betToken params)) mult cid = inr raw ->
  requirements_met
    (parseRawBetRequirements L raw (betToken params) mult game cid) params ->
  api_vrfFees W (vrf_query L game params cid) = inr resp ->
  ok resp = true -> json_BigInt resp = inr fee ->
  let tx := placeBet_transaction L game input params cid
              (bigint_div (fee * 120) 100) in
  exists polled,
    trace (snd (bind (placeBet L W game input mult params)
                  (fun hash => getBet L W hash key) s))
    = trace s ++ [requirements_read params mult cid;
                  EvFetchVrfFees (vrf_query L game params cid);
                  EvSendTransaction tx] ++ polled
    /\ Forall (fun ev => is_submission ev = false) polled.
Proof.
  intros Hc Hr Hmet Hresp Hok Hfee tx. unfold bind.
  rewrite (placeBet_after_gate L W game input mult params cid raw s Hc Hr Hmet).
  cbv zeta. rewrite Hresp, Hok, Hfee. fold tx.
  destruct (wallet_sendTransaction W tx) as [e|hash].
  - exists []. split; [|constructor]. cbn [snd trace log].
    rewrite <- app_assoc. reflexivity.
  - match goal with
    | |- context [getBet L W hash key ?st] =>
        destruct (getBet L W hash key st) as [o s4] eqn:Hget;
        destruct (getBet_footprint L W key (poll_event hash) hash
                    (fun _ => I) (fun _ => eq_refl) _ _ _ Hget)
          as (polled & Htr & Hall)
    end.
    exists polled. split; [|exact (poll_event_no_submission hash _ Hall)].
    cbn [snd]. rewrite Htr. cbn [trace log]. rewrite <- !app_assoc.
    reflexivity.
Qed.

End ActionRuns.

(* ================================================================== *)
(** * What a game action places *)
(* ================================================================== *)

Section RunClaims.
Import Schemas Sdk Effects Betswirl Placement Polling Runs.

(** C3.  For each of the three game actions, whatever the arguments and
    the world:
    - once the game-paused read has answered, the token is resolved and
      the amount is positive, the action calls [placeBet] with the game's
      encoding and multiplier of the selection, that amount, that token,
      bet count 1, the wallet's own address as receiver, stop-gain 0 and
      stop-loss 0, and goes on with [getBet] on the hash; when the
      requirements are met and the fee API answers, the transaction built
      from exactly these parameters is submitted, and it is the only
      submission of the run;
    - every transaction the action submits, in any run, encodes the
      parameters of a single bet (bet count 1) paid out to the wallet's
      own address, with stop-gain 0 and stop-loss 0;
    - two argument records that agree on the selection, the amount and
      the token make the same run, whatever their [betCount], [receiver],
      [stopGain] and [stopLoss]. *)
Theorem game_actions_bet_once_to_self (L : Library) (W : World)
    (theGraphKey : option string) (Sel : Type) (game : CASINO_GAME_TYPE)
    (encodeInput : Sel -> GameEncodedInput) (getMultiplier : Sel -> Z)
    (act : BetArgs Sel -> M BetDetails) :
  game_entry L W theGraphKey Sel game encodeInput getMultiplier act ->
  (forall args s paused s1 tok s2 amount,
      checkLiveGame L W game s = (Returns paused, s1) ->
      getBetToken L W (token args) s1 = (Returns tok, s2) ->
      parseUnits L (Schemas.betAmount args) (decimals tok) = inr amount ->
      0 < amount ->
      let input := encodeInput (selection args) in
      let multiplier := getMultiplier (selection args) in
      let params :=
        {| betAmount := amount; betToken := tok; betCount := 1;
           receiver := wallet_address W; stopGain := 0; stopLoss := 0 |} in
      act args s
      = bind (placeBet L W game input multiplier params)
          (fun hash => getBet L W hash theGraphKey) s2
      /\ forall chainId raw resp fee,
           chain_is L W chainId ->
           read_betRequirements W (address tok) multiplier chainId = inr raw ->
           requirements_met
             (parseRawBetRequirements L raw tok multiplier game chainId)
             params ->
           api_vrfFees W (vrf_query L game params chainId) = inr resp ->
           ok resp = true -> json_BigInt resp = inr fee ->
           let fd :=
             getPlaceBetFunctionData L
               {| pb_betAmount := amount;
                  pb_game := game;
                  pb_gameEncodedInput := input;
                  pb_receiver := wallet_address W;
                  pb_betCount := 1;
                  pb_tokenAddress := address tok;
                  pb_stopGain := 0;
                  pb_stopLoss := 0 |} chainId in
           let tx :=
             {| tx_to := data_to fd; tx_data := encodedData fd;
                tx_value :=
                  extraData_getValue fd (bigint_div (fee * 120) 100) |} in
           exists polled,
             trace (snd (act args s))
             = trace s2
               ++ [requirements_read params multiplier chainId;
                   EvFetchVrfFees (vrf_query L game params chainId);
                   EvSendTransaction tx] ++ polled
             /\ Forall (fun ev => is_submission ev = false) polled)
  /\ (forall args s out s',
        act args s = (out, s') ->
        exists evs, trace s' = trace s ++ evs
          /\ forall tx, In (EvSendTransaction tx) evs ->
               exists p chainId vrfCost,
                 let fd := getPlaceBetFunctionData L p chainId in
                 tx = {| tx_to := data_to fd; tx_data := encodedData fd;
                         tx_value := extraData_getValue fd vrfCost |}
                 /\ pb_betCount p = 1
                 /\ pb_receiver p = wallet_address W
                 /\ pb_stopGain p = 0
                 /\ pb_stopLoss p = 0)
  /\ (forall args args',
        selection args' = selection args ->
        Schemas.betAmount args' = Schemas.betAmount args ->
        token args' = token args ->
        act args' = act args).
Proof.
  intros Hact.
  rewrite (game_entry_shape L W theGraphKey _ _ _ _ _ Hact).
  split; [|split].
  - intros args s paused s1 tok s2 amount H1 H2 Hparse Hpos input multiplier
      params.
    pose proof (placeGameBet_places L W theGraphKey game encodeInput
                  getMultiplier args s paused s1 tok s2 amount H1 H2 Hparse
                  Hpos) as Hrun.
    split; [exact Hrun|].
    intros chainId raw resp fee Hc Hr Hmet Hresp Hok Hfee fd tx.
    rewrite Hrun.
    exact (placed_then_polled L W theGraphKey game input multiplier params
             chainId raw resp fee s2 Hc Hr Hmet Hresp Hok Hfee).
  - intros args s out s' Hrun.
    destruct (placeGameBet_sends_single_bets L W theGraphKey game encodeInput
                getMultiplier args _ _ _ Hrun) as (evs & Htr & Hall).
    exists evs. split; [exact Htr|]. intros tx Hin.
    rewrite Forall_forall in Hall. exact (Hall _ Hin).
  - intros args args' Hs Ha Ht. unfold Provider.placeGameBet.
    rewrite Hs, Ha, Ht. reflexivity.
Qed.

(** The request of the scenario asks for five bets, a receiver and two
    stops; the schema accepts it, and the transaction of the coin toss is
    the one of a plain request: one bet, to the wallet, no stops.  A dice
    bet of one USDC and a roulette bet of one ETH submit one such
    transaction each, after their reads. *)
Lemma game_actions_bet_once_to_self_witness :
  CoinTossSchema Scenario.constants Scenario.eager_request
  = Zod.Parsed Scenario.eager_args []
  /\ Provider.coinToss Scenario.library Scenario.calm None Scenario.eager_args
     = Provider.coinToss Scenario.library Scenario.calm None
         (Scenario.args "1" None)
  /\ In (EvSendTransaction
           {| tx_to := "0xCasino";
              tx_data := ("wager(" ++ Scenario.wallet ++ ",1,0,0)")%string;
              tx_value := 10 ^ 18 + 1200 |})
        (trace (snd (Provider.coinToss Scenario.library Scenario.calm None
                       Scenario.eager_args (initial 0))))
  /\ (exists polled,
        trace (snd (Provider.dice Scenario.library Scenario.calm None
                      Cases.dice_args (initial 0)))
        = [EvReadContract (GamePausedCall DICE 8453); tokens_read 8453]
          ++ [EvReadContract
                (BetRequirementsCall Scenario.usdc_address 19400 8453);
              EvFetchVrfFees
                {| q_game := "dice"; q_tokenAddress := Scenario.usdc_address;
                   q_betCount := "1"; q_chainId := "8453" |};
              EvSendTransaction
                {| tx_to := "0xCasino";
                   tx_data :=
                     ("wager(" ++ Scenario.wallet ++ ",1,0,0)")%string;
                   tx_value := 1200 |}] ++ polled
        /\ Forall (fun ev => is_submission ev = false) polled)
  /\ (exists polled,
        trace (snd (Provider.roulette Scenario.library Scenario.calm None
                      Cases.roulette_args (initial 0)))
        = [EvReadContract (GamePausedCall ROULETTE 8453)]
          ++ [EvReadContract
                (BetRequirementsCall Scenario.zeroAddress 19400 8453);
              EvFetchVrfFees
                {| q_game := "roulette";
                   q_tokenAddress := Scenario.zeroAddress;
                   q_betCount := "1"; q_chainId := "8453" |};
              EvSendTransaction
                {| tx_to := "0xCasino";
                   tx_data :=
                     ("wager(" ++ Scenario.wallet ++ ",1,0,0)")%string;
                   tx_value := 10 ^ 18 + 1200 |}] ++ polled
        /\ Forall (fun ev => is_submission ev = false) polled).
Proof.
  assert (Hc : chain_is Scenario.library Scenario.calm 8453).
  { exists "8453". repeat split. }
  destruct (game_actions_bet_once_to_self Scenario.library Scenario.calm None
              _ _ _ _ _ (entry_coinToss Scenario.library Scenario.calm None))
    as (_ & _ & Hsame).
  destruct (game_actions_bet_once_to_self Scenario.library Scenario.calm None
              _ _ _ _ _ (entry_dice Scenario.library Scenario.calm None))
    as (Hdice & _ & _).
  destruct (game_actions_bet_once_to_self Scenario.library Scenario.calm None
              _ _ _ _ _ (entry_roulette Scenario.library Scenario.calm None))
    as (Hroulette & _ & _).
  split; [vm_compute; reflexivity|].
  split; [apply Hsame; reflexivity|].
  split; [vm_compute; auto 10|].
  split.
  - assert (Hmet :
      requirements_met
        (parseRawBetRequirements Scenario.library Scenario.requirements
           Scenario.usdc_token 19400 DICE 8453)
        {| betAmount := 10 ^ 6;
           betToken := Scenario.usdc_token;
           betCount := 1; receiver := Scenario.wallet;
           stopGain := 0; stopLoss := 0 |}).
    { split; [reflexivity|]. split; vm_compute; discriminate. }
    exact (proj2
             (Hdice Cases.dice_args (initial 0) false
                (log (initial 0) [EvReadContract (GamePausedCall DICE 8453)])
                Scenario.usdc_token
                (log (initial 0)
                   [EvReadContract (GamePausedCall DICE 8453);
                    tokens_read 8453])
                (10 ^ 6) eq_refl eq_refl eq_refl eq_refl)
             8453 Scenario.requirements _ 1000 Hc eq_refl Hmet eq_refl
             eq_refl eq_refl).
  - assert (Hmet :
      requirements_met
        (parseRawBetRequirements Scenario.library Scenario.requirements
           {| symbol := "ETH"; address := Scenario.zeroAddress;
              decimals := 18 |}
           19400 ROULETTE 8453)
        {| betAmount := 10 ^ 18;
           betToken :=
             {| symbol := "ETH"; address := Scenario.zeroAddress;
                decimals := 18 |};
           betCount := 1; receiver := Scenario.wallet;
           stopGain := 0; stopLoss := 0 |}).
    { split; [reflexivity|]. split; vm_compute; discriminate. }
    exact (proj2
             (Hroulette Cases.roulette_args (initial 0) false
                (log (initial 0)
                   [EvReadContract (GamePausedCall ROULETTE 8453)])
                {| symbol := "ETH"; address := Scenario.zeroAddress;
                   decimals := 18 |}
                (log (initial 0)
                   [EvReadContract (GamePausedCall ROULETTE 8453)])
                (10 ^ 18) eq_refl eq_refl eq_refl eq_refl)
             8453 Scenario.requirements _ 1000 Hc eq_refl Hmet eq_refl
             eq_refl eq_refl).
Defined.

(** X10.  The shape of every run of a game action on a wallet with a
    chain id.  The run starts with the game-paused read; if the read
    throws, the action throws that error.  Otherwise [getBetToken] runs on
    the argument's token, with no read or the one token-list read; if it
    throws, the action throws that error.  Otherwise the amount is
    converted at the decimals of the token [getBetToken] returned; an
    amount that does not convert or is not positive ends the action
    there.  Otherwise [placeBet] runs once, with the game's encoding and
    multiplier of the selection, the converted amount, the token
    [getBetToken] returned, bet count 1, the wallet as receiver and no
    stops.  If [placeBet] throws, the action throws the same error, with
    at most one submission made; if it returns, the hash is the one the
    wallet gave for the transaction built from those parameters, and the
    rest of the run is [getBet] on that very hash: lookups of that hash
    and waits, nothing else. *)
Theorem game_action_run_shape (L : Library) (W : World)
    (theGraphKey : option string) (Sel : Type) (game : CASINO_GAME_TYPE)
    (encodeInput : Sel -> GameEncodedInput) (getMultiplier : Sel -> Z)
    (act : BetArgs Sel -> M BetDetails) (args : BetArgs Sel) (s : State)
    (chainId : ChainId) :
  game_entry L W theGraphKey Sel game encodeInput getMultiplier act ->
  chain_is L W chainId ->
  let s1 := log s [EvReadContract (GamePausedCall game chainId)] in
  let resolution := getBetToken L W (token args) s1 in
  let s2 := snd resolution in
  (forall e,
      read_gamePaused W game chainId = inl e -> act args s = (Throws e, s1))
  /\ (forall paused,
        read_gamePaused W game chainId = inr paused ->
        (s2 = s1 \/ s2 = log s1 [tokens_read chainId])
        /\ (forall e,
              fst resolution = Throws e -> act args s = (Throws e, s2))
        /\ (forall tok,
              fst resolution = Returns tok ->
              let converted :=
                parseUnits L (Schemas.betAmount args) (decimals tok) in
              (forall e, converted = inl e -> act args s = (Throws e, s2))
              /\ (forall amount,
                    converted = inr amount -> amount <= 0 ->
                    act args s = (Throws amount_failure, s2))
              /\ (forall amount,
                    converted = inr amount -> 0 < amount ->
                    let input := encodeInput (selection args) in
                    let multiplier := getMultiplier (selection args) in
                    let params := action_params W amount tok in
                    let placing :=
                      placeBet L W game input multiplier params s2 in
                    (forall e,
                        fst placing = Throws e ->
                        act args s = (Throws e, snd placing)
                        /\ exists placed,
                             snd placing = log s2 placed
                             /\ (count is_submission placed <= 1)%nat)
                    /\ (forall hash,
                          fst placing = Returns hash ->
                          act args s
                          = getBet L W hash theGraphKey (snd placing)
                          /\ (exists fee,
                                let tx :=
                                  placeBet_transaction L game input params
                                    chainId (bigint_div (fee * 120) 100) in
                                snd placing
                                = log s2
                                    [requirements_read params multiplier
                                       chainId;
                                     EvFetchVrfFees
                                       (vrf_query L game params chainId);
                                     EvSendTransaction tx]
                                /\ wallet_sendTransaction W tx = inr hash)
                          /\ exists polled,
                               trace (snd (act args s))
                               = trace (snd placing) ++ polled
                               /\ Forall (poll_event hash) polled)))).
Proof.
  intros Hact Hc s1 resolution s2.
  rewrite (game_entry_shape L W theGraphKey _ _ _ _ _ Hact).
  pose proof (checkLiveGame_run L W game chainId s Hc) as Hlive.
  fold s1 in Hlive.
  split.
  { intros e He. unfold Provider.placeGameBet, bind at 1.
    rewrite Hlive, He. reflexivity. }
  intros paused Hpaused. rewrite Hpaused in Hlive.
  split.
  { destruct (getBetToken_cases L W (token args) chainId s1 Hc)
      as (evs & [-> | ->] & Hsnd); fold resolution in Hsnd; fold s2 in Hsnd.
    - left. rewrite Hsnd. apply log_nil.
    - right. exact Hsnd. }
  assert (Hres : resolution = (fst resolution, s2))
    by (unfold s2; apply surjective_pairing).
  split.
  { intros e He. rewrite He in Hres.
    unfold Provider.placeGameBet, bind at 1. rewrite Hlive.
    unfold bind at 1. fold s1. fold resolution. rewrite Hres. reflexivity. }
  intros tok Htok converted. rewrite Htok in Hres.
  split; [|split].
  - intros e He. unfold Provider.placeGameBet, bind at 1. rewrite Hlive.
    unfold bind at 1. fold s1. fold resolution. rewrite Hres.
    unfold bind at 1. unfold getBetAmountInWei, bind at 1, lift.
    fold converted. rewrite He. reflexivity.
  - intros amount Hamount Hle.
    exact (proj1
             (placeGameBet_nonpositive_amount L W theGraphKey game encodeInput
                getMultiplier args s paused s1 tok s2 amount Hlive Hres
                Hamount Hle)).
  - intros amount Hamount Hpos input multiplier params placing.
    pose proof (placeGameBet_places L W theGraphKey game encodeInput
                  getMultiplier args s paused s1 tok s2 amount Hlive Hres
                  Hamount Hpos) as Hrun.
    fold input in Hrun. fold multiplier in Hrun. fold params in Hrun.
    assert (Hpl : placing = (fst placing, snd placing))
      by apply surjective_pairing.
    destruct (placeBet_run L W game input multiplier params s2 _ _ Hpl)
      as (placed & Hplaced & Hcase).
    split.
    + intros e He. rewrite He in Hpl.
      split.
      { rewrite Hrun. unfold bind. fold placing. rewrite Hpl. reflexivity. }
      exists placed. split; [exact Hplaced|].
      destruct Hcase
        as [[Hno _] | (cid & raw & resp & fee & _ & _ & _ & _ & _ & _ & -> & _)].
      * rewrite (no_submission_count _ Hno). lia.
      * cbn. lia.
    + intros hash Hhash. rewrite Hhash in Hpl, Hcase.
      assert (Hact' :
        Provider.placeGameBet L W theGraphKey game encodeInput getMultiplier
          args s
        = getBet L W hash theGraphKey (snd placing)).
      { rewrite Hrun. unfold bind. fold placing. rewrite Hpl. reflexivity. }
      split; [exact Hact'|]. split.
      * destruct Hcase
          as [[_ Hnot] | (cid & raw & resp & fee & Hc' & _ & _ & _ & _ & _ & -> & Hout)];
          [destruct (Hnot hash eq_refl)|].
        assert (cid = chainId) as ->.
        { destruct Hc as (c & Hn & _ & <-), Hc' as (c' & Hn' & _ & <-).
          rewrite Hn in Hn'. injection Hn' as <-. reflexivity. }
        exists fee. cbv zeta. split; [exact Hplaced|].
        destruct (wallet_sendTransaction W _) as [e|h]; [discriminate Hout|].
        injection Hout as ->. reflexivity.
      * rewrite Hact'.
        destruct (getBet L W hash theGraphKey (snd placing)) as [o s4] eqn:Hget.
        destruct (getBet_footprint L W theGraphKey (poll_event hash) hash
                    (fun _ => I) (fun _ => eq_refl) _ _ _ Hget)
          as (polled & Htr & Hall).
        exists polled. split; [exact Htr | exact Hall].
Qed.

End RunClaims.

(* ================================================================== *)
(** * More on the schemas, and network support *)
(* ================================================================== *)

Section MoreValidators.
Import Zod Schemas Accepts Listing NetworkSupport Runs.

Lemma ap_parsed {A B} (f : ParseResult (A -> B)) (x : ParseResult A) v :
  f <*> x = Parsed v [] ->
  exists g a, f = Parsed g [] /\ x = Parsed a [] /\ v = g a.
Proof.
  destruct f as [g iss|iss], x as [a jss|jss]; cbn; try discriminate.
  intros [= <- H]. apply app_eq_nil in H as [-> ->]. eauto.
Qed.

Lemma field_parsed {T} key (s : Schema T) o x :
  field key s o = Parsed x [] -> s (js_get o key) = Parsed x [].
Proof.
  unfold field. destruct (s (js_get o key)) as [y iss|iss]; [|discriminate].
  intros [= -> H]. apply map_eq_nil in H. subst. reflexivity.
Qed.

Lemma check_parsed {T} (okf : T -> bool) i (s : Schema T) v x :
  check okf i s v = Parsed x [] -> s v = Parsed x [] /\ okf x = true.
Proof.
  unfold check. destruct (s v) as [y iss|iss]; [|discriminate].
  destruct (okf y) eqn:E; intros [= -> H].
  - subst. auto.
  - destruct iss; discriminate.
Qed.

Lemma z_string_parsed v x : z_string v = Parsed x [] -> v = JString x.
Proof. destruct v; cbn; try discriminate. intros [= ->]. reflexivity. Qed.

Lemma z_number_parsed v x : z_number v = Parsed x [] -> v = JNumber x.
Proof.
  destruct v as [| | |n| | |]; cbn; try discriminate.
  destruct n; cbn; try discriminate; intros [= <-]; reflexivity.
Qed.

Lemma optional_parsed {T} (s : Schema T) v r :
  optional s v = Parsed r [] ->
  (v = JUndefined /\ r = None)
  \/ (v <> JUndefined /\ exists x, s v = Parsed x [] /\ r = Some x).
Proof.
  unfold optional. destruct v; try (intros [= <-]; left; auto);
    (destruct (s _) as [x iss|iss] eqn:E; [|discriminate];
     intros [= <- ->]; right; split; [discriminate | eauto]).
Qed.

Lemma optional_string_parsed v r :
  optional z_string v = Parsed r [] -> of_optional_string r = v.
Proof.
  intros H. apply optional_parsed in H as [[-> ->] | (_ & x & Hx & ->)];
    [reflexivity|].
  apply z_string_parsed in Hx. subst. reflexivity.
Qed.

Lemma success_optional {T} (s : Schema T) v :
  success (optional s v) = true <-> v = JUndefined \/ success (s v) = true.
Proof.
  unfold optional. destruct v; cbn; try (split; auto; fail);
    (destruct (s _) as [x iss|iss]; cbn;
     [destruct iss|]; split; auto; intros [H | H]; congruence).
Qed.

Lemma success_z_string v : success (z_string v) = true <-> exists s, v = JString s.
Proof.
  destruct v; cbn; split; try discriminate; try (intros (s0 & [=])); eauto.
Qed.

Lemma success_optional_string v :
  success (optional z_string v) = true <-> optional_string v.
Proof.
  rewrite success_optional, success_z_string. reflexivity.
Qed.

Lemma success_hexAddress v :
  success (hexAddress v) = true <-> exists s, v = JString s /\ is_0x_hex 40 s.
Proof.
  unfold hexAddress. rewrite regex_schema_accepts. split.
  - intros (s & -> & H). exists s. split; [reflexivity|].
    apply hexAddress_regex_iff. exact H.
  - intros (s & -> & H). exists s. split; [reflexivity|].
    apply hexAddress_regex_iff. exact H.
Qed.

(** X11.  What the properties shared by the three game schemas ask for:
    [betAmount] must be a string and may be any string, no sign and no
    number format is checked; [token], [stopGain] and [stopLoss] are
    absent or strings; [receiver] is absent or an address; [betCount] is
    absent or positive and at most the game's maximum.  [null] stands for
    none of them. *)
Theorem shared_properties_accept (K : SdkConstants) (game : CASINO_GAME_TYPE)
    (o : JsObject) :
  shared_properties_valid K game o = true <->
  (exists amount, js_get o "betAmount" = JString amount)
  /\ optional_string (js_get o "token")
  /\ optional_string (js_get o "stopGain")
  /\ optional_string (js_get o "stopLoss")
  /\ (js_get o "receiver" = JUndefined
      \/ exists r, js_get o "receiver" = JString r /\ is_0x_hex 40 r)
  /\ (js_get o "betCount" = JUndefined
      \/ positive_at_most (maxGameBetCountByType K game) (js_get o "betCount")).
Proof.
  unfold shared_properties_valid.
  rewrite !andb_true_iff.
  unfold betAmount_schema, token_schema, stopGain_schema, stopLoss_schema,
    receiver_schema, describe.
  rewrite success_z_string, !success_optional_string, success_optional,
    success_hexAddress, betCount_schema_accepts.
  tauto.
Qed.

(** X12.  A game object that is valid parses to its own properties:
    every property of the result is the property of the input, nothing is
    converted and nothing is filled in.  In particular a bet count that is
    absent stays absent: the default of 1 written in the schema never
    applies, because the schema is optional outside the default. *)
Theorem game_object_parses_to_its_input (K : SdkConstants) (Sel : Type)
    (key : string) (sel : Schema Sel) (game : CASINO_GAME_TYPE) (o : JsObject)
    (args : BetArgs Sel) :
  game_object K key sel game o = Parsed args [] ->
  sel (js_get o key) = Parsed (selection args) []
  /\ JString (betAmount args) = js_get o "betAmount"
  /\ of_optional_string (token args) = js_get o "token"
  /\ of_optional_string (stopGain args) = js_get o "stopGain"
  /\ of_optional_string (stopLoss args) = js_get o "stopLoss"
  /\ of_optional_string (receiver args) = js_get o "receiver"
  /\ of_optional_number (betCount args) = js_get o "betCount".
Proof.
  unfold game_object. intros H.
  apply ap_parsed in H as (g7 & count & H & Hcount & ->).
  apply ap_parsed in H as (g6 & recv & H & Hrecv & ->).
  apply ap_parsed in H as (g5 & loss & H & Hloss & ->).
  apply ap_parsed in H as (g4 & gain & H & Hgain & ->).
  apply ap_parsed in H as (g3 & tok & H & Htok & ->).
  apply ap_parsed in H as (g2 & amount & H & Hamount & ->).
  apply ap_parsed in H as (g1 & selv & H & Hsel & ->).
  injection H as <-. cbn.
  apply field_parsed in Hcount, Hrecv, Hloss, Hgain, Htok, Hamount, Hsel.
  split; [exact Hsel|].
  split; [symmetry; apply z_string_parsed; exact Hamount|].
  split; [apply optional_string_parsed; exact Htok|].
  split; [apply optional_string_parsed; exact Hgain|].
  split; [apply optional_string_parsed; exact Hloss|].
  split.
  - unfold receiver_schema, describe in Hrecv.
    apply optional_parsed in Hrecv as [[-> ->] | (_ & x & Hx & ->)];
      [reflexivity|].
    unfold hexAddress, regex in Hx. apply check_parsed in Hx as [Hx _].
    apply z_string_parsed in Hx. rewrite Hx. reflexivity.
  - unfold getMaxBetCountParam, describe in Hcount.
    apply optional_parsed in Hcount as [[-> ->] | (Hne & x & Hx & ->)];
      [reflexivity|].
    unfold default in Hx.
    destruct (js_get o "betCount") eqn:E; try congruence;
      unfold max, lte, positive in Hx;
      apply check_parsed in Hx as [Hx _];
      apply check_parsed in Hx as [Hx _];
      apply z_number_parsed in Hx; cbn; congruence.
Qed.

(** X13.  [GetBetsSchema] accepts an object exactly when its bettor is
    absent or an address and its game is absent or one of the enum's
    values; the empty object is accepted, and a valid object parses to
    its own two properties. *)
Theorem GetBetsSchema_accepts (values : list string) (o : JsObject) :
  (success (GetBetsSchema values o) = true <->
   (js_get o "bettor" = JUndefined
    \/ exists b, js_get o "bettor" = JString b /\ is_0x_hex 40 b)
   /\ (js_get o "game" = JUndefined
       \/ exists g, js_get o "game" = JString g /\ In g values))
  /\ GetBetsSchema values [] = Parsed {| bettor := None; game := None |} []
  /\ (forall args,
        GetBetsSchema values o = Parsed args [] ->
        of_optional_string (bettor args) = js_get o "bettor"
        /\ of_optional_string (game args) = js_get o "game").
Proof.
  split; [|split].
  - unfold GetBetsSchema. rewrite !success_ap, !success_field.
    cbn [success pure andb]. rewrite andb_true_iff.
    unfold bettor_schema, game_schema, describe.
    rewrite !success_optional, success_hexAddress.
    assert (E : forall v, success (nativeEnum values v) = true <->
                          exists g, v = JString g /\ In g values).
    { intros v. unfold nativeEnum.
      destruct v as [| |b|n|s|l|f]; cbn;
        try (split; [discriminate | intros (s0 & [=] & _)]).
      destruct (existsb (String.eqb s) values) eqn:Ex; cbn.
      - apply existsb_exists in Ex as (x & Hx & Hs).
        apply String.eqb_eq in Hs. subst x. split; eauto.
      - split; [discriminate|]. intros (s0 & [= <-] & Hin).
        assert (existsb (String.eqb s) values = true).
        { apply existsb_exists. exists s.
          split; [exact Hin | apply String.eqb_refl]. }
        congruence. }
    rewrite E. reflexivity.
  - reflexivity.
  - unfold GetBetsSchema. intros args H.
    apply ap_parsed in H as (g2 & gm & H & Hg & ->).
    apply ap_parsed in H as (g1 & bt & H & Hb & ->).
    injection H as <-. cbn.
    apply field_parsed in Hg, Hb. split.
    + unfold bettor_schema, describe in Hb.
      apply optional_parsed in Hb as [[-> ->] | (_ & x & Hx & ->)];
        [reflexivity|].
      unfold hexAddress, regex in Hx. apply check_parsed in Hx as [Hx _].
      apply z_string_parsed in Hx. rewrite Hx. reflexivity.
    + unfold game_schema, describe in Hg.
      apply optional_parsed in Hg as [[-> ->] | (_ & x & Hx & ->)];
        [reflexivity|].
      unfold nativeEnum in Hx.
      destruct (js_get o "game"); try discriminate.
      destruct (existsb _ _); [|discriminate].
      injection Hx as ->. reflexivity.
Qed.

(** X14.  [supportsNetwork] says yes exactly for a network of the evm
    family whose chain id is present and reads as the id of a casino
    chain; any other family and a missing chain id give no.  On a wallet
    whose network it supports and whose chain id is not empty,
    [getChainId] returns that casino chain's id. *)
Theorem supportsNetwork_iff (L : Sdk.Library) (casinoChains : list Sdk.ChainId)
    (network : Network) :
  (supportsNetwork L casinoChains network = true <->
   protocolFamily network = Some "evm"
   /\ exists c, chainId network = Some c
                /\ In (Sdk.Number_of_chainId L c) casinoChains)
  /\ (forall W c s,
        supportsNetwork L casinoChains network = true ->
        Effects.network_chainId W = chainId network ->
        chainId network = Some c -> c <> "" ->
        In (Sdk.Number_of_chainId L c) casinoChains
        /\ Betswirl.getChainId L W s
           = (Effects.Returns (Sdk.Number_of_chainId L c), s)).
Proof.
  assert (Hiff : supportsNetwork L casinoChains network = true <->
                 protocolFamily network = Some "evm"
                 /\ exists c, chainId network = Some c
                              /\ In (Sdk.Number_of_chainId L c) casinoChains).
  { unfold supportsNetwork. rewrite andb_true_iff. split.
    - intros [Hf Hc]. split.
      + destruct (protocolFamily network) as [f|]; [|discriminate].
        apply String.eqb_eq in Hf. subst. reflexivity.
      + destruct (chainId network) as [c|]; [|discriminate].
        exists c. split; [reflexivity|].
        apply existsb_exists in Hc as (id & Hin & Heq).
        apply Z.eqb_eq in Heq. subst. exact Hin.
    - intros [Hf (c & Hc & Hin)]. rewrite Hf, Hc. split; [reflexivity|].
      apply existsb_exists. exists (Sdk.Number_of_chainId L c).
      split; [exact Hin | apply Z.eqb_refl]. }
  split; [exact Hiff|].
  intros W c s Hs Hw Hc Hne.
  apply Hiff in Hs as [_ (c' & Hc' & Hin)].
  rewrite Hc in Hc'. injection Hc' as <-.
  split; [exact Hin|].
  apply getChainId_chain_is. exists c. rewrite Hw, Hc.
  apply String.eqb_neq in Hne. auto.
Qed.

End MoreValidators.

(* ================================================================== *)
(** * The statements above, run on the scenario *)
(* ================================================================== *)

Section Examples.
Import Schemas Sdk Effects Betswirl Placement Polling Runs.

Lemma on_base (W : World) :
  network_chainId W = Some "8453" -> chain_is Scenario.library W 8453.
Proof. intros H. exists "8453". rewrite H. repeat split. Qed.

(** Behind a wallet without a chain id the coin toss and the listing stop
    at once. *)
Lemma no_chain_id_stops_every_action_witness :
  no_chain_id Cases.unplugged
  /\ Provider.coinToss Scenario.library Cases.unplugged None
       (Scenario.args "1" None) (initial 0)
     = (Throws (Error "No chain ID"), initial 0)
  /\ Provider.getBets Scenario.library Cases.unplugged None None None
       (initial 0)
     = (Throws (Error "No chain ID"), initial 0).
Proof.
  assert (Hno : no_chain_id Cases.unplugged) by (left; reflexivity).
  destruct (no_chain_id_stops_every_action Scenario.library Cases.unplugged
              None Hno) as (Hact & _ & Hbets & _).
  split; [exact Hno|]. split.
  - exact (Hact _ _ _ (action_coinToss _ _ _) _ _).
  - apply Hbets.
Defined.

(** With the node down the dice action fails on its first read, with the
    node's own error. *)
Lemma paused_read_failure_stops_the_action_witness :
  Provider.dice Scenario.library Cases.dead_node None Cases.dice_args
    (initial 0)
  = (Throws Cases.node_down,
     log (initial 0) [EvReadContract (GamePausedCall DICE 8453)]).
Proof.
  apply (paused_read_failure_stops_the_action Scenario.library Cases.dead_node
           None 8453 Cases.node_down JsNumber DICE).
  - apply on_base. reflexivity.
  - reflexivity.
  - apply action_dice.
Defined.

(** On chain 1, which has no casino, any symbol gives the [TypeError];
    with the node down, USDC gives the node's error after the list
    read. *)
Lemma getBetToken_failures_witness :
  getBetToken Scenario.library Cases.foreign_chain (Some "USDC") (initial 0)
  = (Throws (TypeError
               "Cannot read properties of undefined (reading 'viemChain')"),
     initial 0)
  /\ getBetToken Scenario.library Cases.dead_node (Some "USDC") (initial 0)
     = (Throws Cases.node_down, log (initial 0) [tokens_read 8453]).
Proof.
  split.
  - refine (proj1 (getBetToken_failures Scenario.library Cases.foreign_chain
                     1 (initial 0) _) _ _); [|reflexivity].
    exists "1". repeat split.
  - refine (proj2 (getBetToken_failures Scenario.library Cases.dead_node
                     8453 (initial 0) _) _ "USDC" Cases.node_down _ _ _ _);
      try reflexivity; try discriminate.
    apply on_base. reflexivity.
Defined.

(** With the node down [placeBet] fails on the requirements read. *)
Lemma placeBet_requirements_read_failure_witness :
  placeBet Scenario.library Cases.dead_node COINTOSS 1 19400
    (Scenario.params (10 ^ 18) 1) (initial 0)
  = (Throws
       (Error
          "An error occured while getting the bet requirements: Error: connection refused"),
     log (initial 0)
       [requirements_read (Scenario.params (10 ^ 18) 1) 19400 8453]).
Proof.
  apply (placeBet_requirements_read_failure Scenario.library Cases.dead_node
           COINTOSS 1 19400 (Scenario.params (10 ^ 18) 1) 8453 Cases.node_down).
  - apply on_base. reflexivity.
  - reflexivity.
Defined.

(** A bet of exactly the maximal amount and the maximal count passes the
    requirements; with the fee API answering 503 it fails there. *)
Lemma placeBet_fee_failures_witness :
  placeBet Scenario.library Cases.fee_api_down COINTOSS 1 19400
    Cases.at_the_limits (initial 0)
  = (Throws
       (Error
          "An error occured while placing the bet: Error: An error occured while getting the chainlink vrf cost: Error: An error occured while fetching the chainlink vrf cost from API: Service Unavailable"),
     log (initial 0)
       [requirements_read Cases.at_the_limits 19400 8453;
        EvFetchVrfFees
          (vrf_query Scenario.library COINTOSS Cases.at_the_limits 8453)]).
Proof.
  assert (Hc : chain_is Scenario.library Cases.fee_api_down 8453)
    by (apply on_base; reflexivity).
  assert (Hamt : 5 * 10 ^ 18 <= 5 * 10 ^ 18) by lia.
  assert (Hcnt : 10 <= 10) by lia.
  destruct (placeBet_fee_failures Scenario.library Cases.fee_api_down COINTOSS
              1 19400 Cases.at_the_limits 8453 Scenario.requirements
              (initial 0) Hc eq_refl eq_refl Hamt Hcnt) as (_ & Hstatus & _).
  exact (Hstatus _ eq_refl eq_refl).
Defined.

(** When the wallet refuses to sign, the refusal comes back wrapped after
    the one submission. *)
Lemma placeBet_submits_at_most_once_witness :
  exists tx,
    placeBet Scenario.library Cases.wallet_refuses COINTOSS 1 19400
      (Scenario.params (10 ^ 18) 1) (initial 0)
    = (Throws
         (Error
            "An error occured while placing the bet: Error: user rejected the request"),
       log (initial 0)
         [requirements_read (Scenario.params (10 ^ 18) 1) 19400 8453;
          EvFetchVrfFees
            (vrf_query Scenario.library COINTOSS
               (Scenario.params (10 ^ 18) 1) 8453);
          EvSendTransaction tx]).
Proof.
  assert (Hc : chain_is Scenario.library Cases.wallet_refuses 8453)
    by (apply on_base; reflexivity).
  assert (Hmet :
    requirements_met
      (parseRawBetRequirements Scenario.library Scenario.requirements
         (betToken (Scenario.params (10 ^ 18) 1)) 19400 COINTOSS 8453)
      (Scenario.params (10 ^ 18) 1)).
  { split; [reflexivity|]. split; vm_compute; discriminate. }
  eexists.
  exact (proj2 (placeBet_submits_at_most_once Scenario.library
                  Cases.wallet_refuses COINTOSS 1 19400
                  (Scenario.params (10 ^ 18) 1) (initial 0))
           8453 Scenario.requirements _ 1000 _ Hc eq_refl Hmet eq_refl
           eq_refl eq_refl eq_refl).
Defined.

(** The indexer lists a resolved bet and an unresolved one: two records,
    in that order, the second without a roll link. *)
Lemma getSubgraphBets_lists_every_bet_witness :
  getSubgraphBets Scenario.library Cases.busy_listing None None None
    (initial 0)
  = (Returns
       [toBetDetails Scenario.library 8453 (Scenario.a_bet true);
        toBetDetails Scenario.library 8453 (Scenario.a_bet false)],
     log (initial 0) [EvFetchBets (first_options 8453 None) None None 5]).
Proof.
  assert (Hc : chain_is Scenario.library Cases.busy_listing 8453)
    by (apply on_base; reflexivity).
  exact (proj1 (getSubgraphBets_lists_every_bet Scenario.library
                  Cases.busy_listing None None None 8453 Cases.two_bets
                  (initial 0) Hc eq_refl eq_refl)).
Defined.

(** With the indexer unreachable the listing fails with the rejection
    wrapped. *)
Lemma getSubgraphBets_wraps_rejection_witness :
  getSubgraphBets Scenario.library Cases.rejecting_indexer None None None
    (initial 0)
  = (Throws
       (Error "An error occured while getting the bet: Error: fetch failed"),
     log (initial 0) [EvFetchBets (first_options 8453 None) None None 5]).
Proof.
  apply (getSubgraphBets_wraps_rejection Scenario.library
           Cases.rejecting_indexer None None None 8453
           Cases.indexer_unreachable (initial 0)).
  - apply on_base. reflexivity.
  - reflexivity.
Defined.

(** A dice bet of one USDC in the calm world: the game-paused read, the
    token-list read, the placement of one bet of 10^6 units of the listed
    USDC, and then nothing but the lookup of the wallet's hash. *)
Lemma game_action_run_shape_witness :
  let usdc := Scenario.usdc_token in
  let placed :=
    log (initial 0)
      [EvReadContract (GamePausedCall DICE 8453); tokens_read 8453;
       requirements_read (action_params Scenario.calm (10 ^ 6) usdc) 19400
         8453;
       EvFetchVrfFees
         (vrf_query Scenario.library DICE
            (action_params Scenario.calm (10 ^ 6) usdc) 8453);
       EvSendTransaction
         (placeBet_transaction Scenario.library DICE 0
            (action_params Scenario.calm (10 ^ 6) usdc) 8453 1200)] in
  Provider.dice Scenario.library Scenario.calm None Cases.dice_args
    (initial 0)
  = getBet Scenario.library Scenario.calm "0xbet" None placed
  /\ exists polled,
       trace (snd (Provider.dice Scenario.library Scenario.calm None
                     Cases.dice_args (initial 0)))
       = trace placed ++ polled
       /\ Forall (poll_event "0xbet") polled.
Proof.
  intros usdc placed.
  assert (Hc : chain_is Scenario.library Scenario.calm 8453)
    by (apply on_base; reflexivity).
  destruct (game_action_run_shape Scenario.library Scenario.calm None _ _ _ _
              _ Cases.dice_args (initial 0) 8453
              (entry_dice Scenario.library Scenario.calm None) Hc)
    as (_ & Hanswered).
  destruct (Hanswered false eq_refl) as (_ & _ & Hresolved).
  destruct (Hresolved usdc eq_refl) as (_ & _ & Hpositive).
  assert (Hpos : 0 < 10 ^ 6) by (vm_compute; reflexivity).
  destruct (Hpositive (10 ^ 6) eq_refl Hpos) as (_ & Hreturned).
  assert (Hhash :
    fst (placeBet Scenario.library Scenario.calm DICE 0 19400
           (action_params Scenario.calm (10 ^ 6) usdc)
           (log (initial 0)
              [EvReadContract (GamePausedCall DICE 8453); tokens_read 8453]))
    = Returns "0xbet") by (vm_compute; reflexivity).
  destruct (Hreturned "0xbet" Hhash) as (Hrun & _ & Hpolled).
  split; [exact Hrun | exact Hpolled].
Defined.

(** The request of the scenario parses to its own properties. *)
Lemma game_object_parses_to_its_input_witness :
  JString (Schemas.betAmount Scenario.eager_args)
  = js_get Scenario.eager_request "betAmount"
  /\ of_optional_string (token Scenario.eager_args)
     = js_get Scenario.eager_request "token"
  /\ of_optional_number (Schemas.betCount Scenario.eager_args)
     = js_get Scenario.eager_request "betCount".
Proof.
  assert (Hparse :
    game_object Scenario.constants "face" (face_schema Scenario.constants)
      COINTOSS Scenario.eager_request
    = Zod.Parsed Scenario.eager_args []) by (vm_compute; reflexivity).
  destruct (game_object_parses_to_its_input Scenario.constants string "face"
              (face_schema Scenario.constants) COINTOSS Scenario.eager_request
              Scenario.eager_args Hparse)
    as (_ & Hamount & Htoken & _ & _ & _ & Hcount).
  auto.
Defined.

(** The network of the provider's test, evm on chain 8453, is supported
    when 8453 is a casino chain; [getChainId] then returns 8453. *)
Lemma supportsNetwork_iff_witness :
  NetworkSupport.supportsNetwork Scenario.library [8453; 42161]
    {| NetworkSupport.protocolFamily := Some "evm";
       NetworkSupport.chainId := Some "8453" |} = true
  /\ getChainId Scenario.library Scenario.calm (initial 0)
     = (Returns 8453, initial 0).
Proof.
  assert (Hyes :
    NetworkSupport.supportsNetwork Scenario.library [8453; 42161]
      {| NetworkSupport.protocolFamily := Some "evm";
         NetworkSupport.chainId := Some "8453" |} = true) by reflexivity.
  split; [exact Hyes|].
  refine (proj2 (proj2 (supportsNetwork_iff Scenario.library [8453; 42161] _)
                   Scenario.calm "8453" (initial 0) Hyes eq_refl eq_refl _)).
  discriminate.
Defined.

End Examples.
